(** * pg_arman: the backup engine of [backup.c]

    A shallow embedding of [backup.c] and the properties of its
    orchestration: the block-change sink, the archive wait, the file copier,
    the start/stop protocol and the exit-time cleanup.

    Conventions.
    - C integers are [Z]; conversions between widths are written out
      ([wrap_u32], [wrap_i32]).
    - [parray] is [list]; an element updated through its pointer is an
      update of the list at its index.
    - [elog(ERROR, ...)] ends the run: it is the [Fatal] outcome, carrying
      the formatted message.  [elog(LOG, ...)] only prints and is left out.
    - Everything outside [backup.c] that the program talks to (file system,
      clock, signals, server, catalog, copy routines) is an oracle, the
      [World], read at a logical instant that advances at every
      interaction. *)

From Stdlib Require Import ZArith Lia.
From stdpp Require Import base decidable option list sorting strings pretty gmap.

Local Open Scope Z_scope.

(** ** Machine integers *)

Definition wrap_u32 (z : Z) : Z := z mod 2 ^ 32.
Definition wrap_i32 (z : Z) : Z := (z + 2 ^ 31) mod 2 ^ 32 - 2 ^ 31.

(** [printf("%u")] of a value that fits [unsigned int]. *)
Definition fmt_u (z : Z) : string := pretty (Z.to_N z).

(** [printf("%d")]. *)
Definition fmt_d (z : Z) : string := pretty z.

(** ** Constants of the platform and of [pg_arman.h] *)

(** [errno] values and the file-type bits of [st_mode] (Linux). *)
Definition ENOENT : Z := 2.
Definition S_IFMT : Z := 61440.    (* 0170000 *)
Definition S_IFREG : Z := 32768.   (* 0100000 *)
Definition S_IFDIR : Z := 16384.   (* 0040000 *)

Definition S_ISREG (m : Z) : bool := Z.land m S_IFMT =? S_IFREG.
Definition S_ISDIR (m : Z) : bool := Z.land m S_IFMT =? S_IFDIR.

(** [#define TIMEOUT_ARCHIVE 10] *)
Definition TIMEOUT_ARCHIVE : Z := 10.

(** Modelled from the spec: [BYTES_INVALID] is defined in [pg_arman.h], which
    is not among the sources; the spec calls it the sentinel write size that
    means "skipped".  Only its being a fixed value that no byte count takes
    matters here. *)
Definition BYTES_INVALID : Z := -1.

(** ** Data model *)

Inductive BackupStatus :=
| BACKUP_STATUS_RUNNING
| BACKUP_STATUS_DONE
| BACKUP_STATUS_ERROR
| BACKUP_STATUS_DELETED
| BACKUP_STATUS_CORRUPT.

Inductive BackupMode :=
| BACKUP_MODE_INVALID
| BACKUP_MODE_DIFF_PAGE
| BACKUP_MODE_FULL.

#[global] Instance BackupStatus_eq_dec : EqDecision BackupStatus.
Proof. solve_decision. Defined.
#[global] Instance BackupMode_eq_dec : EqDecision BackupMode.
Proof. solve_decision. Defined.

(** [pgBackup]: the fields [backup.c] reads or writes. *)
Record pgBackup := mkBackup {
  backup_mode : BackupMode;
  status : BackupStatus;
  tli : Z;
  start_lsn : Z;
  stop_lsn : Z;
  start_time : Z;
  end_time : Z;
  data_bytes : Z;
  block_size : Z;
  wal_block_size : Z;
  recovery_xid : Z;
  recovery_time : Z
}.

(** Modelled from the spec: the page map lives in [datapagemap.c], which is
    not among the sources.  The spec gives it as a set of block numbers of
    one relation segment, and [datapagemap_add] as insertion into it. *)
Abbreviation datapagemap := (gset Z).

Definition datapagemap_add (map : datapagemap) (blkno : Z) : datapagemap :=
  {[ blkno ]} ∪ map.

(** [pgFile]: the fields [backup.c] reads or writes. *)
Record pgFile := mkFile {
  path : string;
  mode : Z;
  mtime : Z;
  size : Z;
  read_size : Z;
  write_size : Z;
  is_datafile : bool;
  pagemap : datapagemap
}.

Definition set_pagemap (f : pgFile) (pm : datapagemap) : pgFile :=
  mkFile (path f) (mode f) (mtime f) (size f) (read_size f) (write_size f)
         (is_datafile f) pm.

Definition set_write_size (f : pgFile) (n : Z) : pgFile :=
  mkFile (path f) (mode f) (mtime f) (size f) (read_size f) n
         (is_datafile f) (pagemap f).

Definition set_is_datafile (f : pgFile) (b : bool) : pgFile :=
  mkFile (path f) (mode f) (mtime f) (size f) (read_size f) (write_size f)
         b (pagemap f).

Definition set_copied (f : pgFile) (rd wr : Z) : pgFile :=
  mkFile (path f) (mode f) (mtime f) (size f) rd wr
         (is_datafile f) (pagemap f).

(** PostgreSQL's relation identity. *)
Record RelFileNode := mkRel { spcNode : Z; dbNode : Z; relNode : Z }.

Inductive ForkNumber :=
| MAIN_FORKNUM | FSM_FORKNUM | VISIBILITYMAP_FORKNUM | INIT_FORKNUM.

(** What the build takes from PostgreSQL and the C library: constants of
    the server version the tool is compiled against and the helper routines
    of libpgport/libpgcommon that [backup.c] calls. *)
Record Platform := mkPlatform {
  RELSEG_SIZE : Z;
  BLCKSZ : Z;
  XLOG_BLCKSZ : Z;
  PG_VERSION_NUM : Z;
  PG_MAJORVERSION : string;
  relpathperm : RelFileNode → ForkNumber → string;
  join_path_components : string → string → string;
  path_is_prefix_of_path : string → string → bool;
  XLogDataFromLSN : string → Z * Z;
  XLogFileName : Z → Z → string;
  XLByteToSeg : Z → Z;
  time2iso : Z → string;
  strtol : string → Z * string;
  sscanf_u : string → option Z;
  strerror : Z → string;
  last_dir_separator : string → option string;
  (* from pg_arman.h and catalog.c, which are not among the sources *)
  TXID_CURRENT_SQL : string;
  JoinPathEnd : string → string → string;
  pgBackupGetPath : pgBackup → string → string
}.

(** ** [fileExists] *)

(** [struct stat], reduced to the field the program reads. *)
Record struct_stat := mkStat { st_mode : Z }.

(** What [stat(2)] answers for a path at some instant. *)
Inductive stat_outcome :=
| StatOk (buf : struct_stat)
| StatErr (errno : Z).

(** [stat(path, &buf)]: return value, [errno] and contents of [buf]
    afterwards.  A failing call sets [errno] and does not fill [buf]. *)
Definition stat_call (o : stat_outcome) (errno0 : Z) (buf0 : struct_stat)
  : Z * Z * struct_stat :=
  match o with
  | StatOk b => (0, errno0, b)
  | StatErr e => (-1, e, buf0)
  end.

(** [fileExists].  [buf] is an automatic variable without initialiser:
    [buf0] stands for whatever the stack holds when the function is
    entered, [errno0] for the value of [errno] before the call. *)
Definition fileExists (o : stat_outcome) (errno0 : Z) (buf0 : struct_stat)
  : bool :=
  let '(ret, errno, buf) := stat_call o errno0 buf0 in
  if (ret =? -1) && (errno =? ENOENT) then false
  else if negb (S_ISREG (st_mode buf)) then false
  else true.

(** ** The block-change sink *)

Section BlockChange.
Variable pf : Platform.

(** [datasegpath]: [segno] arrives as a [BlockNumber] (unsigned). *)
Definition datasegpath (rnode : RelFileNode) (forknum : ForkNumber)
  (segno : Z) : string :=
  let path := relpathperm pf rnode forknum in
  if 0 <? segno then path +:+ "." +:+ fmt_u segno
  else path.

(** [process_block_change] on a non-NULL [pgdata] and file list.  [segno]
    is an [int]; it is converted back to [BlockNumber] at the call of
    [datasegpath].  The loop stops at the first entry with the path; the
    page map of that entry is updated through its pointer. *)
Definition process_block_change (pgdata : string)
  (forknum : ForkNumber) (rnode : RelFileNode) (blkno : Z)
  (backup_files_list : list pgFile) : list pgFile :=
  let segno := wrap_i32 (blkno / RELSEG_SIZE pf) in
  let blkno_inseg := blkno mod RELSEG_SIZE pf in
  let rel_path := datasegpath rnode forknum (wrap_u32 segno) in
  let path' := pgdata +:+ "/" +:+ rel_path in
  match list_find (λ p, path p = path') backup_files_list with
  | Some (j, file_item) =>
      <[ j := set_pagemap file_item
                (datapagemap_add (pagemap file_item) blkno_inseg) ]>
        backup_files_list
  | None => backup_files_list
  end.

(** The path the claim about [process_block_change] names: the data
    directory, a slash, the relation path and the segment suffix. *)
Definition target_path (pgdata : string) (rnode : RelFileNode)
  (forknum : ForkNumber) (blkno : Z) : string :=
  let segno := blkno / RELSEG_SIZE pf in
  pgdata +:+ "/" +:+ relpathperm pf rnode forknum +:+
  (if 0 <? segno then "." +:+ fmt_u segno else EmptyString).

End BlockChange.

(** ** Outcomes, events and the world *)

(** How a routine ends: it returns, it ends the run through
    [elog(ERROR, msg)], it never comes back from a loop, or it dereferences
    a NULL pointer. *)
Inductive result (A : Type) :=
| Ok (a : A)
| Fatal (msg : string)
| Hang
| Crash.
Arguments Ok {A} a.
Arguments Fatal {A} msg.
Arguments Hang {A}.
Arguments Crash {A}.

(** [PGresult], reduced to what [get_lsn] and friends read: the shape of
    the table and the cell (0,0). *)
Record PGresult := mkRes { ntuples : Z; nfields : Z; value00 : string }.

Record timeval := mkTv { tv_sec : Z; tv_usec : Z }.

(** The functions of [backup.c] whose entry and return are recorded. *)
Inductive fn :=
| F_check_server_version
| F_pg_start_backup
| F_pg_stop_backup (with_backup : bool)
| F_wait_for_archive (sql : string)
| F_add_files
| F_backup_files
| F_create_file_list
| F_do_backup_database
| F_backup_cleanup.

(** Calls that leave [backup.c].  The last argument of the two copy
    routines is a ghost: the value of [tv.tv_sec] in [backup_files] when the
    call is made. *)
Inductive extcall :=
| X_stat (p : string)
| X_gettimeofday
| X_time
| X_sleep (sec : Z)
| X_usleep (usec : Z)
| X_fopen (p : string)
| X_fclose
| X_chmod (p : string)
| X_reconnect
| X_disconnect
| X_execute (sql : string) (params : list string)
| X_PQserverVersion
| X_sanityChecks
| X_get_current_timeline
| X_dir_list_file (root : string)
| X_dir_print_mkdirs_sh
| X_dir_read_file_list (file_txt : string)
| X_dir_print_file_list
| X_dir_create_dir (p : string)
| X_extractPageMap (startpoint tl endpoint : Z)
| X_backup_data_file (p : string) (lsn : option Z) (sec : Z)
| X_copy_file (p : string) (sec : Z)
| X_catalog_lock
| X_catalog_unlock
| X_catalog_get_backup_list
| X_pgBackupCreateDir
| X_pgBackupWriteIni (b : pgBackup)
| X_pgBackupDelete (generations days : Z).

Inductive event :=
| Enter (f : fn)
| Leave (f : fn)
| Ext (c : extcall)
| Assign_status (st : BackupStatus).

(** The world: the option globals, fixed during a run, and what each
    interaction answers at a given instant. *)
Record World := mkWorld {
  pgdata : option string;
  arclog_path : string;
  check : bool;
  verbose : bool;
  w_fail : nat → extcall → option string;
  w_stat : nat → string → stat_outcome;
  w_errno : nat → Z;
  w_stack : nat → struct_stat;
  w_clock : nat → timeval;
  w_interrupted : nat → bool;
  w_result : nat → option PGresult;
  w_errmsg : nat → string;
  w_server_version : nat → Z;
  w_timeline : nat → Z;
  w_dir_list : nat → list pgFile;
  w_file_list : nat → list pgFile;
  w_wal : nat → list (ForkNumber * RelFileNode * Z);
  w_copy : nat → option (Z * Z);
  w_lock : nat → Z;
  w_backup_list : nat → option (list pgBackup);
  w_create_dir : nat → Z;
  w_fopen : nat → bool;
  w_chmod : nat → Z
}.

(** Callbacks that can sit on the exit stack. *)
Inductive callback := Cb_backup_cleanup.

(** The mutable globals of the program, the logical instant and the
    history of the run. *)
Record State := mkState {
  current : pgBackup;
  in_backup : bool;
  server_version : Z;
  connected : bool;
  backup_files_list : option (list pgFile);
  atexit_stack : list callback;
  now : nat;
  trace : list event
}.

Definition M (A : Type) : Type := State → result A * State.

Definition ret {A} (a : A) : M A := λ s, (Ok a, s).

Definition bind {A B} (m : M A) (f : A → M B) : M B :=
  λ s, match m s with
       | (Ok a, s') => f a s'
       | (Fatal msg, s') => (Fatal msg, s')
       | (Hang, s') => (Hang, s')
       | (Crash, s') => (Crash, s')
       end.

Notation "x <- m ;; k" := (bind m (λ x, k))
  (at level 100, m at next level, right associativity).
Notation "m ;; k" := (bind m (λ _, k))
  (at level 100, right associativity).

Definition elog_ERROR {A} (msg : string) : M A := λ s, (Fatal msg, s).
Definition hang {A} : M A := λ s, (Hang, s).
Definition crash {A} : M A := λ s, (Crash, s).

Definition when (b : bool) (m : M unit) : M unit := if b then m else ret tt.

Definition with_trace (s : State) (t : list event) : State :=
  mkState (current s) (in_backup s) (server_version s) (connected s)
          (backup_files_list s) (atexit_stack s) (now s) t.

Definition with_now (s : State) (n : nat) : State :=
  mkState (current s) (in_backup s) (server_version s) (connected s)
          (backup_files_list s) (atexit_stack s) n (trace s).

Definition with_current (s : State) (c : pgBackup) : State :=
  mkState c (in_backup s) (server_version s) (connected s)
          (backup_files_list s) (atexit_stack s) (now s) (trace s).

Definition with_in_backup (s : State) (b : bool) : State :=
  mkState (current s) b (server_version s) (connected s)
          (backup_files_list s) (atexit_stack s) (now s) (trace s).

Definition with_server_version (s : State) (v : Z) : State :=
  mkState (current s) (in_backup s) v (connected s)
          (backup_files_list s) (atexit_stack s) (now s) (trace s).

Definition with_connected (s : State) (b : bool) : State :=
  mkState (current s) (in_backup s) (server_version s) b
          (backup_files_list s) (atexit_stack s) (now s) (trace s).

Definition with_files (s : State) (l : option (list pgFile)) : State :=
  mkState (current s) (in_backup s) (server_version s) (connected s)
          l (atexit_stack s) (now s) (trace s).

Definition with_atexit (s : State) (l : list callback) : State :=
  mkState (current s) (in_backup s) (server_version s) (connected s)
          (backup_files_list s) l (now s) (trace s).

Definition get {A} (f : State → A) : M A := λ s, (Ok (f s), s).
Definition modify (f : State → State) : M unit := λ s, (Ok tt, f s).

Definition emit (e : event) : M unit :=
  modify (λ s, with_trace s (trace s ++ [e])).

Definition tick : M unit := modify (λ s, with_now s (S (now s))).

(** Entry and return of a function of [backup.c]. *)
Definition call {A} (f : fn) (body : M A) : M A :=
  emit (Enter f);; x <- body ;; emit (Leave f);; ret x.

(** Field updates of [current]. *)
Definition upd_status (st : BackupStatus) (b : pgBackup) : pgBackup :=
  mkBackup (backup_mode b) st (tli b) (start_lsn b) (stop_lsn b)
    (start_time b) (end_time b) (data_bytes b) (block_size b)
    (wal_block_size b) (recovery_xid b) (recovery_time b).
Definition upd_tli (v : Z) (b : pgBackup) : pgBackup :=
  mkBackup (backup_mode b) (status b) v (start_lsn b) (stop_lsn b)
    (start_time b) (end_time b) (data_bytes b) (block_size b)
    (wal_block_size b) (recovery_xid b) (recovery_time b).
Definition upd_start_lsn (v : Z) (b : pgBackup) : pgBackup :=
  mkBackup (backup_mode b) (status b) (tli b) v (stop_lsn b)
    (start_time b) (end_time b) (data_bytes b) (block_size b)
    (wal_block_size b) (recovery_xid b) (recovery_time b).
Definition upd_stop_lsn (v : Z) (b : pgBackup) : pgBackup :=
  mkBackup (backup_mode b) (status b) (tli b) (start_lsn b) v
    (start_time b) (end_time b) (data_bytes b) (block_size b)
    (wal_block_size b) (recovery_xid b) (recovery_time b).
Definition upd_end_time (v : Z) (b : pgBackup) : pgBackup :=
  mkBackup (backup_mode b) (status b) (tli b) (start_lsn b) (stop_lsn b)
    (start_time b) v (data_bytes b) (block_size b)
    (wal_block_size b) (recovery_xid b) (recovery_time b).
Definition upd_data_bytes (v : Z) (b : pgBackup) : pgBackup :=
  mkBackup (backup_mode b) (status b) (tli b) (start_lsn b) (stop_lsn b)
    (start_time b) (end_time b) v (block_size b)
    (wal_block_size b) (recovery_xid b) (recovery_time b).
Definition upd_recovery_xid (v : Z) (b : pgBackup) : pgBackup :=
  mkBackup (backup_mode b) (status b) (tli b) (start_lsn b) (stop_lsn b)
    (start_time b) (end_time b) (data_bytes b) (block_size b)
    (wal_block_size b) v (recovery_time b).
Definition upd_recovery_time (v : Z) (b : pgBackup) : pgBackup :=
  mkBackup (backup_mode b) (status b) (tli b) (start_lsn b) (stop_lsn b)
    (start_time b) (end_time b) (data_bytes b) (block_size b)
    (wal_block_size b) (recovery_xid b) v.

Definition set_current (f : pgBackup → pgBackup) : M unit :=
  modify (λ s, with_current s (f (current s))).

(** [current.status = st]; the assignment is recorded in the history. *)
Definition assign_status (st : BackupStatus) : M unit :=
  emit (Assign_status st);; set_current (upd_status st).

Definition dquote : string := String (Ascii.ascii_of_nat 34) EmptyString.

(** ** The engine *)

(** The SQL texts [backup.c] sends. *)
Definition start_backup_sql : string := "SELECT pg_start_backup($1, $2)".
Definition stop_backup_sql : string := "SELECT * FROM pg_stop_backup()".
Definition switch_xlog_sql : string := "SELECT * FROM pg_switch_xlog()".


Section Engine.
Variable pf : Platform.
Variable w : World.

(** A library or system call that cannot end the run: it is recorded and
    the instant advances. *)
Definition sys (c : extcall) : M unit := emit (Ext c);; tick.

(** A routine outside [backup.c] that may end the run with
    [elog(ERROR, ...)]. *)
Definition ext (c : extcall) : M unit :=
  emit (Ext c);;
  o <- get (λ s, w_fail w (now s) c) ;;
  tick;;
  match o with
  | Some msg => elog_ERROR msg
  | None => ret tt
  end.

(** The answer of the world to the interaction that just took place. *)
Definition answer {A} (f : World → nat → A) : M A :=
  get (λ s, f w (Nat.pred (now s))).

(** [pgdata] where the program dereferences it. *)
Definition get_pgdata : M string :=
  match pgdata w with
  | Some d => ret d
  | None => crash
  end.

(** [interrupted], a flag set from the signal handler. *)
Definition read_interrupted : M bool :=
  b <- get (λ s, w_interrupted w (now s)) ;;
  tick;;
  ret b.

Definition gettimeofday : M timeval :=
  sys X_gettimeofday;; answer w_clock.

(** [time(NULL)] *)
Definition time : M Z :=
  sys X_time;; tv <- answer w_clock ;; ret (tv_sec tv).

(** [stat(path, &buf)] as [backup_files] uses it. *)
Definition stat (p : string) : M stat_outcome :=
  sys (X_stat p);; answer (λ w n, w_stat w n p).

(** [fileExists(path)] inside the run. *)
Definition fileExistsM (p : string) : M bool :=
  sys (X_stat p);;
  o <- answer (λ w n, w_stat w n p) ;;
  e <- answer w_errno ;;
  b <- answer w_stack ;;
  ret (fileExists o e b).

Definition reconnect : M unit :=
  ext X_reconnect;; modify (λ s, with_connected s true).

Definition disconnect : M unit :=
  sys X_disconnect;; modify (λ s, with_connected s false).

Definition execute (sql : string) (params : list string)
  : M (option PGresult) :=
  ext (X_execute sql params);; answer w_result.

Definition PQerrorMessage : M string := get (λ s, w_errmsg w (now s)).

Definition get_current_timeline : M Z :=
  ext X_get_current_timeline;; answer w_timeline.

(** [get_lsn] *)
Definition get_lsn (res : option PGresult) : M Z :=
  let valid := match res with
               | Some r => (ntuples r =? 1) && (nfields r =? 1)
               | None => false
               end in
  if negb valid then
    msg <- PQerrorMessage ;;
    elog_ERROR ("result of backup command is invalid: " +:+ msg)
  else
    let '(xlogid, xrecoff) :=
      XLogDataFromLSN pf (from_option value00 EmptyString res) in
    ret (Z.lor (Z.shiftl (wrap_u32 xlogid) 32) (wrap_u32 xrecoff)).

(** [get_xid] *)
Definition get_xid (res : option PGresult) : M Z :=
  let valid := match res with
               | Some r => (ntuples r =? 1) && (nfields r =? 1)
               | None => false
               end in
  if negb valid then
    msg <- PQerrorMessage ;;
    elog_ERROR ("result of txid_current() is invalid: " +:+ msg)
  else
    match sscanf_u pf (from_option value00 EmptyString res) with
    | Some xid => ret xid
    | None =>
        msg <- PQerrorMessage ;;
        elog_ERROR ("result of txid_current() is invalid: " +:+ msg)
    end.

(** [confirm_block_size] *)
Definition confirm_block_size (name : string) (blcksz : Z) : M unit :=
  res <- execute "SELECT current_setting($1)" [name] ;;
  let shape_ok := match res with
                  | Some r => (ntuples r =? 1) && (nfields r =? 1)
                  | None => false
                  end in
  if negb shape_ok then
    msg <- PQerrorMessage ;;
    elog_ERROR ("cannot get " +:+ name +:+ ": " +:+ msg)
  else
    let '(n, endp) := strtol pf (from_option value00 EmptyString res) in
    let block_size := wrap_i32 n in
    if negb (String.eqb endp EmptyString) || negb (block_size =? blcksz) then
      elog_ERROR (name +:+ "(" +:+ fmt_d block_size +:+
                  ") is not compatible(" +:+ fmt_d blcksz +:+ " expected)")
    else ret tt.

(** [check_server_version] *)
Definition check_server_version : M unit :=
  call F_check_server_version (
    sv <- get server_version ;;
    if 0 <? sv then ret tt
    else
      c <- get connected ;;
      let my_conn := negb c in
      when my_conn reconnect;;
      sys X_PQserverVersion;;
      v <- answer w_server_version ;;
      modify (λ s, with_server_version s v);;
      (if negb (v =? PG_VERSION_NUM pf) then
         elog_ERROR ("server version is " +:+ fmt_d (v `quot` 10000) +:+ "."
                     +:+ fmt_d ((v `quot` 100) `rem` 100) +:+ "."
                     +:+ fmt_d (v `rem` 100) +:+ ", must be "
                     +:+ PG_MAJORVERSION pf +:+ " or higher.")
       else ret tt);;
      confirm_block_size "block_size" (BLCKSZ pf);;
      confirm_block_size "wal_block_size" (XLOG_BLCKSZ pf);;
      when my_conn disconnect).

(** [pg_start_backup]; [backup] is [&current] or [NULL]. *)
Definition pg_start_backup (label : string) (smooth : bool)
  (backup : bool) : M unit :=
  call F_pg_start_backup (
    reconnect;;
    res <- execute start_backup_sql
            [label; if smooth then "false" else "true"] ;;
    (if backup then
       lsn <- get_lsn res ;; set_current (upd_start_lsn lsn)
     else ret tt);;
    disconnect).

(** The loop at the end of [wait_for_archive].  [n] bounds the number of
    polls the model follows; twelve are never exhausted. *)
Fixpoint wait_for_archive_loop (n : nat) (ready_path : string)
  (try_count : Z) : M Z :=
  match n with
  | O => hang
  | S n' =>
      present <- fileExistsM ready_path ;;
      if present then
        sys (X_sleep 1);;
        intr <- read_interrupted ;;
        if intr then
          elog_ERROR "interrupted during waiting for WAL archiving"
        else
          let try_count := try_count + 1 in
          if try_count >? TIMEOUT_ARCHIVE then
            elog_ERROR ("switched WAL could not be archived in " +:+
                        fmt_d TIMEOUT_ARCHIVE +:+ " seconds")
          else wait_for_archive_loop n' ready_path try_count
      else ret try_count
  end.

(** [wait_for_archive], first part: the dialogue with the server, up to
    [disconnect()].  Returns [ready_path]. *)
Definition wait_for_archive_request (backup : bool) (sql : string)
  : M string :=
  reconnect;;
  execute "SET client_min_messages = warning;" [];;
  res <- execute sql [] ;;
  lsn <- get_lsn res ;;
  tl <- get_current_timeline ;;
  when backup (set_current (upd_tli tl);; set_current (upd_stop_lsn lsn));;
  let targetSegNo := XLByteToSeg pf lsn in
  let file_name := XLogFileName pf tl targetSegNo in
  d <- get_pgdata ;;
  let ready_path :=
    d +:+ "/pg_xlog/archive_status/" +:+ file_name +:+ ".ready" in
  res <- execute (TXID_CURRENT_SQL pf) [] ;;
  (if backup then
     xid <- get_xid res ;;
     set_current (upd_recovery_xid xid);;
     t <- time ;;
     set_current (upd_recovery_time t)
   else ret tt);;
  disconnect;;
  ret ready_path.

(** [wait_for_archive]; [backup] is [&current] or [NULL]. *)
Definition wait_for_archive (backup : bool) (sql : string) : M unit :=
  call (F_wait_for_archive sql) (
    ready_path <- wait_for_archive_request backup sql ;;
    (* wait until switched WAL is archived *)
    wait_for_archive_loop 12 ready_path 0;;
    ret tt).

(** [pg_stop_backup] *)
Definition pg_stop_backup (backup : bool) : M unit :=
  call (F_pg_stop_backup backup)
    (wait_for_archive backup stop_backup_sql).

(** [pg_is_standby] *)
Definition pg_is_standby : M bool :=
  d <- get_pgdata ;;
  fileExistsM (d +:+ "/recovery.conf").

End Engine.

(** ** Lists of files *)

(** Modelled from the spec: [pgFileComparePath] is defined in [dir.c], which
    is not among the sources; [backup_files] uses it to "sort pathname
    ascending", the paths being compared as [strcmp] does. *)
Definition pgFileComparePath (f1 f2 : pgFile) : comparison :=
  String.compare (path f1) (path f2).

(** Modelled from the spec: [pgFileComparePathDesc] of [dir.c], the same
    comparison with its arguments exchanged. *)
Definition pgFileComparePathDesc (f1 f2 : pgFile) : comparison :=
  pgFileComparePath f2 f1.

(** [parray_qsort]: the array ordered by the comparison function. *)
Definition parray_qsort (cmp : pgFile → pgFile → comparison)
  (files : list pgFile) : list pgFile :=
  merge_sort (λ a b, cmp a b ≠ Gt) files.

(** The loop of [bsearch(3)] on the interval [l, u); [n] bounds the number
    of halvings, the length of the array is enough. *)
Fixpoint bsearch_go {A} (cmp : A → A → comparison) (key : A)
  (base : list A) (n : nat) (l u : nat) : option A :=
  match n with
  | O => None
  | S n' =>
      if decide (l < u)%nat then
        let idx := ((l + u) `div` 2)%nat in
        match base !! idx with
        | None => None
        | Some p =>
            match cmp key p with
            | Lt => bsearch_go cmp key base n' l idx
            | Gt => bsearch_go cmp key base n' (S idx) u
            | Eq => Some p
            end
        end
      else None
  end.

(** [parray_bsearch] *)
Definition parray_bsearch {A} (array : list A) (key : A)
  (cmp : A → A → comparison) : option A :=
  bsearch_go cmp key array (length array) 0%nat (length array).

(** [s + n] on a C string. *)
Fixpoint str_drop (n : nat) (s : string) : string :=
  match n, s with
  | O, _ => s
  | S n', String _ s' => str_drop n' s'
  | S _, EmptyString => EmptyString
  end.

(** [isdigit(s[0])] *)
Definition starts_with_digit (s : string) : bool :=
  match s with
  | String c _ =>
      let n := Ascii.nat_of_ascii c in
      (48 <=? n)%nat && (n <=? 57)%nat
  | EmptyString => false
  end.

(** Modelled from the spec: the names of the persisted layout, defined in
    [pg_arman.h], which is not among the sources. *)
Definition MKDIRS_SH_FILE : string := "mkdirs.sh".
Definition DATABASE_FILE_LIST : string := "file_database.txt".
Definition DATABASE_DIR : string := "database".

(** Modelled from the spec: [catalog_get_last_data_backup] is defined in
    [catalog.c], which is not among the sources.  The spec: it "returns the
    most recent DONE FULL record on the given timeline, or nothing", the
    list being sorted by start time descending, so the most recent one is
    the first that qualifies. *)
Definition is_valid_parent (tl : Z) (b : pgBackup) : bool :=
  bool_decide (status b = BACKUP_STATUS_DONE) &&
  bool_decide (backup_mode b = BACKUP_MODE_FULL) &&
  (tli b =? tl).

Definition catalog_get_last_data_backup (backup_list : list pgBackup)
  (tl : Z) : option pgBackup :=
  snd <$> list_find (λ b, is_valid_parent tl b = true) backup_list.

(** The messages of the fatal errors the properties name. *)
Definition clock_rewound : string :=
  "current time may be rewound. Please retry with full backup mode.".
Definition backup_interrupted : string := "interrupted during backup".
Definition standby_refused : string := "Backup cannot run on a standby.".
Definition diff_parent_missing : string :=
  "Valid full backup not found for differential backup. " +:+
  "Either create a full backup or validate existing one.".
Definition no_backup_label : string :=
  "backup_label does not exist in PGDATA.".
Definition cannot_process : string := "cannot process any more".

(** ** The copier and the orchestrator *)

Section Copier.
Variable pf : Platform.
Variable w : World.
(** How many rounds of the same-second wait the model follows before it
    gives the run up as hanging. *)
Variable patience : nat.

(** The loop of [backup_files] that waits for the second after [mtime]. *)
Fixpoint wait_next_second (n : nat) (file_mtime : Z) (tv : timeval)
  : M timeval :=
  if tv_sec tv <=? file_mtime then
    match n with
    | O => hang
    | S n' =>
        sys (X_usleep (1000000 - tv_usec tv));;
        tv' <- gettimeofday w ;;
        wait_next_second n' file_mtime tv'
    end
  else ret tv.

(** [backup_data_file] and [copy_file] live in [data.c]: they either end
    the run, or return false, or return true having set the sizes. *)
Definition copy_routine (c : extcall) (file : pgFile) : M (option pgFile) :=
  ext w c;;
  r <- answer w w_copy ;;
  ret (match r with
       | Some (rd, wr) => Some (set_copied file rd wr)
       | None => None
       end).

(** The entry of the previous file list that [backup_files] compares
    with. *)
Definition find_prev_file (from_root : string) (prev_files : list pgFile)
  (prefix : option string) (file : pgFile) : option pgFile :=
  match prefix with
  | Some pre =>
      let skip := S (String.length from_root) in
      let curr_path :=
        join_path_components pf pre (str_drop skip (path file)) in
      snd <$> list_find (λ p, curr_path = str_drop skip (path p)) prev_files
  | None => parray_bsearch prev_files file pgFileComparePath
  end.

(** One round of the loop of [backup_files]: the file at index [i], with
    the current value of [tv].  Returns the new [tv] and the entry as the
    round leaves it. *)
Definition backup_files_step (from_root to_root : string)
  (prev_files : option (list pgFile)) (lsn : option Z)
  (prefix : option string) (tv : timeval) (file : pgFile)
  : M (timeval * pgFile) :=
  if tv_sec tv <? mtime file then elog_ERROR clock_rewound
  else
    intr <- read_interrupted w ;;
    if intr then elog_ERROR backup_interrupted
    else
      o <- stat w (path file) ;;
      match o with
      | StatErr e =>
          if e =? ENOENT then ret (tv, set_write_size file BYTES_INVALID)
          else
            elog_ERROR ("can't stat backup mode. " +:+ dquote +:+ path file
                        +:+ dquote +:+ ": " +:+ strerror pf e)
      | StatOk buf =>
          if S_ISDIR (st_mode buf) then
            let dirpath :=
              join_path_components pf to_root
                (JoinPathEnd pf (path file) from_root) in
            when (negb (check w)) (ext w (X_dir_create_dir dirpath));;
            ret (tv, file)
          else if S_ISREG (st_mode buf) then
            let prev_file :=
              match prev_files with
              | Some pl => find_prev_file from_root pl prefix file
              | None => None
              end in
            let unchanged :=
              match prev_file with
              | Some p => mtime p =? mtime file
              | None => false
              end in
            if unchanged then ret (tv, set_write_size file BYTES_INVALID)
            else
              tv <- (if tv_sec tv =? mtime file then
                       tv1 <- gettimeofday w ;;
                       wait_next_second patience (mtime file) tv1
                     else ret tv) ;;
              r <- (if is_datafile file then
                      copy_routine
                        (X_backup_data_file (path file) lsn (tv_sec tv)) file
                    else
                      copy_routine (X_copy_file (path file) (tv_sec tv))
                        file) ;;
              match r with
              | None => ret (tv, set_write_size file BYTES_INVALID)
              | Some file' => ret (tv, file')
              end
          else ret (tv, file)
      end.

(** The loop of [backup_files] over the sorted array.  Returns the final
    value of [tv] and the entries as the rounds leave them. *)
Fixpoint backup_files_loop (from_root to_root : string)
  (prev_files : option (list pgFile)) (lsn : option Z)
  (prefix : option string) (tv : timeval) (files : list pgFile)
  : M (timeval * list pgFile) :=
  match files with
  | [] => ret (tv, [])
  | file :: rest =>
      r <- backup_files_step from_root to_root prev_files lsn prefix
             tv file ;;
      r' <- backup_files_loop from_root to_root prev_files lsn prefix
              (fst r) rest ;;
      ret (fst r', snd r :: snd r')
  end.

(** [backup_files]: returns the array as the loop leaves it. *)
Definition backup_files (from_root to_root : string) (files : list pgFile)
  (prev_files : option (list pgFile)) (lsn : option Z)
  (prefix : option string) : M (list pgFile) :=
  call F_backup_files (
    let files := parray_qsort pgFileComparePath files in
    tv <- gettimeofday w ;;
    r <- backup_files_loop from_root to_root prev_files lsn prefix tv files ;;
    ret (snd r)).

(** The tagging loop of [add_files], for one entry. *)
Definition tag_datafile (root : string) (is_pgdata : bool) (file : pgFile)
  : pgFile :=
  if negb (S_ISREG (mode file)) then file
  else
    let relative := str_drop (S (String.length root)) (path file) in
    if is_pgdata &&
       negb (path_is_prefix_of_path pf "base" relative) &&
       negb (path_is_prefix_of_path pf "global" relative) &&
       negb (path_is_prefix_of_path pf "pg_tblspc" relative)
    then file
    else
      let fname := match last_dir_separator pf relative with
                   | None => relative
                   | Some sep => str_drop 1 sep
                   end in
      if negb (starts_with_digit fname) then file
      else set_is_datafile file true.

(** [add_files] *)
Definition add_files (files : list pgFile) (root : string)
  (add_root is_pgdata : bool) : M (list pgFile) :=
  call F_add_files (
    ext w (X_dir_list_file root);;
    list_file <- answer w w_dir_list ;;
    ret (files ++ map (tag_datafile root is_pgdata) list_file)).

(** [create_file_list] *)
Definition create_file_list (files : list pgFile) (root subdir : string)
  (prefix : option string) (is_append : bool) : M unit :=
  call F_create_file_list (
    if negb (check w) then
      cur <- get current ;;
      let path' := pgBackupGetPath pf cur subdir in
      sys (X_fopen path');;
      opened <- answer w w_fopen ;;
      e <- answer w w_errno ;;
      if negb opened then
        elog_ERROR ("can't open file list " +:+ dquote +:+ path' +:+ dquote
                    +:+ ": " +:+ strerror pf e)
      else
        ext w X_dir_print_file_list;;
        sys X_fclose
    else ret tt).

(** Modelled from the spec: [extractPageMap] is defined in [xlog.c], which
    is not among the sources.  The spec: the WAL reader goes through the
    records between the two positions on the timeline and calls
    [process_block_change] once for each block they dirty; a missing
    segment or a bad record ends the run. *)
Definition extractPageMap (archivedir : string) (startpoint tl endpoint : Z)
  : M unit :=
  ext w (X_extractPageMap startpoint tl endpoint);;
  changes <- answer w w_wal ;;
  d <- get_pgdata w ;;
  l <- get backup_files_list ;;
  match l, changes with
  | _, [] => ret tt
  | None, _ :: _ => crash
  | Some files, _ :: _ =>
      modify (λ s, with_files s (Some (
        fold_left (λ acc c, process_block_change pf d c.1.1 c.1.2 c.2 acc)
                  changes files)))
  end.

Definition wrap_i64 (z : Z) : Z := (z + 2 ^ 63) mod 2 ^ 64 - 2 ^ 63.

(** The size summary at the end of [do_backup_database]. *)
Definition sum_data_bytes (m : BackupMode) (files : list pgFile) (acc : Z)
  : Z :=
  fold_left (λ acc file,
    if negb (S_ISREG (mode file)) then acc
    else match m with
         | BACKUP_MODE_DIFF_PAGE => wrap_i64 (acc + read_size file)
         | BACKUP_MODE_FULL => wrap_i64 (acc + size file)
         | BACKUP_MODE_INVALID => acc
         end) files acc.

(** [do_backup_database] *)
Definition do_backup_database (backup_list : list pgBackup)
  (smooth_checkpoint : bool) : M (list pgFile) :=
  call F_do_backup_database (
    standby <- pg_is_standby w ;;
    (if standby then elog_ERROR standby_refused else ret tt);;
    set_current (upd_data_bytes 0);;
    ext w X_sanityChecks;;
    tl <- get_current_timeline w ;;
    set_current (upd_tli tl);;
    m <- get (λ s, backup_mode (current s)) ;;
    let diff := bool_decide (m = BACKUP_MODE_DIFF_PAGE) in
    (if diff then
       cur <- get current ;;
       match catalog_get_last_data_backup backup_list (tli cur) with
       | None => elog_ERROR diff_parent_missing
       | Some _ => ret tt
       end
     else ret tt);;
    cur <- get current ;;
    let label := time2iso pf (start_time cur) +:+ " with pg_arman" in
    pg_start_backup pf w label smooth_checkpoint true;;
    d <- get_pgdata w ;;
    has_backup_label <- fileExistsM w (d +:+ "/backup_label") ;;
    (if negb has_backup_label then
       pg_stop_backup pf w false;;
       elog_ERROR no_backup_label
     else ret tt);;
    (* the directories, for mkdirs.sh *)
    ext w (X_dir_list_file d);;
    dirs <- answer w w_dir_list ;;
    modify (λ s, with_files s (Some dirs));;
    (if negb (check w) then
       cur <- get current ;;
       let path' := pgBackupGetPath pf cur MKDIRS_SH_FILE in
       sys (X_fopen path');;
       opened <- answer w w_fopen ;;
       e <- answer w w_errno ;;
       if negb opened then
         elog_ERROR ("can't open make directory script " +:+ dquote +:+ path'
                     +:+ dquote +:+ ": " +:+ strerror pf e)
       else
         ext w X_dir_print_mkdirs_sh;;
         sys X_fclose;;
         sys (X_chmod path');;
         r <- answer w w_chmod ;;
         e <- answer w w_errno ;;
         if r =? -1 then
           elog_ERROR ("can't change mode of " +:+ dquote +:+ path' +:+ dquote
                       +:+ ": " +:+ strerror pf e)
         else ret tt
     else ret tt);;
    modify (λ s, with_files s None);;
    (* the file list of the parent *)
    prev <- (if diff then
               cur <- get current ;;
               match catalog_get_last_data_backup backup_list (tli cur) with
               | None => crash
               | Some prev_backup =>
                   ext w (X_dir_read_file_list
                            (pgBackupGetPath pf prev_backup
                               DATABASE_FILE_LIST));;
                   prev_files <- answer w w_file_list ;;
                   ret (Some (prev_backup, prev_files))
               end
             else ret None) ;;
    let prev_files := snd <$> prev in
    let lsn := (λ p, start_lsn (fst p)) <$> prev in
    modify (λ s, with_files s (Some []));;
    files <- add_files [] d false true ;;
    modify (λ s, with_files s (Some files));;
    cur <- get current ;;
    let path' := pgBackupGetPath pf cur DATABASE_DIR in
    (if diff then
       wait_for_archive pf w true switch_xlog_sql;;
       modify (λ s, with_files s
                 (parray_qsort pgFileComparePathDesc <$> backup_files_list s));;
       cur <- get current ;;
       match prev with
       | None => crash
       | Some p =>
           extractPageMap (arclog_path w) (start_lsn (fst p)) (tli cur)
             (start_lsn cur)
       end
     else ret tt);;
    files <- get (λ s, default [] (backup_files_list s)) ;;
    files <- backup_files d path' files prev_files lsn None ;;
    modify (λ s, with_files s (Some files));;
    pg_stop_backup pf w true;;
    create_file_list files d DATABASE_FILE_LIST None false;;
    set_current (λ c, upd_data_bytes
                   (sum_data_bytes (backup_mode c) files (data_bytes c)) c);;
    ret files).

(** [backup_cleanup] *)
Definition backup_cleanup (fatal : bool) : M unit :=
  call F_backup_cleanup (
    active <- get in_backup ;;
    if negb active then ret tt
    else
      d <- get_pgdata w ;;
      label <- fileExistsM w (d +:+ "/backup_label") ;;
      when label (pg_stop_backup pf w false);;
      cur <- get current ;;
      if bool_decide (status cur = BACKUP_STATUS_RUNNING)
         && (end_time cur =? 0) then
        t <- time w ;;
        set_current (upd_end_time t);;
        assign_status BACKUP_STATUS_ERROR;;
        cur <- get current ;;
        ext w (X_pgBackupWriteIni cur)
      else ret tt).

(** [pgBackupWriteIni(&current)] *)
Definition pgBackupWriteIni_current : M unit :=
  cur <- get current ;;
  ext w (X_pgBackupWriteIni cur).

(** [do_backup]; [bkupopt] is given by its three fields. *)
Definition do_backup (smooth_checkpoint : bool)
  (keep_data_generations keep_data_days : Z) : M Z :=
  (if bool_decide (pgdata w = None) then
     elog_ERROR "Required parameter not specified: PGDATA (-D, --pgdata)"
   else ret tt);;
  m <- get (λ s, backup_mode (current s)) ;;
  (if bool_decide (m = BACKUP_MODE_INVALID) then
     elog_ERROR
       "Required parameter not specified: BACKUP_MODE (-b, --backup-mode)"
   else ret tt);;
  check_server_version pf w;;
  modify (λ s, with_in_backup s true);;
  ext w X_catalog_lock;;
  r <- answer w w_lock ;;
  (if r =? -1 then elog_ERROR "cannot lock backup catalog"
   else if r =? 1 then
     elog_ERROR "another pg_arman is running, skipping this backup"
   else ret tt);;
  (* initialize backup result *)
  assign_status BACKUP_STATUS_RUNNING;;
  t <- time w ;;
  set_current (λ c,
    mkBackup (backup_mode c) (status c) 0 0 0
      t 0 BYTES_INVALID (BLCKSZ pf) (XLOG_BLCKSZ pf) 0 0);;
  (if negb (check w) then
     ext w X_pgBackupCreateDir;;
     r <- answer w w_create_dir ;;
     (if negb (r =? 0) then elog_ERROR "cannot create backup directory"
      else ret tt);;
     pgBackupWriteIni_current
   else ret tt);;
  ext w X_catalog_get_backup_list;;
  backup_list <- answer w w_backup_list ;;
  match backup_list with
  | None => elog_ERROR cannot_process
  | Some backup_list =>
      (* pgut_atexit_push(backup_cleanup, NULL) *)
      modify (λ s, with_atexit s (Cb_backup_cleanup :: atexit_stack s));;
      files_database <- do_backup_database backup_list smooth_checkpoint ;;
      (* pgut_atexit_pop(backup_cleanup, NULL) *)
      modify (λ s, with_atexit s (tail (atexit_stack s)));;
      t <- time w ;;
      set_current (upd_end_time t);;
      assign_status BACKUP_STATUS_DONE;;
      when (negb (check w)) pgBackupWriteIni_current;;
      ext w (X_pgBackupDelete keep_data_generations keep_data_days);;
      ext w X_catalog_unlock;;
      ret 0
  end.




End Copier.

(** ** Vocabulary of the properties *)

(** The state after [k] more interactions that left the events [evs]. *)
Definition advance (s : State) (evs : list event) (k : nat) : State :=
  mkState (current s) (in_backup s) (server_version s) (connected s)
          (backup_files_list s) (atexit_stack s) (now s + k)%nat
          (trace s ++ evs).

(** [wp m K s]: the outcome and the final state of [m] run from [s]
    satisfy [K]. *)
Definition wp {A} (m : M A) (K : result A → State → Prop) (s : State)
  : Prop :=
  K (fst (m s)) (snd (m s)).

(** Every event of [tr] that satisfies [b] has an earlier one that
    satisfies [a]. *)
Definition precedes (a b : event → bool) (tr : list event) : Prop :=
  ∀ (i : nat) (e : event), tr !! i = Some e → b e = true →
    ∃ (j : nat) (e' : event), (j < i)%nat ∧ tr !! j = Some e' ∧ a e' = true.

(** No event that satisfies [b] comes after one that satisfies [a]. *)
Definition never_after (a b : event → bool) (tr : list event) : Prop :=
  ∀ (i j : nat) (e e' : event),
    tr !! i = Some e → a e = true → tr !! j = Some e' → b e' = true →
    ¬ (i < j)%nat.

(** What [fileExists] answers for the marker at instant [t]. *)
Definition marker_present (w : World) (t : nat) (ready_path : string)
  : bool :=
  fileExists (w_stat w t ready_path) (w_errno w t) (w_stack w t).

(** [n] rounds of the archive wait: a look at the marker, then a sleep of
    one second. *)
Fixpoint polls (ready_path : string) (n : nat) : list event :=
  match n with
  | O => []
  | S n' => Ext (X_stat ready_path) :: Ext (X_sleep 1) :: polls ready_path n'
  end.

Definition archive_interrupted : string :=
  "interrupted during waiting for WAL archiving".
Definition archive_timeout : string :=
  "switched WAL could not be archived in 10 seconds".

(** The state in which the body of [f] starts when [f] is called in
    [s]. *)
Definition entered (f : fn) (s : State) : State :=
  with_trace s (trace s ++ [Enter f]).

(** The state [s] with the instant moved to [n] and the events [evs]
    added: what a routine leaves that touches no global. *)
Definition jump (s : State) (evs : list event) (n : nat) : State :=
  mkState (current s) (in_backup s) (server_version s) (connected s)
          (backup_files_list s) (atexit_stack s) n (trace s ++ evs).

(** The events of the copy loop of [backup_files] over [files] with lower
    bound [lsn]: looks at files and at the clock, sleeps, directories
    made, and copies, each of a file of the list, with the lower bound of
    the run and at a second after the modification time of the file. *)
Definition copy_event_ok (files : list pgFile) (lsn : option Z) (e : event)
  : Prop :=
  match e with
  | Ext (X_stat _) | Ext X_gettimeofday | Ext (X_usleep _)
  | Ext (X_dir_create_dir _) => True
  | Ext (X_backup_data_file p l sec) =>
      l = lsn ∧ ∃ f, f ∈ files ∧ path f = p ∧ mtime f < sec
  | Ext (X_copy_file p sec) => ∃ f, f ∈ files ∧ path f = p ∧ mtime f < sec
  | _ => False
  end.

(** The events of the wait for the next second. *)
Definition clock_wait_event (e : event) : Prop :=
  match e with
  | Ext X_gettimeofday | Ext (X_usleep _) => True
  | _ => False
  end.

(** A copy of a file. *)
Definition is_copy (e : event) : bool :=
  match e with
  | Ext (X_backup_data_file _ _ _) | Ext (X_copy_file _ _) => true
  | _ => false
  end.

(** *** The order of a database backup

    The phases of [do_backup_database] as a monitor of its events: a trace
    is accepted when every event is allowed in the phase it occurs in.
    [diff] says whether the run is a differential one, [lower] is the lower
    bound its page scan and its data-file copies must carry. *)

Inductive phase :=
| P_pre         (* before the call of pg_start_backup *)
| P_start       (* in pg_start_backup, query not yet sent *)
| P_start_sent  (* in pg_start_backup, query sent *)
| P_started     (* backup started; directories listed *)
| P_abort       (* no backup_label: pg_stop_backup(NULL), then the end *)
| P_adding      (* in add_files *)
| P_added       (* files listed and tagged *)
| P_switch      (* in wait_for_archive for the WAL switch *)
| P_switched    (* switched WAL archived *)
| P_mapped      (* page map built *)
| P_copying     (* in backup_files *)
| P_copied      (* all files copied *)
| P_stopping    (* in pg_stop_backup(&current) *)
| P_stopped     (* backup stopped *)
| P_listing     (* in create_file_list *)
| P_listed      (* file list written *)
| P_end.        (* do_backup_database has returned *)

(** Calls made while a statement is sent and its archiving awaited. *)
Definition wait_call (c : extcall) : bool :=
  match c with
  | X_reconnect | X_disconnect | X_execute _ _ | X_get_current_timeline
  | X_time | X_stat _ | X_sleep _ => true
  | _ => false
  end.

Definition delta (diff : bool) (lower : option Z) (q : phase) (e : event)
  : option phase :=
  match q with
  | P_pre =>
      match e with
      | Enter F_do_backup_database => Some P_pre
      | Ext (X_stat _) | Ext X_sanityChecks | Ext X_get_current_timeline =>
          Some P_pre
      | Enter F_pg_start_backup => Some P_start
      | _ => None
      end
  | P_start =>
      match e with
      | Ext X_reconnect => Some P_start
      | Ext (X_execute sql _) =>
          if String.eqb sql start_backup_sql then Some P_start_sent else None
      | _ => None
      end
  | P_start_sent =>
      match e with
      | Ext X_disconnect => Some P_start_sent
      | Leave F_pg_start_backup => Some P_started
      | _ => None
      end
  | P_started =>
      match e with
      | Ext (X_stat _) | Ext (X_dir_list_file _) | Ext (X_fopen _)
      | Ext X_dir_print_mkdirs_sh | Ext X_fclose | Ext (X_chmod _)
      | Ext (X_dir_read_file_list _) => Some P_started
      | Enter (F_pg_stop_backup false) => Some P_abort
      | Enter F_add_files => Some P_adding
      | _ => None
      end
  | P_abort =>
      match e with
      | Enter (F_wait_for_archive sql) | Leave (F_wait_for_archive sql) =>
          if String.eqb sql stop_backup_sql then Some P_abort else None
      | Leave (F_pg_stop_backup false) => Some P_abort
      | Ext c => if wait_call c then Some P_abort else None
      | _ => None
      end
  | P_adding =>
      match e with
      | Ext (X_dir_list_file _) => Some P_adding
      | Leave F_add_files => Some P_added
      | _ => None
      end
  | P_added =>
      match e with
      | Enter (F_wait_for_archive sql) =>
          if diff && String.eqb sql switch_xlog_sql then Some P_switch
          else None
      | Enter F_backup_files => if diff then None else Some P_copying
      | _ => None
      end
  | P_switch =>
      match e with
      | Ext c => if wait_call c then Some P_switch else None
      | Leave (F_wait_for_archive sql) =>
          if String.eqb sql switch_xlog_sql then Some P_switched else None
      | _ => None
      end
  | P_switched =>
      match e with
      | Ext (X_extractPageMap startpoint _ _) =>
          if bool_decide (Some startpoint = lower) then Some P_mapped
          else None
      | _ => None
      end
  | P_mapped =>
      match e with
      | Enter F_backup_files => Some P_copying
      | _ => None
      end
  | P_copying =>
      match e with
      | Ext (X_stat _) | Ext X_gettimeofday | Ext (X_usleep _)
      | Ext (X_dir_create_dir _) | Ext (X_copy_file _ _) => Some P_copying
      | Ext (X_backup_data_file _ lsn _) =>
          if bool_decide (lsn = lower) then Some P_copying else None
      | Leave F_backup_files => Some P_copied
      | _ => None
      end
  | P_copied =>
      match e with
      | Enter (F_pg_stop_backup true) => Some P_stopping
      | _ => None
      end
  | P_stopping =>
      match e with
      | Enter (F_wait_for_archive sql) | Leave (F_wait_for_archive sql) =>
          if String.eqb sql stop_backup_sql then Some P_stopping else None
      | Ext c => if wait_call c then Some P_stopping else None
      | Leave (F_pg_stop_backup true) => Some P_stopped
      | _ => None
      end
  | P_stopped =>
      match e with
      | Enter F_create_file_list => Some P_listing
      | _ => None
      end
  | P_listing =>
      match e with
      | Ext (X_fopen _) | Ext X_dir_print_file_list | Ext X_fclose =>
          Some P_listing
      | Leave F_create_file_list => Some P_listed
      | _ => None
      end
  | P_listed =>
      match e with
      | Leave F_do_backup_database => Some P_end
      | _ => None
      end
  | P_end => None
  end.

(** The phase a trace leads to, if it is accepted. *)
Fixpoint run (step : phase → event → option phase) (q : phase)
  (tr : list event) : option phase :=
  match tr with
  | [] => Some q
  | e :: tr' =>
      match step q e with
      | Some q' => run step q' tr'
      | None => None
      end
  end.

(** The events the ordering claims are about. *)
Definition is_start_call (e : event) : bool :=
  match e with
  | Ext (X_execute sql _) => String.eqb sql start_backup_sql
  | _ => false
  end.

Definition is_dir_scan (e : event) : bool :=
  match e with
  | Ext (X_dir_list_file _) => true
  | _ => false
  end.

Definition is_stop_call (with_backup : bool) (e : event) : bool :=
  match e with
  | Enter (F_pg_stop_backup b) => Bool.eqb b with_backup
  | _ => false
  end.

Definition is_stop_return (e : event) : bool :=
  match e with
  | Leave (F_pg_stop_backup true) => true
  | _ => false
  end.

Definition is_copy_done (e : event) : bool :=
  match e with
  | Leave F_backup_files => true
  | _ => false
  end.

Definition is_copy_start (e : event) : bool :=
  match e with
  | Enter F_backup_files => true
  | _ => false
  end.

(** A file copied or a directory made in the backup. *)
Definition is_copy_work (e : event) : bool :=
  match e with
  | Ext (X_backup_data_file _ _ _) | Ext (X_copy_file _ _)
  | Ext (X_dir_create_dir _) => true
  | _ => false
  end.

Definition is_manifest_write (e : event) : bool :=
  match e with
  | Enter F_create_file_list | Ext X_dir_print_file_list => true
  | _ => false
  end.

Definition is_switch_call (e : event) : bool :=
  match e with
  | Enter (F_wait_for_archive sql) => String.eqb sql switch_xlog_sql
  | _ => false
  end.

Definition is_switch_archived (e : event) : bool :=
  match e with
  | Leave (F_wait_for_archive sql) => String.eqb sql switch_xlog_sql
  | _ => false
  end.

Definition is_wal_scan (e : event) : bool :=
  match e with
  | Ext (X_extractPageMap _ _ _) => true
  | _ => false
  end.

Definition is_files_tagged (e : event) : bool :=
  match e with
  | Leave F_add_files => true
  | _ => false
  end.

Definition is_add_files (e : event) : bool :=
  match e with
  | Enter F_add_files => true
  | _ => false
  end.

(** The events of the polling loop of [wait_for_archive]. *)
Definition poll_event (e : event) : Prop :=
  match e with
  | Ext (X_stat _) | Ext (X_sleep _) => True
  | _ => False
  end.

(** The phases in which the archive is polled. *)
Definition poll_phase (q : phase) : bool :=
  match q with
  | P_abort | P_switch | P_stopping => true
  | _ => false
  end.

(** The lower bound of the page scan of a run started in [s]: in a
    differential run the start position of the parent found for the
    timeline the run reads, none in a full run. *)
Definition page_scan_lower (w : World) (backup_list : list pgBackup)
  (s : State) : option Z :=
  if bool_decide (backup_mode (current s) = BACKUP_MODE_DIFF_PAGE) then
    start_lsn <$>
      catalog_get_last_data_backup backup_list (w_timeline w (now s + 2))
  else None.

(** What [do_backup_database] leaves untouched in [current] and in the
    globals of [do_backup]. *)
Definition same_record (s s' : State) : Prop :=
  status (current s') = status (current s) ∧
  end_time (current s') = end_time (current s) ∧
  backup_mode (current s') = backup_mode (current s) ∧
  in_backup s' = in_backup s ∧
  atexit_stack s' = atexit_stack s.

(** Sets of phases: the backup has been started; the files have been
    listed and tagged; the switched WAL has been archived; the page map has
    been built; the copy loop is over; the stop has been asked for; the
    stop is done; the run has been given up for want of a backup label. *)
Definition ph_started (q : phase) : bool :=
  match q with
  | P_pre | P_start => false
  | _ => true
  end.

Definition ph_tagged (q : phase) : bool :=
  match q with
  | P_pre | P_start | P_start_sent | P_started | P_abort | P_adding => false
  | _ => true
  end.

Definition ph_switched (q : phase) : bool :=
  match q with
  | P_switched | P_mapped => true
  | _ => false
  end.

Definition ph_mapped (q : phase) : bool :=
  match q with
  | P_pre | P_start | P_start_sent | P_started | P_abort | P_adding
  | P_added | P_switch | P_switched => false
  | _ => true
  end.

Definition ph_copied (q : phase) : bool :=
  match q with
  | P_copied | P_stopping | P_stopped | P_listing | P_listed | P_end => true
  | _ => false
  end.

Definition ph_stopping (q : phase) : bool :=
  match q with
  | P_stopping | P_stopped | P_listing | P_listed | P_end => true
  | _ => false
  end.

Definition ph_stopped (q : phase) : bool :=
  match q with
  | P_stopped | P_listing | P_listed | P_end => true
  | _ => false
  end.

Definition ph_abort (q : phase) : bool :=
  match q with
  | P_abort => true
  | _ => false
  end.

(** What a run that goes on after the start does: scanning, switching,
    reading WAL, copying, writing the file list. *)
Definition is_later_work (e : event) : bool :=
  is_dir_scan e || is_add_files e || is_switch_call e || is_wal_scan e ||
  is_copy_start e || is_copy_work e || is_manifest_write e.


(** The lower bound an event of the page scan or of a data-file copy
    carries is [lower]. *)
Definition lower_bound_is (lower : option Z) (e : event) : Prop :=
  match e with
  | Ext (X_extractPageMap startpoint _ _) => Some startpoint = lower
  | Ext (X_backup_data_file _ lsn _) => lsn = lower
  | _ => True
  end.

(** A routine only adds to the history. *)
Definition grows {A} (m : M A) : Prop :=
  ∀ s, ∃ tr, trace (snd (m s)) = trace s ++ tr.

(** The text the claim about the missing parent quotes. *)
Definition diff_parent_quote : string :=
  "Valid full backup not found for differential backup".

Definition contains (sub s : string) : bool :=
  match String.index 0 sub s with
  | Some _ => true
  | None => false
  end.

(** The events of [do_backup_database] up to the check for the parent. *)
Definition parent_check_events (d : string) : list event :=
  [Enter F_do_backup_database; Ext (X_stat (d +:+ "/recovery.conf"));
   Ext X_sanityChecks; Ext X_get_current_timeline].

(** *** The life of the backup record *)

(** The process when [do_backup] is called: the statics of [backup.c] at
    their initial values, no connection, an empty exit stack; [current] as
    the command line has filled it. *)
Definition start_state (cur : pgBackup) : State :=
  mkState cur false 0 false None [] 0 [].

(** What a run leaves on the record: a status assigned to [current], a
    manifest written with a status, [backup_cleanup] run to its end. *)
Inductive note :=
| N_status (st : BackupStatus)
| N_written (st : BackupStatus)
| N_cleanup_done.

Definition note_of (e : event) : option note :=
  match e with
  | Assign_status st => Some (N_status st)
  | Ext (X_pgBackupWriteIni b) => Some (N_written (status b))
  | Leave F_backup_cleanup => Some N_cleanup_done
  | _ => None
  end.

Definition notes (tr : list event) : list note := omap note_of tr.




Definition returned {A} (r : result A) : bool :=
  match r with
  | Ok _ => true
  | _ => false
  end.


(** [backup_cleanup] has something to do in [s]. *)
Definition cleanup_armed (s : State) : Prop :=
  in_backup s = true ∧
  status (current s) = BACKUP_STATUS_RUNNING ∧
  end_time (current s) = 0.

(** [precedes], as a check that computes: [seen] tells whether an event
    that satisfies [a] has gone by. *)
Fixpoint precedesb (a b : event → bool) (seen : bool) (tr : list event)
  : bool :=
  match tr with
  | [] => true
  | e :: tr' =>
      (if b e then seen else true) && precedesb a b (seen || a e) tr'
  end.

(** ** A sample installation

    A platform and worlds to run the model on: PostgreSQL 10 with its
    default sizes, a data directory [/pgdata], a server that answers every
    statement, a clock that advances by a second at every look. *)
Module Sample.

Definition hex_char (n : Z) : Ascii.ascii :=
  Ascii.ascii_of_nat (Z.to_nat (if n <? 10 then 48 + n else 55 + n)).

Fixpoint hex_digits (width : nat) (z : Z) (acc : string) : string :=
  match width with
  | O => acc
  | S width' =>
      hex_digits width' (z / 16) (String (hex_char (z mod 16)) acc)
  end.

(** [printf("%08X")] *)
Definition hex8 (z : Z) : string := hex_digits 8 z EmptyString.

Definition hex_value (c : Ascii.ascii) : option Z :=
  let n := Z.of_nat (Ascii.nat_of_ascii c) in
  if (48 <=? n) && (n <=? 57) then Some (n - 48)
  else if (65 <=? n) && (n <=? 70) then Some (n - 55)
  else if (97 <=? n) && (n <=? 102) then Some (n - 87)
  else None.

Fixpoint scan_hex (s : string) (acc : Z) : Z * string :=
  match s with
  | String c s' =>
      match hex_value c with
      | Some v => scan_hex s' (16 * acc + v)
      | None => (acc, s)
      end
  | EmptyString => (acc, s)
  end.

Fixpoint scan_dec (s : string) (acc : Z) : Z * string :=
  match s with
  | String c s' =>
      let n := Z.of_nat (Ascii.nat_of_ascii c) in
      if (48 <=? n) && (n <=? 57) then scan_dec s' (10 * acc + (n - 48))
      else (acc, s)
  | EmptyString => (acc, s)
  end.

Fixpoint after_last_slash (s : string) (found : option string)
  : option string :=
  match s with
  | String c s' =>
      if Ascii.eqb c (Ascii.ascii_of_nat 47) then after_last_slash s' (Some s)
      else after_last_slash s' found
  | EmptyString => found
  end.

Definition platform : Platform := {|
  RELSEG_SIZE := 131072;
  BLCKSZ := 8192;
  XLOG_BLCKSZ := 8192;
  PG_VERSION_NUM := 100000;
  PG_MAJORVERSION := "10";
  relpathperm := λ rnode forknum,
    "base/" +:+ fmt_u (dbNode rnode) +:+ "/" +:+ fmt_u (relNode rnode) +:+
    match forknum with
    | MAIN_FORKNUM => EmptyString
    | FSM_FORKNUM => "_fsm"
    | VISIBILITYMAP_FORKNUM => "_vm"
    | INIT_FORKNUM => "_init"
    end;
  join_path_components := λ head tail, head +:+ "/" +:+ tail;
  path_is_prefix_of_path := λ p1 p2,
    String.eqb p1 p2 || String.prefix (p1 +:+ "/") p2;
  XLogDataFromLSN := λ data,
    let '(hi, rest) := scan_hex data 0 in
    (hi, fst (scan_hex (str_drop 1 rest) 0));
  XLogFileName := λ tl segno,
    hex8 tl +:+ hex8 (segno / 256) +:+ hex8 (segno mod 256);
  XLByteToSeg := λ lsn, lsn / 16777216;
  time2iso := λ t, fmt_d t;
  strtol := λ s, scan_dec s 0;
  sscanf_u := λ s,
    let '(v, rest) := scan_dec s 0 in
    if String.eqb rest s then None else Some v;
  strerror := λ e, "errno " +:+ fmt_d e;
  last_dir_separator := λ s, after_last_slash s None;
  TXID_CURRENT_SQL := "SELECT txid_current();";
  JoinPathEnd := λ str prefix, str_drop (S (String.length prefix)) str;
  pgBackupGetPath := λ b subdir,
    "/backup/" +:+ fmt_d (start_time b) +:+ "/" +:+ subdir
|}.

Definition regular : stat_outcome := StatOk (mkStat 33188).  (* 0100644 *)
Definition missing : stat_outcome := StatErr ENOENT.

(** The file system: relation files under [base], a backup label if
    [label] says so, a [.ready] marker that is there up to instant
    [ready_until], nothing else. *)
Definition files_at (label : bool) (ready_until : nat) (n : nat)
  (p : string) : stat_outcome :=
  if String.eqb p "/pgdata/backup_label" then
    (if label then regular else missing)
  else if String.prefix "/pgdata/base/" p then regular
  else if String.prefix "/pgdata/pg_xlog/archive_status/" p then
    (if (n <? ready_until)%nat then regular else missing)
  else missing.

Definition rel : RelFileNode := mkRel 1663 16384 16385.

Definition file (p : string) (m : Z) : pgFile :=
  mkFile p 33188 m 8192 0 0 false ∅.

Definition parent : pgBackup :=
  mkBackup BACKUP_MODE_FULL BACKUP_STATUS_DONE 1 16777256 16777500
           900 950 8192 8192 8192 700 950.

(** The record as the command line leaves it. *)
Definition record (m : BackupMode) : pgBackup :=
  mkBackup m BACKUP_STATUS_ERROR 0 0 0 0 0 0 0 0 0 0.

Definition world (label : bool) (ready_until : nat)
  (catalog : option (list pgBackup)) : World := {|
  pgdata := Some "/pgdata";
  arclog_path := "/arclog";
  check := false;
  verbose := false;
  w_fail := λ _ _, None;
  w_stat := files_at label ready_until;
  w_errno := λ _, 0;
  w_stack := λ _, mkStat 0;
  w_clock := λ n, mkTv (1000 + Z.of_nat n) 0;
  w_interrupted := λ _, false;
  w_result := λ n,
    Some (mkRes 1 1 (if (n <? 4)%nat then "8192" else "1/3000028"));
  w_errmsg := λ _, EmptyString;
  w_server_version := λ _, 100000;
  w_timeline := λ _, 1;
  w_dir_list := λ _,
    [file "/pgdata/base/16384/16385" 990; file "/pgdata/PG_VERSION" 100];
  w_file_list := λ _, [file "/pgdata/PG_VERSION" 100];
  w_wal := λ _, [(MAIN_FORKNUM, rel, 5)];
  w_copy := λ _, Some (8192, 8192);
  w_lock := λ _, 0;
  w_backup_list := λ _, catalog;
  w_create_dir := λ _, 0;
  w_fopen := λ _, true;
  w_chmod := λ _, 0
|}.

(** A state in which [do_backup_database] may be called. *)
Definition running (m : BackupMode) : State :=
  mkState (mkBackup m BACKUP_STATUS_RUNNING 0 0 0 1000 0 BYTES_INVALID
             8192 8192 0 0)
          true 100000 false None [Cb_backup_cleanup] 10 [].

End Sample.

(** *** Vocabulary of the further properties *)

(** [f'] is [f] with a page map that holds at least the blocks of the one
    of [f]. *)
Definition pagemap_grown (f f' : pgFile) : Prop :=
  path f' = path f ∧ mode f' = mode f ∧ mtime f' = mtime f ∧
  size f' = size f ∧ read_size f' = read_size f ∧
  write_size f' = write_size f ∧ is_datafile f' = is_datafile f ∧
  pagemap f ⊆ pagemap f'.

(** The server's answer for a block-size setting reads, in full, as the
    number [blcksz]. *)
Definition setting_is (pf : Platform) (res : option PGresult) (blcksz : Z)
  : Prop :=
  ∃ r n, res = Some r ∧ ntuples r = 1 ∧ nfields r = 1 ∧
         strtol pf (value00 r) = (n, EmptyString) ∧ wrap_i32 n = blcksz.

(** The 64-bit position [get_lsn] makes of a cell. *)
Definition lsn_of (pf : Platform) (res : option PGresult) : Z :=
  let '(xlogid, xrecoff) :=
    XLogDataFromLSN pf (from_option value00 EmptyString res) in
  Z.lor (Z.shiftl (wrap_u32 xlogid) 32) (wrap_u32 xrecoff).

(** The fields of the record that [wait_for_archive] does not write. *)
Definition same_but_stop (b b' : pgBackup) : Prop :=
  backup_mode b' = backup_mode b ∧ status b' = status b ∧
  start_lsn b' = start_lsn b ∧ start_time b' = start_time b ∧
  end_time b' = end_time b ∧ data_bytes b' = data_bytes b ∧
  block_size b' = block_size b ∧ wal_block_size b' = wal_block_size b.

(** The statics of [backup.c] other than the record and the connection. *)
Definition same_statics (s s' : State) : Prop :=
  in_backup s' = in_backup s ∧ server_version s' = server_version s ∧
  backup_files_list s' = backup_files_list s ∧
  atexit_stack s' = atexit_stack s.

(** The marker of the WAL segment that holds position [lsn] on timeline
    [tl]. *)
Definition ready_marker (pf : Platform) (d : string) (tl lsn : Z) : string :=
  d +:+ "/pg_xlog/archive_status/" +:+
  XLogFileName pf tl (XLByteToSeg pf lsn) +:+ ".ready".

(** [f'] is [f] but for the two sizes the copier records. *)
Definition sizes_apart (f f' : pgFile) : Prop :=
  path f' = path f ∧ mode f' = mode f ∧ mtime f' = mtime f ∧
  size f' = size f ∧ is_datafile f' = is_datafile f ∧
  pagemap f' = pagemap f.

(** The paths handed to the copy routines, in the order of the calls. *)
Definition copied_paths (tr : list event) : list string :=
  omap (λ e, match e with
             | Ext (X_backup_data_file p _ _) | Ext (X_copy_file p _) =>
                 Some p
             | _ => None
             end) tr.

(** A copy is made by the routine that goes with the kind of the file:
    [backup_data_file], with the lower bound of the run, for a data file of
    the list, [copy_file] for another file of the list. *)
Definition dispatch_ok (files : list pgFile) (lsn : option Z) (e : event)
  : Prop :=
  match e with
  | Ext (X_backup_data_file p l _) =>
      l = lsn ∧ ∃ f, f ∈ files ∧ is_datafile f = true ∧ path f = p
  | Ext (X_copy_file p _) =>
      ∃ f, f ∈ files ∧ is_datafile f = false ∧ path f = p
  | _ => True
  end.

(** The record as [backup_cleanup] leaves it at instant-of-clock [t]. *)
Definition failed_at (t : Z) (b : pgBackup) : pgBackup :=
  upd_status BACKUP_STATUS_ERROR (upd_end_time t b).

(** What [backup.c] itself does to the backup directory: the files it
    opens and closes, the mode it changes, the directories it makes, the
    lists it prints, the directory and the manifest of the backup. *)
Definition is_catalog_write (e : event) : bool :=
  match e with
  | Ext (X_fopen _) | Ext X_fclose | Ext (X_chmod _)
  | Ext (X_dir_create_dir _) | Ext X_dir_print_mkdirs_sh
  | Ext X_dir_print_file_list | Ext X_pgBackupCreateDir
  | Ext (X_pgBackupWriteIni _) => true
  | _ => false
  end.

(** An event that is none of these. *)
Definition quiet (e : event) : Prop := is_catalog_write e = false.

(** Every event a routine adds to the history satisfies [P]. *)
Definition emits {A} (P : event → Prop) (m : M A) : Prop :=
  ∀ s, ∃ tr, trace (snd (m s)) = trace s ++ tr ∧ Forall P tr.

(** The phases only a differential run goes through. *)
Definition ph_wal (q : phase) : bool :=
  match q with
  | P_switch | P_switched | P_mapped => true
  | _ => false
  end.

Definition is_wal_work (e : event) : bool :=
  is_switch_call e || is_wal_scan e.

(** A read of WAL ends at position [endpoint]. *)
Definition scan_ends_at (endpoint : Z) (e : event) : Prop :=
  match e with
  | Ext (X_extractPageMap _ _ b) => b = endpoint
  | _ => True
  end.

(** What [add_files] may do to a listed entry: nothing, or tag a regular
    file as a data file. *)
Definition tagged (f f' : pgFile) : Prop :=
  f' = f ∨ (S_ISREG (mode f) = true ∧ f' = set_is_datafile f true).

(** The fields of the record that [pg_start_backup] does not write. *)
Definition same_but_start (b b' : pgBackup) : Prop :=
  b' = upd_start_lsn (start_lsn b') b.

(** ** Variants of the sample installation *)
Module Scenes.

(** The sample world with [--check] as given, [catalog_lock] answering
    [lock], the interrupt flag as [intr] says and the file system as [st]
    says. *)
Definition world (chk : bool) (lock : Z) (intr : nat → bool)
  (st : nat → string → stat_outcome) : World :=
  let base := Sample.world true 0 (Some [Sample.parent]) in
  mkWorld (pgdata base) (arclog_path base) chk (verbose base) (w_fail base)
    st (w_errno base) (w_stack base) (w_clock base) intr (w_result base)
    (w_errmsg base) (w_server_version base) (w_timeline base)
    (w_dir_list base) (w_file_list base) (w_wal base) (w_copy base)
    (λ _, lock) (w_backup_list base) (w_create_dir base) (w_fopen base)
    (w_chmod base).

Definition calm : nat → bool := λ _, false.
Definition alarm : nat → bool := λ _, true.
Definition disk : nat → string → stat_outcome := Sample.files_at true 0.

(** A data directory in which everything under [base] is a directory. *)
Definition dirs_only (n : nat) (p : string) : stat_outcome :=
  if String.prefix "/pgdata/base/" p then StatOk (mkStat 16877)  (* 040755 *)
  else Sample.files_at true 0 n p.


End Scenes.

(** * Properties *)

(** ** Integers and strings *)

Lemma wrap_u32_small z : 0 ≤ z < 2 ^ 32 → wrap_u32 z = z.
Proof. intros H. unfold wrap_u32. apply Z.mod_small. exact H. Qed.

Lemma wrap_u32_i32 z : wrap_u32 (wrap_i32 z) = wrap_u32 z.
Proof.
  unfold wrap_u32, wrap_i32.
  rewrite Zminus_mod, Zmod_mod, <- Zminus_mod.
  replace (z + 2 ^ 31 - 2 ^ 31) with z by lia.
  reflexivity.
Qed.

Lemma append_empty_r (s : string) : s +:+ EmptyString = s.
Proof.
  induction s as [|c s IH]; [reflexivity|].
  change (String c (s +:+ EmptyString) = String c s). now rewrite IH.
Qed.

(** ** [fileExists] *)






(** ** The block-change sink *)

Section BlockChangeFacts.
Variable pf : Platform.
Hypothesis RELSEG_SIZE_pos : 0 < RELSEG_SIZE pf.

Lemma segno_roundtrip blkno :
  0 ≤ blkno < 2 ^ 32 →
  wrap_u32 (wrap_i32 (blkno / RELSEG_SIZE pf)) = blkno / RELSEG_SIZE pf.
Proof.
  intros [H0 H1]. rewrite wrap_u32_i32. apply wrap_u32_small. split.
  - apply Z.div_pos; lia.
  - apply Z.le_lt_trans with blkno; [|lia].
    apply Z.div_le_upper_bound; nia.
Qed.

Lemma datasegpath_target pgdata rnode forknum blkno :
  pgdata +:+ "/" +:+ datasegpath pf rnode forknum (blkno / RELSEG_SIZE pf)
  = target_path pf pgdata rnode forknum blkno.
Proof.
  unfold datasegpath, target_path. cbv zeta.
  destruct (0 <? blkno / RELSEG_SIZE pf); [reflexivity|].
  now rewrite append_empty_r.
Qed.

(** C1: [process_block_change] computes the segment [blkno / RELSEG_SIZE]
    and the block in it [blkno mod RELSEG_SIZE], looks for the first entry
    of the file list whose path is the data directory, a slash and the
    relation path, with [.segno] appended exactly when [segno > 0]; it adds
    the block to the page map of that entry, and changes nothing when there
    is no such entry. *)
Theorem process_block_change_spec (pgdata : string) (forknum : ForkNumber)
  (rnode : RelFileNode) (blkno : Z) (files : list pgFile) :
  0 ≤ blkno < 2 ^ 32 →
  let target := target_path pf pgdata rnode forknum blkno in
  let blkno_inseg := blkno mod RELSEG_SIZE pf in
  (∀ (j : nat) (p : pgFile),
      files !! j = Some p → path p = target →
      (∀ (i : nat) (q : pgFile),
          files !! i = Some q → (i < j)%nat → path q ≠ target) →
      process_block_change pf pgdata forknum rnode blkno files
      = <[ j := set_pagemap p ({[ blkno_inseg ]} ∪ pagemap p) ]> files
      ∧ blkno_inseg ∈ pagemap (set_pagemap p ({[ blkno_inseg ]} ∪ pagemap p)))
  ∧ ((∀ p, p ∈ files → path p ≠ target) →
      process_block_change pf pgdata forknum rnode blkno files = files).
Proof.
  intros Hblk target blkno_inseg.
  assert (Hpath :
    pgdata +:+ "/" +:+
      datasegpath pf rnode forknum
        (wrap_u32 (wrap_i32 (blkno / RELSEG_SIZE pf))) = target).
  { rewrite segno_roundtrip by exact Hblk. apply datasegpath_target. }
  split.
  - intros j p Hj Hp Hfirst.
    unfold process_block_change. rewrite Hpath.
    assert (list_find (λ p0, path p0 = target) files = Some (j, p)) as ->.
    { apply list_find_Some. repeat split; [exact Hj | exact Hp |].
      intros i q Hi Hlt. exact (Hfirst i q Hi Hlt). }
    split; [reflexivity|]. simpl. set_solver.
  - intros Hnone.
    unfold process_block_change. rewrite Hpath.
    assert (list_find (λ p0, path p0 = target) files = None) as ->.
    { apply list_find_None. apply Forall_forall. intros p Hp. exact (Hnone p Hp). }
    reflexivity.
Qed.

End BlockChangeFacts.

(** ** Running the monad *)

Lemma wp_bind {A B} (m : M A) (f : A → M B) K s :
  wp m (λ r s', match r with
                | Ok a => wp (f a) K s'
                | Fatal msg => K (Fatal msg) s'
                | Hang => K Hang s'
                | Crash => K Crash s'
                end) s →
  wp (bind m f) K s.
Proof.
  unfold wp, bind. destruct (m s) as [[a|msg| |] s']; simpl; auto.
Qed.

Lemma wp_ret {A} (a : A) K s : K (Ok a) s → wp (ret a) K s.
Proof. auto. Qed.

Lemma wp_get {A} (g : State → A) K s : K (Ok (g s)) s → wp (get g) K s.
Proof. auto. Qed.

Lemma wp_modify (f : State → State) K s : K (Ok tt) (f s) → wp (modify f) K s.
Proof. auto. Qed.

Lemma wp_elog {A} msg (K : result A → State → Prop) s :
  K (Fatal msg) s → wp (elog_ERROR msg) K s.
Proof. auto. Qed.

Lemma wp_hang {A} (K : result A → State → Prop) s : K Hang s → wp hang K s.
Proof. auto. Qed.

Lemma wp_crash {A} (K : result A → State → Prop) s : K Crash s → wp crash K s.
Proof. auto. Qed.

Lemma wp_emit e K s : K (Ok tt) (jump s [e] (now s)) → wp (emit e) K s.
Proof. auto. Qed.

Lemma wp_sys c K s :
  K (Ok tt) (jump s [Ext c] (S (now s))) → wp (sys c) K s.
Proof. auto. Qed.

Lemma wp_ext w c K s :
  match w_fail w (now s) c with
  | Some msg => K (Fatal msg) (jump s [Ext c] (S (now s)))
  | None => K (Ok tt) (jump s [Ext c] (S (now s)))
  end →
  wp (ext w c) K s.
Proof.
  unfold wp, ext, emit, tick, get, modify, bind, jump, with_trace, with_now;
    simpl.
  now destruct (w_fail w (now s) c).
Qed.

Lemma wp_answer {A} w (f : World → nat → A) K s :
  K (Ok (f w (Nat.pred (now s)))) s → wp (answer w f) K s.
Proof. auto. Qed.

Lemma wp_read_interrupted w K s :
  K (Ok (w_interrupted w (now s))) (jump s [] (S (now s))) →
  wp (read_interrupted w) K s.
Proof.
  unfold wp, read_interrupted, tick, get, modify, bind, ret, jump, with_now;
    simpl.
  now rewrite app_nil_r.
Qed.

Lemma wp_fileExistsM w p K s :
  K (Ok (marker_present w (now s) p)) (jump s [Ext (X_stat p)] (S (now s))) →
  wp (fileExistsM w p) K s.
Proof. auto. Qed.

Lemma wp_gettimeofday w K s :
  K (Ok (w_clock w (now s))) (jump s [Ext X_gettimeofday] (S (now s))) →
  wp (gettimeofday w) K s.
Proof. auto. Qed.

Lemma wp_time w K s :
  K (Ok (tv_sec (w_clock w (now s)))) (jump s [Ext X_time] (S (now s))) →
  wp (time w) K s.
Proof. auto. Qed.

Lemma wp_stat w p K s :
  K (Ok (w_stat w (now s) p)) (jump s [Ext (X_stat p)] (S (now s))) →
  wp (stat w p) K s.
Proof. auto. Qed.

Lemma wp_conseq {A} (m : M A) (K K' : result A → State → Prop) s :
  wp m K s → (∀ r s', K r s' → K' r s') → wp m K' s.
Proof. unfold wp. auto. Qed.

Lemma advance_advance s e1 k1 e2 k2 :
  advance (advance s e1 k1) e2 k2 = advance s (e1 ++ e2) (k1 + k2).
Proof.
  unfold advance; simpl. f_equal; [lia | now rewrite app_assoc].
Qed.

Lemma advance_nil_0 s : advance s [] 0 = s.
Proof.
  destruct s; unfold advance; simpl. now rewrite Nat.add_0_r, app_nil_r.
Qed.

(** ** The archive wait *)

Lemma archive_timeout_text :
  "switched WAL could not be archived in " +:+ fmt_d TIMEOUT_ARCHIVE +:+
  " seconds" = archive_timeout.
Proof. vm_compute. reflexivity. Qed.

Section ArchiveWait.
Variable w : World.

Lemma wait_for_archive_loop_unfold n p c s :
  wait_for_archive_loop w (S n) p c s =
  let s3 := advance s [Ext (X_stat p); Ext (X_sleep 1)] 3 in
  if marker_present w (now s) p then
    if w_interrupted w (now s + 2) then (Fatal archive_interrupted, s3)
    else if c + 1 >? TIMEOUT_ARCHIVE then (Fatal archive_timeout, s3)
    else wait_for_archive_loop w n p (c + 1) s3
  else (Ok c, advance s [Ext (X_stat p)] 1).
Proof.
  cbv zeta.
  change (wait_for_archive_loop w (S n) p c s) with
    (bind (fileExistsM w p) (λ present,
       if present then
         bind (sys (X_sleep 1)) (λ _,
           bind (read_interrupted w) (λ intr,
             if intr then elog_ERROR archive_interrupted
             else
               if c + 1 >? TIMEOUT_ARCHIVE then
                 elog_ERROR ("switched WAL could not be archived in " +:+
                             fmt_d TIMEOUT_ARCHIVE +:+ " seconds")
               else wait_for_archive_loop w n p (c + 1)))
       else ret c) s).
  rewrite archive_timeout_text.
  unfold bind, fileExistsM, sys, read_interrupted, answer, emit, tick, get,
    modify, ret, elog_ERROR, marker_present, advance, with_trace, with_now.
  simpl.
  replace (now s + 2)%nat with (S (S (now s))) by lia.
  replace (now s + 3)%nat with (S (S (S (now s)))) by lia.
  replace (now s + 1)%nat with (S (now s)) by lia.
  destruct (fileExists _ _ _); simpl; [|reflexivity].
  rewrite <- app_assoc. simpl.
  destruct (w_interrupted w (S (S (now s)))); [reflexivity|].
  destruct (c + 1 >? TIMEOUT_ARCHIVE); reflexivity.
Qed.

Lemma polls_snoc p n :
  polls p n ++ [Ext (X_stat p); Ext (X_sleep 1)] = polls p (S n).
Proof.
  induction n as [|n IH]; [reflexivity|].
  change (polls p (S n)) with
    (Ext (X_stat p) :: Ext (X_sleep 1) :: polls p n).
  simpl. now rewrite IH.
Qed.

(** [n] rounds in which the marker is there and no interrupt is seen. *)
Lemma wait_for_archive_loop_rounds p (n : nat) :
  ∀ (fuel : nat) (c : Z) (s : State),
    c + Z.of_nat n ≤ TIMEOUT_ARCHIVE →
    (∀ k : nat, (k < n)%nat →
       marker_present w (now s + 3 * k) p = true ∧
       w_interrupted w (now s + 3 * k + 2) = false) →
    wait_for_archive_loop w (n + fuel) p c s =
    wait_for_archive_loop w fuel p (c + Z.of_nat n)
      (advance s (polls p n) (3 * n)).
Proof.
  induction n as [|n IH]; intros fuel c s Hc Hgood.
  - simpl. rewrite Z.add_0_r. now rewrite advance_nil_0.
  - change (S n + fuel)%nat with (S (n + fuel)).
    rewrite wait_for_archive_loop_unfold. cbv zeta.
    destruct (Hgood 0%nat ltac:(lia)) as [Hp Hi].
    rewrite Nat.mul_0_r, Nat.add_0_r in Hp, Hi.
    rewrite Hp, Hi.
    destruct (Z.gtb_spec (c + 1) TIMEOUT_ARCHIVE) as [Hgt|_]; [lia|].
    rewrite IH.
    + rewrite advance_advance.
      replace (c + 1 + Z.of_nat n) with (c + Z.of_nat (S n)) by lia.
      replace (3 + 3 * n)%nat with (3 * S n)%nat by lia.
      reflexivity.
    + lia.
    + intros k Hk. destruct (Hgood (S k) ltac:(lia)) as [Hp' Hi'].
      change (now (advance s [Ext (X_stat p); Ext (X_sleep 1)] 3))
        with (now s + 3)%nat.
      replace (now s + 3 + 3 * k)%nat with (now s + 3 * S k)%nat by lia.
      split; [exact Hp' | exact Hi'].
Qed.

Lemma wait_for_archive_loop_returns p (n : nat) (s : State) :
  (n ≤ 10)%nat →
  (∀ k : nat, (k < n)%nat →
     marker_present w (now s + 3 * k) p = true ∧
     w_interrupted w (now s + 3 * k + 2) = false) →
  marker_present w (now s + 3 * n) p = false →
  wait_for_archive_loop w 12 p 0 s =
  (Ok (Z.of_nat n), advance s (polls p n ++ [Ext (X_stat p)]) (3 * n + 1)).
Proof.
  intros Hn Hgood Hgone.
  replace 12%nat with (n + S (11 - n))%nat by lia.
  rewrite wait_for_archive_loop_rounds by (unfold TIMEOUT_ARCHIVE; eauto; lia).
  rewrite wait_for_archive_loop_unfold. cbv zeta.
  change (now (advance s (polls p n) (3 * n))) with (now s + 3 * n)%nat.
  rewrite Hgone. now rewrite advance_advance.
Qed.

Lemma wait_for_archive_loop_interrupted p (n : nat) (s : State) :
  (n ≤ 10)%nat →
  (∀ k : nat, (k < n)%nat →
     marker_present w (now s + 3 * k) p = true ∧
     w_interrupted w (now s + 3 * k + 2) = false) →
  marker_present w (now s + 3 * n) p = true →
  w_interrupted w (now s + 3 * n + 2) = true →
  wait_for_archive_loop w 12 p 0 s =
  (Fatal archive_interrupted, advance s (polls p (S n)) (3 * n + 3)).
Proof.
  intros Hn Hgood Hp Hi.
  replace 12%nat with (n + S (11 - n))%nat by lia.
  rewrite wait_for_archive_loop_rounds by (unfold TIMEOUT_ARCHIVE; eauto; lia).
  rewrite wait_for_archive_loop_unfold. cbv zeta.
  change (now (advance s (polls p n) (3 * n))) with (now s + 3 * n)%nat.
  rewrite Hp, Hi. now rewrite advance_advance, polls_snoc.
Qed.

Lemma wait_for_archive_loop_timeout p (s : State) :
  (∀ k : nat, (k ≤ 10)%nat →
     marker_present w (now s + 3 * k) p = true ∧
     w_interrupted w (now s + 3 * k + 2) = false) →
  wait_for_archive_loop w 12 p 0 s =
  (Fatal archive_timeout, advance s (polls p 11) 33).
Proof.
  intros Hgood.
  change 12%nat with (10 + 2)%nat.
  rewrite wait_for_archive_loop_rounds
    by (unfold TIMEOUT_ARCHIVE; try lia; intros; apply Hgood; lia).
  rewrite wait_for_archive_loop_unfold. cbv zeta.
  change (now (advance s (polls p 10) (3 * 10))) with (now s + 3 * 10)%nat.
  destruct (Hgood 10%nat ltac:(lia)) as [Hp Hi].
  rewrite Hp, Hi. rewrite advance_advance.
  reflexivity.
Qed.

(** Twelve rounds are never used up: the loop gives up on its own. *)
Lemma wait_for_archive_loop_ends p :
  ∀ (fuel : nat) (c : Z) (s : State),
    (0 < fuel)%nat → 11 - c ≤ Z.of_nat fuel →
    fst (wait_for_archive_loop w fuel p c s) ≠ Hang.
Proof.
  induction fuel as [|fuel IH]; intros c s Hc Hfuel; [lia|].
  rewrite wait_for_archive_loop_unfold. cbv zeta.
  destruct (marker_present w (now s) p); [|discriminate].
  destruct (w_interrupted w (now s + 2)); [discriminate|].
  destruct (Z.gtb_spec (c + 1) TIMEOUT_ARCHIVE) as [_|Hle]; [discriminate|].
  apply IH; unfold TIMEOUT_ARCHIVE in *; lia.
Qed.

End ArchiveWait.

(** ** Symbolic execution *)

Ltac head_of t :=
  lazymatch t with
  | ?f _ => head_of f
  | _ => t
  end.

Ltac norm_state :=
  unfold advance, jump, entered, with_trace, with_now, with_current,
    with_in_backup, with_server_version, with_connected, with_files,
    with_atexit, upd_status, upd_tli, upd_start_lsn, upd_stop_lsn,
    upd_end_time, upd_data_bytes, upd_recovery_xid, upd_recovery_time;
  cbn [current in_backup server_version connected backup_files_list
       atexit_stack now trace
       backup_mode status tli start_lsn stop_lsn start_time end_time
       data_bytes block_size wal_block_size recovery_xid recovery_time
       fst snd Nat.pred tail];
  rewrite <- ?app_assoc;
  cbn [app].

Ltac wp_prim :=
  lazymatch goal with
  | |- wp (bind _ _) _ _ => apply wp_bind
  | |- wp (ret _) _ _ => apply wp_ret
  | |- wp (get _) _ _ => apply wp_get
  | |- wp (modify _) _ _ => apply wp_modify
  | |- wp (elog_ERROR _) _ _ => apply wp_elog
  | |- wp hang _ _ => apply wp_hang
  | |- wp crash _ _ => apply wp_crash
  | |- wp (emit _) _ _ => apply wp_emit
  | |- wp (sys _) _ _ => apply wp_sys
  | |- wp (ext _ _) _ _ => apply wp_ext
  | |- wp (answer _ _) _ _ => apply wp_answer
  | |- wp (read_interrupted _) _ _ => apply wp_read_interrupted
  | |- wp (fileExistsM _ _) _ _ => apply wp_fileExistsM
  | |- wp (gettimeofday _) _ _ => apply wp_gettimeofday
  | |- wp (time _) _ _ => apply wp_time
  | |- wp (stat _ _) _ _ => apply wp_stat
  end.

Ltac wp_case :=
  lazymatch goal with
  | |- wp (let _ := _ in _) _ _ => cbv zeta
  | |- wp (if ?b then _ else _) _ _ => destruct b eqn:?
  | |- wp (match ?x with _ => _ end) _ _ => destruct x eqn:?
  | |- match ?x with _ => _ end => destruct x eqn:?
  end.

Ltac wp_unfold :=
  lazymatch goal with
  | |- wp ?m _ _ => let h := head_of m in unfold h
  end.

Ltac wp_step :=
  first [ wp_prim | wp_case | wp_unfold ];
  cbv beta iota; norm_state.

(** Run up to the next loop. *)
Ltac wp_run :=
  repeat
    lazymatch goal with
    | |- wp ?m _ _ =>
        let h := head_of m in
        lazymatch h with
        | @wait_for_archive_loop => fail
        | @wait_next_second => fail
        | @backup_files_loop => fail
        | @backup_files_step => fail
        | @backup_files => fail
        | _ => wp_step
        end
    | |- _ => wp_step
    end.

Section RequestFacts.
Variable pf : Platform.
Variable w : World.

(** The marker [wait_for_archive] waits for is the [.ready] file of a WAL
    segment under [archive_status] of the data directory. *)
Lemma wait_for_archive_request_path backup sql s :
  wp (wait_for_archive_request pf w backup sql)
     (λ r _, ∀ ready_path, r = Ok ready_path →
        ∃ d file_name, pgdata w = Some d ∧
          ready_path = d +:+ "/pg_xlog/archive_status/" +:+ file_name
                       +:+ ".ready") s.
Proof.
  repeat wp_step; try discriminate.
  all: intros ? [= <-]; eauto.
Qed.

Lemma with_trace_advance s evs :
  with_trace s (trace s ++ evs) = advance s evs 0.
Proof. unfold with_trace, advance. now rewrite Nat.add_0_r. Qed.

Lemma wait_for_archive_unfold backup sql s :
  wait_for_archive pf w backup sql s =
  match wait_for_archive_request pf w backup sql
          (entered (F_wait_for_archive sql) s) with
  | (Ok ready_path, s1) =>
      match wait_for_archive_loop w 12 ready_path 0 s1 with
      | (Ok _, s2) => (Ok tt, advance s2 [Leave (F_wait_for_archive sql)] 0)
      | (Fatal msg, s2) => (Fatal msg, s2)
      | (Hang, s2) => (Hang, s2)
      | (Crash, s2) => (Crash, s2)
      end
  | (Fatal msg, s1) => (Fatal msg, s1)
  | (Hang, s1) => (Hang, s1)
  | (Crash, s1) => (Crash, s1)
  end.
Proof.
  unfold wait_for_archive, call, entered.
  unfold bind at 1. unfold emit at 1, modify at 1. cbv beta iota.
  unfold bind at 1. unfold bind at 1.
  destruct (wait_for_archive_request pf w backup sql _) as [[rp|msg| |] s1];
    try reflexivity.
  unfold bind at 1.
  destruct (wait_for_archive_loop w 12 rp 0 s1) as [[c|msg| |] s2];
    try reflexivity.
  unfold ret, bind, emit, modify. cbv beta iota.
  now rewrite with_trace_advance.
Qed.

(** C8: [wait_for_archive] polls the [.ready] marker it has computed, with
    a sleep of one second after each look that finds it; a look that finds
    it gone ends the wait normally; an interrupt seen after a sleep is
    fatal; a marker still there at the eleventh look, ten seconds after the
    first, is fatal with the message that the switched WAL could not be
    archived; the wait never goes on beyond that. *)
Theorem wait_for_archive_polling (backup : bool) (sql : string)
  (s s1 : State) (ready_path : string) :
  wait_for_archive_request pf w backup sql
    (entered (F_wait_for_archive sql) s) = (Ok ready_path, s1) →
  let present (k : nat) := marker_present w (now s1 + 3 * k) ready_path in
  let intr (k : nat) := w_interrupted w (now s1 + 3 * k + 2) in
  let run := wait_for_archive pf w backup sql s in
  (∃ d file_name, pgdata w = Some d ∧
     ready_path = d +:+ "/pg_xlog/archive_status/" +:+ file_name +:+ ".ready")
  ∧ (∀ n : nat, (n ≤ 10)%nat →
       (∀ k : nat, (k < n)%nat → present k = true ∧ intr k = false) →
       present n = false →
       run = (Ok tt,
              advance s1 (polls ready_path n ++
                          [Ext (X_stat ready_path);
                           Leave (F_wait_for_archive sql)]) (3 * n + 1)))
  ∧ (∀ n : nat, (n ≤ 10)%nat →
       (∀ k : nat, (k < n)%nat → present k = true ∧ intr k = false) →
       present n = true → intr n = true →
       run = (Fatal archive_interrupted,
              advance s1 (polls ready_path (S n)) (3 * n + 3)))
  ∧ ((∀ k : nat, (k ≤ 10)%nat → present k = true ∧ intr k = false) →
       run = (Fatal archive_timeout, advance s1 (polls ready_path 11) 33))
  ∧ fst run ≠ Hang.
Proof.
  intros Hreq present intr run.
  assert (Hrun : run =
    match wait_for_archive_loop w 12 ready_path 0 s1 with
    | (Ok _, s2) => (Ok tt, advance s2 [Leave (F_wait_for_archive sql)] 0)
    | (Fatal msg, s2) => (Fatal msg, s2)
    | (Hang, s2) => (Hang, s2)
    | (Crash, s2) => (Crash, s2)
    end).
  { unfold run. rewrite wait_for_archive_unfold, Hreq. reflexivity. }
  split; [|split; [|split; [|split]]].
  - pose proof (wait_for_archive_request_path backup sql
                  (entered (F_wait_for_archive sql) s)) as Hp.
    unfold wp in Hp. rewrite Hreq in Hp. apply Hp. reflexivity.
  - intros n Hn Hgood Hgone. rewrite Hrun.
    rewrite (wait_for_archive_loop_returns w ready_path n s1 Hn Hgood Hgone).
    rewrite advance_advance, <- app_assoc, Nat.add_0_r. reflexivity.
  - intros n Hn Hgood Hp Hi. rewrite Hrun.
    now rewrite (wait_for_archive_loop_interrupted w ready_path n s1 Hn Hgood Hp Hi).
  - intros Hgood. rewrite Hrun.
    now rewrite (wait_for_archive_loop_timeout w ready_path s1 Hgood).
  - rewrite Hrun.
    pose proof (wait_for_archive_loop_ends w ready_path 12 0 s1
                  ltac:(lia) ltac:(lia)) as Hends.
    destruct (wait_for_archive_loop w 12 ready_path 0 s1) as [[c|msg| |] s2];
      simpl in *; congruence.
Qed.

End RequestFacts.

(** ** Binary search *)

Lemma bsearch_go_finds {A} (cmp : A → A → comparison) (key x : A)
  (base : list A) (i : nat) :
  base !! i = Some x →
  cmp key x = Eq →
  (∀ (j : nat) (y : A), base !! j = Some y → (j < i)%nat → cmp key y = Gt) →
  (∀ (j : nat) (y : A), base !! j = Some y → (i < j)%nat → cmp key y = Lt) →
  ∀ (n l u : nat),
    (l ≤ i)%nat → (i < u)%nat → (u ≤ length base)%nat → (u - l ≤ n)%nat →
    bsearch_go cmp key base n l u = Some x.
Proof.
  intros Hi Heq Hbefore Hafter.
  induction n as [|n IH]; intros l u Hl Hu Hlen Hn; [lia|].
  cbn [bsearch_go]. destruct (decide (l < u)%nat) as [_|]; [|lia].
  cbv zeta. set (idx := ((l + u) `div` 2)%nat).
  assert (l ≤ idx ∧ idx < u)%nat as [Hidx1 Hidx2].
  { subst idx. split.
    - apply Nat.div_le_lower_bound; lia.
    - apply Nat.Div0.div_lt_upper_bound; lia. }
  destruct (lookup_lt_is_Some_2 base idx ltac:(lia)) as [p Hp].
  rewrite Hp.
  destruct (lt_eq_lt_dec idx i) as [[Hlt|Heqi]|Hgt].
  - rewrite (Hbefore idx p Hp Hlt). apply IH; lia.
  - subst i. rewrite Hp in Hi. injection Hi as ->. now rewrite Heq.
  - rewrite (Hafter idx p Hp Hgt). apply IH; lia.
Qed.

Lemma StronglySorted_lookup_lt {A} (R : A → A → Prop) (l : list A) :
  StronglySorted R l →
  ∀ (i j : nat) (x y : A),
    l !! i = Some x → l !! j = Some y → (i < j)%nat → R x y.
Proof.
  induction 1 as [|a l Hs IH Hall]; intros i j x y Hi Hj Hlt.
  - now rewrite lookup_nil in Hi.
  - destruct j as [|j]; [lia|]. simpl in Hj.
    destruct i as [|i]; simpl in Hi.
    + injection Hi as <-. rewrite Forall_forall in Hall.
      apply Hall. eapply list_elem_of_lookup_2; eauto.
    + eapply IH; eauto. lia.
Qed.

(** On a list of files in strictly ascending order of path, the search
    finds the entry with the path of the key. *)
Lemma parray_bsearch_path (prev_files : list pgFile) (file prev : pgFile) :
  StronglySorted (λ a b, pgFileComparePath a b = Lt) prev_files →
  prev ∈ prev_files →
  path prev = path file →
  parray_bsearch prev_files file pgFileComparePath = Some prev.
Proof.
  intros Hsorted Hin Hpath.
  apply list_elem_of_lookup_1 in Hin as [i Hi].
  unfold parray_bsearch.
  assert (Hrefl : ∀ s : string, String.compare s s = Eq).
  { intros s0. induction s0 as [|c s0 IH]; [reflexivity|].
    simpl. assert (Ascii.compare c c = Eq) as ->; [|exact IH].
    unfold Ascii.compare. apply N.compare_refl. }
  apply (bsearch_go_finds pgFileComparePath file prev prev_files i Hi).
  - unfold pgFileComparePath. rewrite Hpath. apply Hrefl.
  - intros j y Hj Hlt.
    pose proof (StronglySorted_lookup_lt _ _ Hsorted j i y prev Hj Hi Hlt) as H.
    unfold pgFileComparePath in *. rewrite <- Hpath.
    rewrite String.compare_antisym, H. reflexivity.
  - intros j y Hj Hlt.
    pose proof (StronglySorted_lookup_lt _ _ Hsorted i j prev y Hi Hj Hlt) as H.
    unfold pgFileComparePath in *. now rewrite <- Hpath.
  - lia.
  - eapply lookup_lt_Some; eauto.
  - lia.
  - lia.
Qed.

(** ** The copier *)

Lemma jump_same s : jump s [] (now s) = s.
Proof. destruct s; unfold jump; simpl. now rewrite app_nil_r. Qed.

Lemma clock_wait_copy_ok files lsn e :
  clock_wait_event e → copy_event_ok files lsn e.
Proof. destruct e as [| |[]|]; simpl; tauto. Qed.

Lemma copy_event_ok_mono files files' lsn e :
  (∀ f, f ∈ files → f ∈ files') →
  copy_event_ok files lsn e → copy_event_ok files' lsn e.
Proof.
  intros Hsub. destruct e as [| |[]|]; simpl; try tauto.
  - intros [-> (f & Hf & Hp & Hm)]. split; [reflexivity|]. eauto.
  - intros (f & Hf & Hp & Hm). eauto.
Qed.

Ltac bool_facts :=
  repeat match goal with
  | H : (_ <? _) = true |- _ => apply Z.ltb_lt in H
  | H : (_ <? _) = false |- _ => apply Z.ltb_ge in H
  | H : (_ <=? _) = true |- _ => apply Z.leb_le in H
  | H : (_ <=? _) = false |- _ => apply Z.leb_gt in H
  | H : (_ =? _) = true |- _ => apply Z.eqb_eq in H
  | H : (_ =? _) = false |- _ => apply Z.eqb_neq in H
  | H : (_ >? _) = true |- _ => rewrite Z.gtb_ltb in H; apply Z.ltb_lt in H
  | H : (_ >? _) = false |- _ => rewrite Z.gtb_ltb in H; apply Z.ltb_ge in H
  end.

Ltac wp_box lem :=
  eapply wp_conseq; [apply lem | cbv beta; intros ? ? (? & ? & -> & ?)].

Section CopierFacts.
Variable pf : Platform.
Variable w : World.
Variable patience : nat.

Lemma wp_wait_next_second (n : nat) (m : Z) :
  ∀ (tv : timeval) (s : State),
    wp (wait_next_second w n m tv)
       (λ r s', ∃ n' tr, s' = jump s tr n' ∧
          (Forall clock_wait_event tr ∧
           match r with
           | Ok tv' => m < tv_sec tv'
           | Hang => True
           | _ => False
           end)) s.
Proof.
  induction n as [|n IH]; intros tv s; cbn [wait_next_second];
    destruct (Z.leb_spec (tv_sec tv) m) as [Hle|Hgt].
  - apply wp_hang. exists (now s), []. now rewrite jump_same.
  - apply wp_ret. exists (now s), []. now rewrite jump_same.
  - do 4 wp_step.
    eapply wp_conseq; [apply IH|]. cbv beta.
    intros r s' (n' & tr & -> & Hev & Hr). norm_state.
    eexists _, _. split; [reflexivity|]. split; [|exact Hr].
    repeat constructor. exact Hev.
  - apply wp_ret. exists (now s), []. now rewrite jump_same.
Qed.

Ltac box_wait_next_second :=
  lazymatch goal with
  | |- wp (wait_next_second _ _ _ _) _ _ =>
      wp_box wp_wait_next_second;
      match goal with
      | H : Forall clock_wait_event _ ∧ match ?r with _ => _ end |- _ =>
          destruct H as [? ?]; destruct r; try contradiction
      end;
      cbv beta iota; norm_state
  end.

Ltac copy_events :=
  repeat first
    [ apply Forall_nil
    | apply Forall_app; split
    | (eapply Forall_impl; [eassumption|];
       intros; apply clock_wait_copy_ok; assumption)
    | constructor ];
  cbn [copy_event_ok];
  try exact I;
  try (split; [reflexivity|]);
  try (eexists; split; [apply list_elem_of_here|];
       split; [reflexivity|]; bool_facts; lia).

Ltac leaf_jump s tac :=
  first
    [ exists (now s), []; split; [now rewrite jump_same | tac]
    | exists (now s), []; split;
      [destruct s; cbn; rewrite app_nil_r; reflexivity | tac]
    | eexists _, _; split; [reflexivity | tac] ].

Lemma wp_backup_files_step from_root to_root prev_files lsn prefix tv file s :
  wp (backup_files_step pf w patience from_root to_root prev_files lsn
        prefix tv file)
     (λ r s', ∃ n' tr, s' = jump s tr n' ∧
        Forall (copy_event_ok [file] lsn) tr) s.
Proof.
  unfold backup_files_step.
  repeat (first [box_wait_next_second | wp_step]).
  all: leaf_jump s copy_events.
Qed.

Lemma wp_backup_files_loop from_root to_root prev_files lsn prefix files :
  ∀ tv s,
    wp (backup_files_loop pf w patience from_root to_root prev_files lsn
          prefix tv files)
       (λ r s', ∃ n' tr, s' = jump s tr n' ∧
          Forall (copy_event_ok files lsn) tr) s.
Proof.
  induction files as [|file rest IH]; intros tv s; cbn [backup_files_loop].
  - apply wp_ret. leaf_jump s copy_events.
  - apply wp_bind. wp_box wp_backup_files_step.
    destruct r as [[tv1 file1]| msg | |]; norm_state.
    + apply wp_bind. wp_box IH.
      assert (Forall (copy_event_ok (file :: rest) lsn) (x0 ++ x2)).
      { apply Forall_app; split; (eapply Forall_impl; [eassumption|]);
          intros e; apply copy_event_ok_mono; set_solver. }
      destruct r as [r'| msg | |]; norm_state;
        [apply wp_ret|..]; eexists _, _; (split; [reflexivity|assumption]).
    + eexists _, _; split; [reflexivity|].
      eapply Forall_impl; [eassumption|].
      intros e; apply copy_event_ok_mono; set_solver.
    + eexists _, _; split; [reflexivity|].
      eapply Forall_impl; [eassumption|].
      intros e; apply copy_event_ok_mono; set_solver.
    + eexists _, _; split; [reflexivity|].
      eapply Forall_impl; [eassumption|].
      intros e; apply copy_event_ok_mono; set_solver.
Qed.

Lemma qsort_elem_of cmp (files : list pgFile) (f : pgFile) :
  f ∈ parray_qsort cmp files ↔ f ∈ files.
Proof. unfold parray_qsort. now rewrite merge_sort_Permutation. Qed.






Lemma backup_files_loop_app from_root to_root prev_files lsn prefix l1 l2 :
  ∀ tv s,
    backup_files_loop pf w patience from_root to_root prev_files lsn prefix
      tv (l1 ++ l2) s =
    match backup_files_loop pf w patience from_root to_root prev_files lsn
            prefix tv l1 s with
    | (Ok r1, s1) =>
        match backup_files_loop pf w patience from_root to_root prev_files
                lsn prefix (fst r1) l2 s1 with
        | (Ok r2, s2) => (Ok (fst r2, snd r1 ++ snd r2), s2)
        | (Fatal msg, s2) => (Fatal msg, s2)
        | (Hang, s2) => (Hang, s2)
        | (Crash, s2) => (Crash, s2)
        end
    | (Fatal msg, s1) => (Fatal msg, s1)
    | (Hang, s1) => (Hang, s1)
    | (Crash, s1) => (Crash, s1)
    end.
Proof.
  induction l1 as [|file l1 IH]; intros tv s.
  - cbn [app backup_files_loop]. unfold ret. cbn [fst snd app].
    now destruct (backup_files_loop _ _ _ _ _ _ _ _ tv l2 s)
      as [[[tv2 d2]|msg| |] s2].
  - cbn [app backup_files_loop]. unfold bind at 1 3.
    destruct (backup_files_step _ _ _ _ _ _ _ _ tv file s)
      as [[r|msg| |] s1]; try reflexivity.
    unfold bind at 1 2. rewrite IH.
    destruct (backup_files_loop _ _ _ _ _ _ _ _ (fst r) l1 s1)
      as [[r1|msg| |] s2]; try reflexivity.
    cbn [fst snd ret].
    now destruct (backup_files_loop _ _ _ _ _ _ _ _ (fst r1) l2 s2)
      as [[r2|msg| |] s3].
Qed.


Lemma backup_files_unfold from_root to_root files prev_files lsn prefix s :
  backup_files pf w patience from_root to_root files prev_files lsn prefix s
  = match backup_files_loop pf w patience from_root to_root prev_files lsn
            prefix (w_clock w (now s))
            (parray_qsort pgFileComparePath files)
            (advance s [Enter F_backup_files; Ext X_gettimeofday] 1) with
    | (Ok r, s2) => (Ok (snd r), jump s2 [Leave F_backup_files] (now s2))
    | (Fatal msg, s2) => (Fatal msg, s2)
    | (Hang, s2) => (Hang, s2)
    | (Crash, s2) => (Crash, s2)
    end.
Proof.
  unfold backup_files, call, gettimeofday, sys, answer.
  unfold bind, emit, tick, get, modify, ret, advance, jump, with_trace, with_now.
  cbn [current in_backup server_version connected backup_files_list
       atexit_stack now trace Nat.pred].
  rewrite <- app_assoc. cbn [app].
  replace (now s + 1)%nat with (S (now s)) by lia.
  now destruct (backup_files_loop _ _ _ _ _ _ _ _ _ _ _) as [[r|msg| |] s2].
Qed.


(** C10: with the file list of the previous backup, in ascending order of
    path as the list file is kept, and no snapshot prefix, a regular file
    whose path is in that list with the same modification time is not
    copied: the round only looks at the file, sets its write size to
    [BYTES_INVALID] and leaves [tv] as it is, whatever its page map holds,
    and the loop goes on with the next file. *)
Theorem backup_files_skips_unchanged (from_root to_root : string)
  (prev_files : list pgFile) (lsn : option Z) (tv : timeval)
  (file prev : pgFile) (rest : list pgFile) (buf : struct_stat) (s : State) :
  StronglySorted (λ a b, pgFileComparePath a b = Lt) prev_files →
  prev ∈ prev_files →
  path prev = path file →
  mtime prev = mtime file →
  mtime file ≤ tv_sec tv →
  w_interrupted w (now s) = false →
  w_stat w (now s + 1) (path file) = StatOk buf →
  S_ISREG (st_mode buf) = true →
  let s2 := advance s [Ext (X_stat (path file))] 2 in
  backup_files_step pf w patience from_root to_root (Some prev_files) lsn
    None tv file s
  = (Ok (tv, set_write_size file BYTES_INVALID), s2)
  ∧ backup_files_loop pf w patience from_root to_root (Some prev_files) lsn
      None tv (file :: rest) s
    = match backup_files_loop pf w patience from_root to_root
              (Some prev_files) lsn None tv rest s2 with
      | (Ok r, s3) =>
          (Ok (fst r, set_write_size file BYTES_INVALID :: snd r), s3)
      | (Fatal msg, s3) => (Fatal msg, s3)
      | (Hang, s3) => (Hang, s3)
      | (Crash, s3) => (Crash, s3)
      end.
Proof.
  intros Hsorted Hin Hpath Hmtime Htv Hintr Hstat Hreg s2.
  assert (Hstep :
    backup_files_step pf w patience from_root to_root (Some prev_files) lsn
      None tv file s
    = (Ok (tv, set_write_size file BYTES_INVALID), s2)).
  { assert (S_ISDIR (st_mode buf) = false) as Hdir.
    { unfold S_ISREG, S_ISDIR in *. apply Z.eqb_eq in Hreg.
      rewrite Hreg. reflexivity. }
    pose proof (parray_bsearch_path prev_files file prev Hsorted Hin Hpath)
      as Hfind.
    assert (wp (backup_files_step pf w patience from_root to_root
                  (Some prev_files) lsn None tv file)
               (λ r s', r = Ok (tv, set_write_size file BYTES_INVALID) ∧
                        s' = s2) s) as Hwp.
    { replace (now s + 1)%nat with (S (now s)) in Hstat by lia.
      unfold backup_files_step, find_prev_file.
      rewrite Hfind, Hmtime, Z.eqb_refl.
      repeat (first [ rewrite Hintr | rewrite Hstat | rewrite Hdir
                    | rewrite Hreg | wp_step ]);
        bool_facts; try lia.
      split; [reflexivity|]. unfold s2, advance. f_equal. lia. }
    unfold wp in Hwp.
    destruct (backup_files_step _ _ _ _ _ _ _ _ tv file s) as [r s'].
    cbn [fst snd] in Hwp. destruct Hwp as [-> ->]. reflexivity. }
  split; [exact Hstep|].
  cbn [backup_files_loop]. unfold bind at 1. rewrite Hstep.
  unfold bind. cbn [fst snd].
  now destruct (backup_files_loop _ _ _ _ _ _ _ _ tv rest s2)
    as [[r|msg| |] s3].
Qed.

End CopierFacts.

(** ** Routines only add to the history *)

Lemma grows_ret {A} (a : A) : grows (ret a).
Proof. intros s. exists []. cbn. now rewrite app_nil_r. Qed.

Lemma grows_elog {A} msg : grows (@elog_ERROR A msg).
Proof. intros s. exists []. cbn. now rewrite app_nil_r. Qed.

Lemma grows_hang {A} : grows (@hang A).
Proof. intros s. exists []. cbn. now rewrite app_nil_r. Qed.

Lemma grows_crash {A} : grows (@crash A).
Proof. intros s. exists []. cbn. now rewrite app_nil_r. Qed.

Lemma grows_get {A} (g : State → A) : grows (get g).
Proof. intros s. exists []. cbn. now rewrite app_nil_r. Qed.

Lemma grows_modify (f : State → State) :
  (∀ s, trace (f s) = trace s) → grows (modify f).
Proof. intros Hf s. exists []. cbn. now rewrite Hf, app_nil_r. Qed.

Lemma grows_emit e : grows (emit e).
Proof. intros s. now exists [e]. Qed.

Lemma grows_bind {A B} (m : M A) (f : A → M B) :
  grows m → (∀ a, grows (f a)) → grows (bind m f).
Proof.
  intros Hm Hf s. unfold bind.
  destruct (Hm s) as [tr1 H1].
  destruct (m s) as [[a|msg| |] s1]; cbn [snd] in *; eauto.
  destruct (Hf a s1) as [tr2 H2].
  exists (tr1 ++ tr2). now rewrite H2, H1, app_assoc.
Qed.

Lemma grows_wp {A} (m : M A) s :
  grows m → wp m (λ _ s', ∃ tr, trace s' = trace s ++ tr) s.
Proof. intros Hm. exact (Hm s). Qed.

Lemma wp_of_grows {A} (m : M A) K s :
  grows m →
  (∀ r s', (∃ tr, trace s' = trace s ++ tr) → K r s') →
  wp m K s.
Proof. intros Hm HK. apply HK. exact (Hm s). Qed.

Lemma wp_grows {A} (m : M A) (P : event → Prop) :
  (∀ s, wp m (λ _ s', ∃ n' tr, s' = jump s tr n' ∧ Forall P tr) s) →
  grows m.
Proof.
  intros H s. destruct (H s) as (n' & tr & Hs & _).
  exists tr. now rewrite Hs.
Qed.

Ltac grows_tac loops :=
  repeat first
    [ apply grows_bind; [|intros ?]
    | apply grows_ret
    | apply grows_get
    | apply grows_modify; reflexivity
    | apply grows_emit
    | apply grows_elog
    | apply grows_hang
    | apply grows_crash
    | loops
    | lazymatch goal with
      | |- grows (if ?b then _ else _) => destruct b
      | |- grows (match ?x with _ => _ end) => destruct x
      | |- grows (let _ := _ in _) => cbv zeta
      | |- grows ?m => let h := head_of m in unfold h
      end ].

(** ** The order of a database backup *)

Lemma run_app step q tr1 tr2 :
  run step q (tr1 ++ tr2) =
  match run step q tr1 with
  | Some q' => run step q' tr2
  | None => None
  end.
Proof.
  revert q. induction tr1 as [|e tr1 IH]; intros q; [reflexivity|].
  cbn [app run]. destruct (step q e); [apply IH | reflexivity].
Qed.

Lemma run_loop step q (P : event → Prop) tr :
  (∀ e, P e → step q e = Some q) →
  Forall P tr → run step q tr = Some q.
Proof.
  intros Hself. induction 1 as [|e tr He _ IH]; [reflexivity|].
  cbn [run]. now rewrite (Hself e He).
Qed.

Lemma run_polls diff lower q tr :
  poll_phase q = true →
  Forall poll_event tr → run (delta diff lower) q tr = Some q.
Proof.
  intros Hq. apply run_loop.
  intros [| |c|]; try contradiction.
  destruct c; try contradiction; intros _; destruct q; try discriminate;
    reflexivity.
Qed.

Lemma run_copies diff lower files tr :
  Forall (copy_event_ok files lower) tr →
  run (delta diff lower) P_copying tr = Some P_copying.
Proof.
  apply run_loop.
  intros [| |c|]; try contradiction.
  destruct c; try contradiction; cbn [copy_event_ok delta]; try reflexivity.
  intros [-> _]. now rewrite bool_decide_eq_true_2.
Qed.

Lemma run_precedes step (flag : phase → bool) (a b : event → bool) :
  (∀ q e q', step q e = Some q' → flag q = false → b e = false) →
  (∀ q e q', step q e = Some q' → flag q = false → flag q' = true →
     a e = true) →
  ∀ tr q q', run step q tr = Some q' → flag q = false → precedes a b tr.
Proof.
  intros Hb Ha. induction tr as [|e0 tr IH]; intros q q' Hrun Hflag i e Hi He.
  - now rewrite lookup_nil in Hi.
  - cbn [run] in Hrun. destruct (step q e0) as [q1|] eqn:Hstep; [|discriminate].
    destruct i as [|i]; cbn in Hi.
    + injection Hi as ->. rewrite (Hb _ _ _ Hstep Hflag) in He. discriminate.
    + destruct (flag q1) eqn:Hflag1.
      * exists 0%nat, e0. split; [lia|]. split; [reflexivity|]. eauto.
      * destruct (IH q1 q' Hrun Hflag1 i e Hi He) as (j & e' & Hj & Hl & Hae).
        exists (S j), e'. split; [lia|]. split; [exact Hl | exact Hae].
Qed.

Lemma run_flagged step (flag : phase → bool) (b : event → bool) :
  (∀ q e q', step q e = Some q' → flag q = true →
     flag q' = true ∧ b e = false) →
  ∀ tr q q', run step q tr = Some q' → flag q = true →
    ∀ j e, tr !! j = Some e → b e = false.
Proof.
  intros Hkeep. induction tr as [|e0 tr IH]; intros q q' Hrun Hflag j e Hj.
  - now rewrite lookup_nil in Hj.
  - cbn [run] in Hrun. destruct (step q e0) as [q1|] eqn:Hstep; [|discriminate].
    destruct (Hkeep _ _ _ Hstep Hflag) as [Hflag1 Hb0].
    destruct j as [|j]; cbn in Hj.
    + now injection Hj as <-.
    + eapply IH; eauto.
Qed.

Lemma run_never_after step (flag : phase → bool) (a b : event → bool) :
  (∀ q e q', step q e = Some q' → a e = true → flag q' = true) →
  (∀ q e q', step q e = Some q' → flag q = true →
     flag q' = true ∧ b e = false) →
  ∀ tr q q', run step q tr = Some q' → never_after a b tr.
Proof.
  intros Hset Hkeep.
  induction tr as [|e0 tr IH]; intros q q' Hrun i j e e' Hi Ha Hj Hb Hlt.
  - now rewrite lookup_nil in Hi.
  - cbn [run] in Hrun. destruct (step q e0) as [q1|] eqn:Hstep; [|discriminate].
    destruct j as [|j]; [lia|]. cbn in Hj.
    destruct i as [|i]; cbn in Hi.
    + injection Hi as ->.
      pose proof (Hset _ _ _ Hstep Ha) as Hflag1.
      rewrite (run_flagged step flag b Hkeep tr q1 q' Hrun Hflag1 j e' Hj)
        in Hb.
      discriminate.
    + apply (IH q1 q' Hrun i j e e' Hi Ha Hj Hb). lia.
Qed.

Ltac delta_cases :=
  let Hstep := fresh "Hstep" in
  let q0 := fresh "q" in
  let e0 := fresh "e" in
  intros q0 e0 ? Hstep;
  destruct q0; destruct e0 as [[]|[]|[]|];
  cbn in Hstep |- *;
  repeat case_match; simplify_eq; cbn; auto;
  intros; simplify_eq; auto;
  repeat match goal with
  | H : String.eqb _ _ = true |- _ => apply String.eqb_eq in H; subst
  end;
  try (split; [reflexivity|]); reflexivity.

Lemma delta_lower diff lower q e q' :
  delta diff lower q e = Some q' → lower_bound_is lower e.
Proof.
  revert q e q'. intros q e q' Hstep.
  destruct e as [| |[]|]; cbn [lower_bound_is]; try exact I;
    destruct q; cbn in Hstep; repeat case_match; simplify_eq;
    match goal with
    | H : bool_decide _ = true |- _ => exact (bool_decide_eq_true_1 _ H)
    end.
Qed.

Lemma run_lower diff lower :
  ∀ tr q q', run (delta diff lower) q tr = Some q' →
    Forall (lower_bound_is lower) tr.
Proof.
  induction tr as [|e tr IH]; intros q q' Hrun; [constructor|].
  cbn [run] in Hrun.
  destruct (delta diff lower q e) as [q1|] eqn:Hstep; [|discriminate].
  constructor; [eapply delta_lower; eauto | eapply IH; eauto].
Qed.

Lemma run_no_status diff lower :
  ∀ tr q q', run (delta diff lower) q tr = Some q' →
    Forall (λ e, ∀ st, e ≠ Assign_status st) tr.
Proof.
  induction tr as [|e tr IH]; intros q q' Hrun; [constructor|].
  cbn [run] in Hrun.
  destruct (delta diff lower q e) as [q1|] eqn:Hstep; [|discriminate].
  constructor; [|eapply IH; eauto].
  intros st ->. destruct q; cbn in Hstep; discriminate.
Qed.

(** What acceptance by the monitor says about the order of events. *)
Lemma run_order diff lower tr q :
  run (delta diff lower) P_pre tr = Some q →
  precedes is_start_call is_dir_scan tr ∧
  precedes is_start_call is_switch_call tr ∧
  precedes is_switch_archived is_wal_scan tr ∧
  precedes is_copy_done (is_stop_call true) tr ∧
  never_after (is_stop_call true) is_copy_work tr ∧
  precedes is_stop_return is_manifest_write tr ∧
  never_after (is_stop_call false) is_later_work tr ∧
  precedes is_files_tagged is_switch_call tr.
Proof.
  intros Hrun. repeat split.
  - apply (run_precedes (delta diff lower) ph_started _ _) with (q := P_pre) (q' := q);
      [delta_cases | delta_cases | exact Hrun | reflexivity].
  - apply (run_precedes (delta diff lower) ph_started _ _) with (q := P_pre) (q' := q);
      [delta_cases | delta_cases | exact Hrun | reflexivity].
  - apply (run_precedes (delta diff lower) ph_switched _ _) with (q := P_pre) (q' := q);
      [delta_cases | delta_cases | exact Hrun | reflexivity].
  - apply (run_precedes (delta diff lower) ph_copied _ _) with (q := P_pre) (q' := q);
      [delta_cases | delta_cases | exact Hrun | reflexivity].
  - apply (run_never_after (delta diff lower) ph_stopping _ _) with (q := P_pre) (q' := q);
      [delta_cases | delta_cases | exact Hrun].
  - apply (run_precedes (delta diff lower) ph_stopped _ _) with (q := P_pre) (q' := q);
      [delta_cases | delta_cases | exact Hrun | reflexivity].
  - apply (run_never_after (delta diff lower) ph_abort _ _) with (q := P_pre) (q' := q);
      [delta_cases | delta_cases | exact Hrun].
  - apply (run_precedes (delta diff lower) ph_tagged _ _) with (q := P_pre) (q' := q);
      [delta_cases | delta_cases | exact Hrun | reflexivity].
Qed.

(** In a differential run the copy loop starts after the page scan. *)
Lemma run_order_diff lower tr q :
  run (delta true lower) P_pre tr = Some q →
  precedes is_wal_scan is_copy_start tr.
Proof.
  intros Hrun.
  apply (run_precedes (delta true lower) ph_mapped _ _)
    with (q := P_pre) (q' := q);
    [delta_cases | delta_cases | exact Hrun | reflexivity].
Qed.

Section Orchestration.
Variable pf : Platform.
Variable w : World.
Variable patience : nat.

Lemma wp_wait_for_archive_loop (n : nat) (p : string) :
  ∀ (c : Z) (s : State),
    wp (wait_for_archive_loop w n p c)
       (λ r s', ∃ n' tr, s' = jump s tr n' ∧ Forall poll_event tr) s.
Proof.
  induction n as [|n IH]; intros c s; cbn [wait_for_archive_loop].
  - apply wp_hang. exists (now s), []. now rewrite jump_same.
  - wp_run.
    + eexists _, _. split; [reflexivity|]. repeat constructor.
    + eexists _, _. split; [reflexivity|]. repeat constructor.
    + eapply wp_conseq; [apply IH|]. cbv beta.
      intros r s' (n' & tr & -> & Hev). norm_state.
      eexists _, _. split; [reflexivity|]. repeat constructor. exact Hev.
    + eexists _, _. split; [reflexivity|]. repeat constructor.
Qed.

Ltac box_loops :=
  lazymatch goal with
  | |- wp (wait_for_archive_loop _ _ _ _) _ _ =>
      wp_box wp_wait_for_archive_loop;
      match goal with
      | |- match ?r with _ => _ end => destruct r
      end;
      cbv beta iota; norm_state
  | |- wp (backup_files_loop _ _ _ _ _ _ _ _ _ _) _ _ =>
      wp_box (wp_backup_files_loop pf w patience);
      match goal with
      | |- match ?r with _ => _ end => destruct r
      end;
      cbv beta iota; norm_state
  end.

Ltac run_solve :=
  repeat first
    [ progress cbn [run delta wait_call andb]
    | rewrite String.eqb_refl
    | rewrite bool_decide_eq_true_2 by reflexivity
    | rewrite run_app
    | erewrite run_polls by (reflexivity || eassumption)
    | erewrite run_copies by eassumption ];
  try reflexivity.

Ltac norm_decide :=
  repeat match goal with
  | |- context [bool_decide (?a = ?b)] =>
      is_constructor a; is_constructor b;
      let v := eval vm_compute in (bool_decide (a = b)) in
      change (bool_decide (a = b)) with v
  end;
  cbv beta iota.

Ltac dbd_leaf :=
  first
    [ solve [simplify_eq]
    | simplify_eq;
      cbn [fmap option_fmap option_map];
      split; [repeat split; reflexivity|];
      eexists _, _; split; [reflexivity|];
      split; [run_solve | try (intros ? [=]); try (intros; reflexivity)] ].

Lemma do_backup_database_run backup_list smooth s :
  wp (do_backup_database pf w patience backup_list smooth)
     (λ r s',
        same_record s s' ∧
        ∃ tr q,
          trace s' = trace s ++ tr ∧
          run (delta (bool_decide (backup_mode (current s)
                                   = BACKUP_MODE_DIFF_PAGE))
                     (page_scan_lower w backup_list s)) P_pre tr = Some q ∧
          (∀ a, r = Ok a → q = P_end)) s.
Proof.
  unfold page_scan_lower, same_record.
  replace (now s + 2)%nat with (S (S (now s))) by lia.
  destruct s as [[m st tl l0 l1 t0 t1 db bs wbs rx rt] ib sv cn fl ax n t].
  cbn [current now trace in_backup atexit_stack backup_mode status end_time].
  destruct m; norm_decide.
  - repeat (first [box_loops | wp_step; norm_decide]).
    all: dbd_leaf.
  - repeat (first [box_loops | wp_step; norm_decide]).
    all: dbd_leaf.
  - repeat (first [box_loops | wp_step; norm_decide]).
    all: dbd_leaf.
Qed.

Lemma grows_wait_for_archive_loop n p c :
  grows (wait_for_archive_loop w n p c).
Proof. eapply wp_grows. intros s. apply wp_wait_for_archive_loop. Qed.

Lemma grows_backup_files_loop from_root to_root prev_files lsn prefix tv
  files :
  grows (backup_files_loop pf w patience from_root to_root prev_files lsn
           prefix tv files).
Proof.
  eapply wp_grows. intros s.
  apply (wp_backup_files_loop pf w patience).
Qed.

Ltac grows_loops :=
  first [ apply grows_wait_for_archive_loop | apply grows_backup_files_loop ].

(** The catalog lookup finds a record exactly when the list has a record
    that is DONE and FULL on the timeline. *)
Lemma catalog_get_last_data_backup_None backup_list tl :
  catalog_get_last_data_backup backup_list tl = None ↔
  ¬ ∃ b, b ∈ backup_list ∧ status b = BACKUP_STATUS_DONE ∧
         backup_mode b = BACKUP_MODE_FULL ∧ tli b = tl.
Proof.
  unfold catalog_get_last_data_backup.
  rewrite fmap_None, list_find_None, Forall_forall.
  unfold is_valid_parent. split.
  - intros Hall (b & Hb & Hst & Hm & Htl). apply (Hall b Hb).
    rewrite !bool_decide_eq_true_2 by assumption.
    now rewrite Htl, Z.eqb_refl.
  - intros Hno b Hb Hvalid. apply Hno. exists b.
    apply andb_prop in Hvalid as [Hvalid Htl].
    apply andb_prop in Hvalid as [Hst Hm].
    apply bool_decide_eq_true_1 in Hst, Hm. apply Z.eqb_eq in Htl. auto.
Qed.

Lemma catalog_get_last_data_backup_Some backup_list tl p :
  catalog_get_last_data_backup backup_list tl = Some p →
  p ∈ backup_list ∧ status p = BACKUP_STATUS_DONE ∧
  backup_mode p = BACKUP_MODE_FULL ∧ tli p = tl.
Proof.
  unfold catalog_get_last_data_backup.
  intros H. apply fmap_Some in H as ([i b] & Hfind & ->).
  apply list_find_Some in Hfind as (Hi & Hvalid & _).
  unfold is_valid_parent in Hvalid.
  apply andb_prop in Hvalid as [Hvalid Htl].
  apply andb_prop in Hvalid as [Hst Hm].
  apply bool_decide_eq_true_1 in Hst, Hm. apply Z.eqb_eq in Htl.
  split; [|auto]. eapply list_elem_of_lookup_2; eauto.
Qed.

(** C2: a differential run of [do_backup_database] that has got past the
    standby check, the sanity checks and the reading of the timeline ends,
    when the catalog has no DONE FULL record on that timeline, in the fatal
    error whose message says that no valid full backup was found, having
    done nothing but those checks; when there is such a record the run
    goes on to [pg_start_backup], and every page scan and every data-file
    copy of the run carries the start position of that record as lower
    bound. *)
Theorem do_backup_database_diff_parent (backup_list : list pgBackup)
  (smooth : bool) (s : State) (d : string) :
  pgdata w = Some d →
  backup_mode (current s) = BACKUP_MODE_DIFF_PAGE →
  marker_present w (now s) (d +:+ "/recovery.conf") = false →
  w_fail w (now s + 1) X_sanityChecks = None →
  w_fail w (now s + 2) X_get_current_timeline = None →
  let tl := w_timeline w (now s + 2) in
  let r := do_backup_database pf w patience backup_list smooth s in
  contains diff_parent_quote diff_parent_missing = true
  ∧ (catalog_get_last_data_backup backup_list tl = None ↔
     ¬ ∃ b, b ∈ backup_list ∧ status b = BACKUP_STATUS_DONE ∧
            backup_mode b = BACKUP_MODE_FULL ∧ tli b = tl)
  ∧ (catalog_get_last_data_backup backup_list tl = None →
     fst r = Fatal diff_parent_missing ∧
     trace (snd r) = trace s ++ parent_check_events d)
  ∧ (∀ p, catalog_get_last_data_backup backup_list tl = Some p →
     (p ∈ backup_list ∧ status p = BACKUP_STATUS_DONE ∧
      backup_mode p = BACKUP_MODE_FULL ∧ tli p = tl) ∧
     (∃ tr, trace (snd r) =
            trace s ++ parent_check_events d ++ Enter F_pg_start_backup :: tr)
     ∧ (∃ tr, trace (snd r) = trace s ++ tr ∧
              Forall (lower_bound_is (Some (start_lsn p))) tr)).
Proof.
  intros Hd Hmode Hstandby Hsanity Htimeline tl r.
  split; [vm_compute; reflexivity|].
  split; [apply catalog_get_last_data_backup_None|].
  subst tl r.
  replace (now s + 1)%nat with (S (now s)) in * by lia.
  replace (now s + 2)%nat with (S (S (now s))) in * by lia.
  split.
  - intros Hnone.
    assert (wp (do_backup_database pf w patience backup_list smooth)
              (λ r s', r = Fatal diff_parent_missing ∧
                       trace s' = trace s ++ parent_check_events d) s) as H.
    { unfold do_backup_database, call, pg_is_standby, get_pgdata,
        get_current_timeline.
      rewrite Hd.
      repeat (first [ rewrite Hstandby | rewrite Hsanity | rewrite Htimeline
                    | rewrite Hmode | rewrite Hnone
                    | wp_step; norm_decide ]).
      split; reflexivity. }
    exact H.
  - intros p Hsome. split; [now apply catalog_get_last_data_backup_Some|].
    split.
    + assert (wp (do_backup_database pf w patience backup_list smooth)
                (λ r s', ∃ tr, trace s' = trace s ++ parent_check_events d
                                 ++ Enter F_pg_start_backup :: tr) s) as H.
      { unfold do_backup_database, call, pg_is_standby, get_pgdata,
          get_current_timeline.
        rewrite Hd.
        do 40 (first [ rewrite Hstandby | rewrite Hsanity | rewrite Htimeline
                     | rewrite Hmode | rewrite Hsome
                     | lazymatch goal with
                       | |- wp (pg_start_backup _ _ _ _ _) _ _ => fail
                       | |- _ => wp_step; norm_decide
                       end
                     | idtac ]).
        unfold pg_start_backup, call.
        wp_step. wp_step.
        apply wp_of_grows; [grows_tac grows_loops|].
        intros r1 s1 (tr1 & Htr1). cbn [trace] in Htr1.
        assert (∀ s', (∃ tr, trace s' = trace s1 ++ tr) →
                  ∃ tr, trace s' = trace s ++ parent_check_events d
                                   ++ Enter F_pg_start_backup :: tr) as Hend.
        { intros s' (tr & Htr). rewrite Htr, Htr1.
          unfold parent_check_events. rewrite <- !app_assoc. cbn [app].
          eexists. reflexivity. }
        destruct r1; cbv beta iota;
          try (apply Hend; exists []; now rewrite app_nil_r).
        apply wp_of_grows; [grows_tac grows_loops|].
        intros r2 s2 (tr2 & Htr2).
        destruct r2; cbv beta iota; try (apply Hend; eauto; fail).
        apply Hend. exists (tr2 ++ [Leave F_do_backup_database]).
        cbn. now rewrite Htr2, app_assoc. }
      exact H.
    + pose proof (do_backup_database_run backup_list smooth s)
        as (_ & tr & q & Htr & Hrun & _).
      exists tr. split; [exact Htr|].
      unfold page_scan_lower in Hrun.
      rewrite Hmode in Hrun.
      rewrite bool_decide_eq_true_2 in Hrun by reflexivity.
      replace (now s + 2)%nat with (S (S (now s))) in Hrun by lia.
      rewrite Hsome in Hrun.
      exact (run_lower _ _ _ _ _ Hrun).
Qed.


(** C5 (amended): in a differential run the data directory is listed and
    its relation files tagged before the WAL switch is asked for; the
    switched WAL is archived before WAL is read, and WAL is read before
    the copy loop starts. *)
Theorem do_backup_database_diff_order (backup_list : list pgBackup)
  (smooth : bool) (s : State) :
  backup_mode (current s) = BACKUP_MODE_DIFF_PAGE →
  ∃ tr,
    trace (snd (do_backup_database pf w patience backup_list smooth s))
    = trace s ++ tr ∧
    precedes is_files_tagged is_switch_call tr ∧
    precedes is_switch_archived is_wal_scan tr ∧
    precedes is_wal_scan is_copy_start tr.
Proof.
  intros Hmode.
  pose proof (do_backup_database_run backup_list smooth s)
    as (_ & tr & q & Htr & Hrun & _).
  exists tr. split; [exact Htr|].
  pose proof (run_order _ _ _ _ Hrun) as (_ & _ & H3 & _ & _ & _ & _ & H8).
  rewrite Hmode in Hrun.
  rewrite bool_decide_eq_true_2 in Hrun by reflexivity.
  pose proof (run_order_diff _ _ _ Hrun) as H9.
  repeat split; assumption.
Qed.

(** ** The life of the backup record *)



Lemma notes_app tr1 tr2 : notes (tr1 ++ tr2) = notes tr1 ++ notes tr2.
Proof. apply omap_app. Qed.









End Orchestration.

(** * Runs on the sample installation *)

Lemma precedes_precedesb (a b : event → bool) :
  ∀ (tr : list event) (seen : bool),
    (∀ (i : nat) (e : event), tr !! i = Some e → b e = true →
       seen = true ∨
       ∃ (j : nat) (e' : event), (j < i)%nat ∧ tr !! j = Some e' ∧ a e' = true) →
    precedesb a b seen tr = true.
Proof.
  induction tr as [|e tr IH]; intros seen H; [reflexivity|].
  cbn [precedesb]. apply andb_true_iff. split.
  - destruct (b e) eqn:Hb; [|reflexivity].
    destruct (H 0%nat e eq_refl Hb) as [Hs|(j & e' & Hj & _)]; [exact Hs | lia].
  - apply IH. intros i e1 Hi Hb1.
    destruct (H (S i) e1 Hi Hb1) as [Hs|(j & e' & Hj & He' & Ha)].
    + left. now rewrite Hs.
    + destruct j as [|j].
      * left. injection He' as <-. rewrite Ha. apply orb_true_r.
      * right. exists j, e'. repeat split; [lia | exact He' | exact Ha].
Qed.

Lemma precedesb_false (a b : event → bool) (tr : list event) :
  precedesb a b false tr = false → ¬ precedes a b tr.
Proof.
  intros Hf Hp.
  rewrite (precedes_precedesb a b tr false) in Hf; [discriminate|].
  intros i e Hi Hb. right. exact (Hp i e Hi Hb).
Qed.

(** [process_block_change_spec] on block 131077 of the sample relation:
    block 5 of segment 1, whose file is the second of the list. *)
Lemma process_block_change_spec_witness :
  let seg0 := Sample.file "/pgdata/base/16384/16385" 990 in
  let seg1 := Sample.file "/pgdata/base/16384/16385.1" 990 in
  0 < RELSEG_SIZE Sample.platform
  ∧ 0 ≤ 131077 < 2 ^ 32
  ∧ process_block_change Sample.platform "/pgdata" MAIN_FORKNUM Sample.rel
      131077 [seg0; seg1]
    = <[ 1%nat := set_pagemap seg1
                    ({[ 131077 mod RELSEG_SIZE Sample.platform ]}
                     ∪ pagemap seg1) ]> [seg0; seg1].
Proof.
  intros seg0 seg1.
  assert (Hpos : 0 < RELSEG_SIZE Sample.platform) by reflexivity.
  assert (Hblk : 0 ≤ 131077 < 2 ^ 32) by (split; [lia | reflexivity]).
  split; [exact Hpos|]. split; [exact Hblk|].
  destruct (process_block_change_spec Sample.platform Hpos "/pgdata"
              MAIN_FORKNUM Sample.rel 131077 [seg0; seg1] Hblk)
    as [Hfound _].
  refine (proj1 (Hfound 1%nat seg1 eq_refl _ _)).
  - vm_compute. reflexivity.
  - intros i q Hi Hlt. destruct i as [|i]; [|lia].
    injection Hi as <-. vm_compute. discriminate.
Defined.

(** [wait_for_archive_polling] on a marker that is there at the first two
    looks and gone at the third. *)
Lemma wait_for_archive_polling_witness :
  let w := Sample.world true 20 None in
  let s := Sample.running BACKUP_MODE_FULL in
  let req :=
    wait_for_archive_request Sample.platform w false switch_xlog_sql
      (entered (F_wait_for_archive switch_xlog_sql) s) in
  let ready_path :=
    "/pgdata/pg_xlog/archive_status/000000010000000100000003.ready" in
  req = (Ok ready_path, snd req)
  ∧ wait_for_archive Sample.platform w false switch_xlog_sql s
    = (Ok tt,
       advance (snd req)
         (polls ready_path 2 ++
          [Ext (X_stat ready_path);
           Leave (F_wait_for_archive switch_xlog_sql)]) 7).
Proof.
  intros w s req ready_path.
  assert (Hreq : req = (Ok ready_path, snd req)) by (vm_compute; reflexivity).
  split; [exact Hreq|].
  destruct (wait_for_archive_polling Sample.platform w false switch_xlog_sql
              s (snd req) ready_path Hreq) as (_ & Hgone & _).
  apply (Hgone 2%nat).
  - lia.
  - intros k Hk. destruct k as [|[|k]]; [| |lia]; vm_compute; split; reflexivity.
  - vm_compute. reflexivity.
Defined.


(** [backup_files_skips_unchanged] on the sample relation file, unchanged
    since the previous backup, with a block in its page map. *)
Lemma backup_files_skips_unchanged_witness :
  let w := Sample.world true 0 None in
  let s := Sample.running BACKUP_MODE_DIFF_PAGE in
  let prev := Sample.file "/pgdata/base/16384/16385" 990 in
  let file := set_pagemap prev {[ 5 ]} in
  let prev_files := [Sample.file "/pgdata/PG_VERSION" 100; prev] in
  let tv := mkTv 1000 0 in
  backup_files_step Sample.platform w 5 "/pgdata" "/backup/1000/database"
    (Some prev_files) (Some 16777256) None tv file s
  = (Ok (tv, set_write_size file BYTES_INVALID),
     advance s [Ext (X_stat (path file))] 2).
Proof.
  intros w s prev file prev_files tv.
  refine (proj1 (backup_files_skips_unchanged Sample.platform w 5 "/pgdata"
                   "/backup/1000/database" prev_files (Some 16777256) tv
                   file prev [] (mkStat 33188) s _ _ _ _ _ _ _ _)).
  - repeat first [apply SSorted_nil | apply SSorted_cons
                 | apply List.Forall_nil | apply List.Forall_cons];
      vm_compute; reflexivity.
  - apply list_elem_of_further, list_elem_of_here.
  - reflexivity.
  - reflexivity.
  - vm_compute. discriminate.
  - reflexivity.
  - vm_compute. reflexivity.
  - reflexivity.
Defined.

(** [do_backup_database_diff_parent] on an empty catalog, where the run
    ends in the error, and on a catalog that holds the sample parent. *)
Lemma do_backup_database_diff_parent_witness :
  let w := Sample.world true 0 None in
  let s := Sample.running BACKUP_MODE_DIFF_PAGE in
  let r0 := do_backup_database Sample.platform w 5 [] false s in
  let r1 := do_backup_database Sample.platform w 5 [Sample.parent] false s in
  (pgdata w = Some "/pgdata"
   ∧ backup_mode (current s) = BACKUP_MODE_DIFF_PAGE
   ∧ marker_present w (now s) ("/pgdata" +:+ "/recovery.conf") = false
   ∧ w_fail w (now s + 1) X_sanityChecks = None
   ∧ w_fail w (now s + 2) X_get_current_timeline = None)
  ∧ (fst r0 = Fatal diff_parent_missing
     ∧ trace (snd r0) = trace s ++ parent_check_events "/pgdata")
  ∧ (∃ tr, trace (snd r1) = trace s ++ tr ∧
           Forall (lower_bound_is (Some (start_lsn Sample.parent))) tr).
Proof.
  intros w s r0 r1.
  assert (Hd : pgdata w = Some "/pgdata") by reflexivity.
  assert (Hmode : backup_mode (current s) = BACKUP_MODE_DIFF_PAGE)
    by reflexivity.
  assert (Hstandby :
    marker_present w (now s) ("/pgdata" +:+ "/recovery.conf") = false)
    by (vm_compute; reflexivity).
  assert (Hsanity : w_fail w (now s + 1) X_sanityChecks = None)
    by reflexivity.
  assert (Htimeline : w_fail w (now s + 2) X_get_current_timeline = None)
    by reflexivity.
  split; [repeat split; assumption|]. split.
  - destruct (do_backup_database_diff_parent Sample.platform w 5 [] false s
                "/pgdata" Hd Hmode Hstandby Hsanity Htimeline)
      as (_ & _ & Hnone & _).
    apply Hnone. reflexivity.
  - destruct (do_backup_database_diff_parent Sample.platform w 5
                [Sample.parent] false s "/pgdata" Hd Hmode Hstandby Hsanity
                Htimeline)
      as (_ & _ & _ & Hsome).
    destruct (Hsome Sample.parent eq_refl) as (_ & _ & Hlower).
    exact Hlower.
Defined.


(** [do_backup_database_diff_order] on the sample installation. *)
Lemma do_backup_database_diff_order_witness :
  let w := Sample.world true 0 None in
  let s := Sample.running BACKUP_MODE_DIFF_PAGE in
  backup_mode (current s) = BACKUP_MODE_DIFF_PAGE
  ∧ ∃ tr,
      trace (snd (do_backup_database Sample.platform w 5 [Sample.parent]
                    false s))
      = trace s ++ tr ∧
      precedes is_files_tagged is_switch_call tr ∧
      precedes is_switch_archived is_wal_scan tr ∧
      precedes is_wal_scan is_copy_start tr.
Proof.
  intros w s.
  assert (Hmode : backup_mode (current s) = BACKUP_MODE_DIFF_PAGE)
    by reflexivity.
  split; [exact Hmode|].
  exact (do_backup_database_diff_order Sample.platform w 5 [Sample.parent]
           false s Hmode).
Defined.

(** C5, as the claim states it, fails: in the differential run on the
    sample installation the data directory is listed and the relation
    files tagged with no WAL switch asked for and no WAL read before. *)
Lemma do_backup_database_scans_before_wal :
  let w := Sample.world true 0 None in
  let r := do_backup_database Sample.platform w 5 [Sample.parent] false
             (Sample.running BACKUP_MODE_DIFF_PAGE) in
  returned (fst r) = true
  ∧ ¬ precedes is_switch_call is_dir_scan (trace (snd r))
  ∧ ¬ precedes is_switch_archived is_add_files (trace (snd r))
  ∧ ¬ precedes is_wal_scan is_files_tagged (trace (snd r)).
Proof.
  intros w r. split; [vm_compute; reflexivity|].
  split; [|split]; apply precedesb_false; vm_compute; reflexivity.
Qed.




(** * Further properties of [backup.c] *)

(** ** The block-change sink, continued *)

Section BlockChangeMore.
Variable pf : Platform.

(** The loop and the update of [process_block_change], entry by entry. *)
Lemma process_block_change_cons pgdata forknum rnode blkno f files :
  process_block_change pf pgdata forknum rnode blkno (f :: files) =
  if decide (path f =
             pgdata +:+ "/" +:+
             datasegpath pf rnode forknum
               (wrap_u32 (wrap_i32 (blkno / RELSEG_SIZE pf))))
  then set_pagemap f ({[ blkno mod RELSEG_SIZE pf ]} ∪ pagemap f) :: files
  else f :: process_block_change pf pgdata forknum rnode blkno files.
Proof.
  unfold process_block_change. cbv zeta. cbn [list_find].
  case_decide as Hp; [reflexivity|].
  destruct (list_find _ files) as [[j p]|]; reflexivity.
Qed.

Lemma process_block_change_nil pgdata forknum rnode blkno :
  process_block_change pf pgdata forknum rnode blkno [] = [].
Proof. reflexivity. Qed.

Lemma pagemap_grown_refl f : pagemap_grown f f.
Proof. unfold pagemap_grown. repeat split; set_solver. Qed.

(** X1: [process_block_change] keeps the length and the order of the file
    list and every field of every entry but the page map, which it only
    adds to; at most one entry is changed. *)
Theorem process_block_change_frame (pgdata : string) (forknum : ForkNumber)
  (rnode : RelFileNode) (blkno : Z) (files : list pgFile) :
  let files' := process_block_change pf pgdata forknum rnode blkno files in
  Forall2 pagemap_grown files files'
  ∧ (∀ (i j : nat), files' !! i ≠ files !! i → files' !! j ≠ files !! j →
       i = j).
Proof.
  cbv zeta. split.
  - induction files as [|f files IH]; [constructor|].
    rewrite process_block_change_cons. case_decide.
    + constructor; [|apply Forall2_same_length_lookup_2; [reflexivity|];
                     intros i x y Hx Hy; simplify_eq; apply pagemap_grown_refl].
      unfold pagemap_grown; cbn. repeat split; set_solver.
    + constructor; [apply pagemap_grown_refl | exact IH].
  - unfold process_block_change. cbv zeta.
    destruct (list_find _ files) as [[k p]|]; [|intros i j Hi; done].
    intros i j Hi Hj.
    destruct (decide (k = i)) as [<-|Hki];
      [|rewrite list_lookup_insert_ne in Hi by exact Hki; done].
    destruct (decide (k = j)) as [<-|Hkj]; [reflexivity|].
    rewrite list_lookup_insert_ne in Hj by exact Hkj. done.
Qed.

(** X2: two block changes can be applied in either order, and a block change
    applied twice is the block change applied once: the page maps do not
    depend on the order in which the WAL records are read, nor on
    repetitions. *)
Theorem process_block_change_commutes (pgdata : string)
  (forknum1 forknum2 : ForkNumber) (rnode1 rnode2 : RelFileNode)
  (blkno1 blkno2 : Z) (files : list pgFile) :
  process_block_change pf pgdata forknum1 rnode1 blkno1
    (process_block_change pf pgdata forknum2 rnode2 blkno2 files)
  = process_block_change pf pgdata forknum2 rnode2 blkno2
      (process_block_change pf pgdata forknum1 rnode1 blkno1 files)
  ∧ process_block_change pf pgdata forknum1 rnode1 blkno1
      (process_block_change pf pgdata forknum1 rnode1 blkno1 files)
    = process_block_change pf pgdata forknum1 rnode1 blkno1 files.
Proof.
  split.
  - induction files as [|f files IH]; [reflexivity|].
    rewrite !(process_block_change_cons _ _ _ _ f).
    repeat case_decide;
      rewrite !process_block_change_cons; cbn [path set_pagemap];
      repeat case_decide; try done.
    + unfold set_pagemap; cbn. f_equal. f_equal. set_solver.
    + now rewrite IH.
  - induction files as [|f files IH]; [reflexivity|].
    rewrite !(process_block_change_cons _ _ _ _ f).
    case_decide; rewrite process_block_change_cons; cbn [path set_pagemap];
      case_decide; try done.
    + unfold set_pagemap; cbn. f_equal. f_equal. set_solver.
    + now rewrite IH.
Qed.

End BlockChangeMore.

(** ** Results of statements *)




(** ** The check of the server *)

Section ServerCheck.
Variable pf : Platform.
Variable w : World.

Lemma setting_is_intro (res : option PGresult) (n : Z) (endp : string)
  (blcksz : Z) :
  negb match res with
       | Some r => (ntuples r =? 1) && (nfields r =? 1)
       | None => false
       end = false →
  strtol pf (from_option value00 EmptyString res) = (n, endp) →
  negb (String.eqb endp EmptyString) || negb (wrap_i32 n =? blcksz) = false →
  setting_is pf res blcksz.
Proof.
  intros Hshape Hparse Hok.
  destruct res as [r|]; [|discriminate].
  apply negb_false_iff, andb_true_iff in Hshape as [Ht Hf].
  apply orb_false_iff in Hok as [He Hn].
  apply negb_false_iff, String.eqb_eq in He. subst endp.
  apply negb_false_iff in Hn.
  exists r, n. bool_facts. auto.
Qed.

Lemma check_server_version_cached (s : State) :
  0 < server_version s →
  check_server_version pf w s
  = (Ok tt,
     advance s [Enter F_check_server_version; Leave F_check_server_version]
       0).
Proof.
  intros Hsv. unfold check_server_version, call, bind, emit, modify, get, ret.
  cbn [server_version with_trace].
  apply Z.ltb_lt in Hsv. rewrite Hsv.
  unfold advance, with_trace. cbn.
  now rewrite Nat.add_0_r, <- app_assoc.
Qed.

Lemma wp_check_server_version (s : State) :
  wp (check_server_version pf w)
     (λ r s',
        current s' = current s ∧ in_backup s' = in_backup s ∧
        atexit_stack s' = atexit_stack s ∧
        backup_files_list s' = backup_files_list s ∧
        (r = Ok tt →
           connected s' = connected s ∧
           (server_version s ≤ 0 →
              let k := if connected s then 0%nat else 1%nat in
              server_version s' = PG_VERSION_NUM pf ∧
              w_server_version w (now s + k) = PG_VERSION_NUM pf ∧
              setting_is pf (w_result w (now s + k + 1)) (BLCKSZ pf) ∧
              setting_is pf (w_result w (now s + k + 2)) (XLOG_BLCKSZ pf))))
     s.
Proof.
  destruct s as [cur ib sv cn fl ax n t].
  unfold check_server_version, confirm_block_size, call, reconnect,
    disconnect, execute, when, PQerrorMessage.
  cbn [current in_backup atexit_stack backup_files_list connected
       server_version now].
  destruct cn; cbn [negb];
    repeat wp_step;
    try match goal with
        | H : negb ?b = _ |- _ =>
            is_constructor b; cbn in H; discriminate H
        end;
    (split; [reflexivity|]); (split; [reflexivity|]);
    (split; [reflexivity|]); (split; [reflexivity|]);
    try (intros [=]; fail);
    intros _; (split; [reflexivity|]); intros Hle;
    try (bool_facts; lia).
  all: cbn [Nat.add] in *;
    replace (n + 0)%nat with n by lia;
    replace (n + 1)%nat with (S n) by lia;
    replace (n + 2)%nat with (S (S n)) by lia;
    replace (S n + 1)%nat with (S (S n)) by lia;
    replace (S n + 2)%nat with (S (S (S n))) by lia.
  all: repeat split;
    first [ eapply setting_is_intro; eassumption
          | match goal with
            | H : negb (_ =? _) = false |- _ = _ =>
                apply negb_false_iff, Z.eqb_eq in H; exact H
            end ].
Qed.

(** X4: once [check_server_version] has returned, a later call returns at once
    without a word to the server; and a call that returns leaves the
    connection as it found it, open or closed, and the record untouched. *)
Theorem check_server_version_once (s s1 : State) :
  0 < PG_VERSION_NUM pf →
  check_server_version pf w s = (Ok tt, s1) →
  check_server_version pf w s1
  = (Ok tt,
     advance s1 [Enter F_check_server_version; Leave F_check_server_version]
       0)
  ∧ connected s1 = connected s
  ∧ current s1 = current s.
Proof.
  intros Hpos Hrun.
  pose proof (wp_check_server_version s) as H. unfold wp in H.
  rewrite Hrun in H. cbn [fst snd] in H.
  destruct H as (Hcur & _ & _ & _ & Hok).
  destruct (Hok eq_refl) as [Hconn Hfirst].
  split; [|split; assumption].
  apply check_server_version_cached.
  destruct (Z.lt_ge_cases 0 (server_version s)) as [Hgt|Hle].
  - rewrite (check_server_version_cached s Hgt) in Hrun.
    injection Hrun as <-. exact Hgt.
  - destruct (Hfirst Hle) as [-> _]. exact Hpos.
Qed.

(** X5: a first call of [check_server_version] returns only if the server has
    reported the version the program was built for and, for [block_size]
    and [wal_block_size], one cell each that reads in full as the number
    the program was built with. *)
Theorem check_server_version_sound (s s1 : State) :
  server_version s ≤ 0 →
  check_server_version pf w s = (Ok tt, s1) →
  let k := if connected s then 0%nat else 1%nat in
  w_server_version w (now s + k) = PG_VERSION_NUM pf
  ∧ setting_is pf (w_result w (now s + k + 1)) (BLCKSZ pf)
  ∧ setting_is pf (w_result w (now s + k + 2)) (XLOG_BLCKSZ pf).
Proof.
  intros Hle Hrun.
  pose proof (wp_check_server_version s) as H. unfold wp in H.
  rewrite Hrun in H. cbn [fst snd] in H.
  destruct H as (_ & _ & _ & _ & Hok).
  destruct (Hok eq_refl) as [_ Hfirst].
  destruct (Hfirst Hle) as (_ & Hv & Hb & Hx).
  cbv zeta. auto.
Qed.

End ServerCheck.

(** [check_server_version_once] and [check_server_version_sound] on the
    sample installation. *)
Lemma check_server_version_once_witness :
  let w := Sample.world true 0 None in
  let s := start_state (Sample.record BACKUP_MODE_FULL) in
  let s1 := snd (check_server_version Sample.platform w s) in
  0 < PG_VERSION_NUM Sample.platform
  ∧ check_server_version Sample.platform w s = (Ok tt, s1)
  ∧ check_server_version Sample.platform w s1
    = (Ok tt,
       advance s1
         [Enter F_check_server_version; Leave F_check_server_version] 0)
  ∧ connected s1 = false.
Proof.
  intros w s s1.
  assert (Hpos : 0 < PG_VERSION_NUM Sample.platform) by reflexivity.
  assert (Hrun : check_server_version Sample.platform w s = (Ok tt, s1))
    by (vm_compute; reflexivity).
  split; [exact Hpos|]. split; [exact Hrun|].
  destruct (check_server_version_once Sample.platform w s s1 Hpos Hrun)
    as (Hagain & Hconn & _).
  split; [exact Hagain | exact Hconn].
Defined.

(** X5 on the sample installation. *)
Lemma check_server_version_sound_witness :
  let w := Sample.world true 0 None in
  let s := start_state (Sample.record BACKUP_MODE_FULL) in
  let s1 := snd (check_server_version Sample.platform w s) in
  server_version s ≤ 0
  ∧ check_server_version Sample.platform w s = (Ok tt, s1)
  ∧ w_server_version w 1 = 100000
  ∧ setting_is Sample.platform (w_result w 2) 8192
  ∧ setting_is Sample.platform (w_result w 3) 8192.
Proof.
  intros w s s1.
  assert (Hle : server_version s ≤ 0) by (vm_compute; discriminate).
  assert (Hrun : check_server_version Sample.platform w s = (Ok tt, s1))
    by (vm_compute; reflexivity).
  split; [exact Hle|]. split; [exact Hrun|].
  exact (check_server_version_sound Sample.platform w s s1 Hle Hrun).
Defined.

(** ** The archive wait, continued *)

Section ArchiveRecord.
Variable pf : Platform.
Variable w : World.

Lemma wp_wait_for_archive_request (backup : bool) (sql : string) (s : State) :
  wp (wait_for_archive_request pf w backup sql)
     (λ r s',
        same_statics s s' ∧ same_but_stop (current s) (current s') ∧
        (backup = false → current s' = current s) ∧
        (∃ tr, trace s' = trace s ++ tr) ∧
        ∀ p, r = Ok p →
          connected s' = false ∧
          (∃ d, pgdata w = Some d ∧
             p = ready_marker pf d (w_timeline w (now s + 3))
                   (lsn_of pf (w_result w (now s + 2)))) ∧
          (backup = true →
             tli (current s') = w_timeline w (now s + 3) ∧
             stop_lsn (current s') = lsn_of pf (w_result w (now s + 2)) ∧
             sscanf_u pf (from_option value00 EmptyString
                            (w_result w (now s + 4)))
             = Some (recovery_xid (current s')) ∧
             recovery_time (current s') = tv_sec (w_clock w (now s + 5))))
     s.
Proof.
  destruct s as [[m st tl l0 l1 t0 t1 db bs wbs rx rt] ib sv cn fl ax n t].
  unfold same_statics, same_but_stop, ready_marker, lsn_of.
  cbn [current in_backup atexit_stack backup_files_list connected
       server_version now trace].
  replace (n + 2)%nat with (S (S n)) by lia.
  replace (n + 3)%nat with (S (S (S n))) by lia.
  replace (n + 4)%nat with (S (S (S (S n)))) by lia.
  replace (n + 5)%nat with (S (S (S (S (S n))))) by lia.
  unfold wait_for_archive_request, get_lsn, get_xid, get_pgdata,
    get_current_timeline, reconnect, disconnect, execute, when,
    PQerrorMessage, set_current.
  destruct backup; repeat wp_step.
  all: (split; [repeat split; reflexivity|]);
       (split; [repeat split; reflexivity|]);
       (split; [first [solve [intros [=]] | intros _; reflexivity]|]);
       (split; [eexists; reflexivity|]);
       try (intros ? [=]; fail).
  all: intros p [= <-]; (split; [reflexivity|]);
       (split; [eexists; split; [reflexivity|]|]).
  all: first [ reflexivity | solve [intros [=]]
             | intros _; repeat split; reflexivity ].
Qed.

Lemma wp_wait_for_archive_loop_last (n : nat) (p : string) :
  ∀ (c : Z) (s : State),
    wp (wait_for_archive_loop w n p c)
       (λ r s', ∃ n' tr, s' = jump s tr n' ∧
          ∀ c', r = Ok c' → ∃ tr', tr = tr' ++ [Ext (X_stat p)]) s.
Proof.
  induction n as [|n IH]; intros c s; cbn [wait_for_archive_loop].
  - apply wp_hang. exists (now s), []. rewrite jump_same.
    split; [reflexivity | intros ? [=]].
  - wp_run.
    + eexists _, _. split; [reflexivity | intros ? [=]].
    + eexists _, _. split; [reflexivity | intros ? [=]].
    + eapply wp_conseq; [apply IH|]. cbv beta.
      intros r s' (n' & tr & -> & Hlast). norm_state.
      eexists _, _. split; [reflexivity|].
      intros c' Hc'. destruct (Hlast c' Hc') as [tr' ->].
      exists (Ext (X_stat p) :: Ext (X_sleep 1) :: tr'). reflexivity.
    + eexists _, _. split; [reflexivity|].
      intros c' _. now exists [].
Qed.

(** X7: [wait_for_archive] leaves alone the statics of [backup.c] and, in the
    record, everything but the timeline, the stop position, the recovery
    xid and the recovery time; called with [NULL], as [backup_cleanup]
    does, it leaves the whole record alone.  When it returns, the
    connection is closed, the last thing it has done is a look at the
    [.ready] marker of the segment that holds the position the statement
    returned, on the timeline of the control file, and, called with a
    record, that position and that timeline are the ones it has stored in
    the record, with the xid the server gave and the time of the clock. *)
Theorem wait_for_archive_record (backup : bool) (sql : string) (s : State) :
  let r := wait_for_archive pf w backup sql s in
  let tl := w_timeline w (now s + 3) in
  let lsn := lsn_of pf (w_result w (now s + 2)) in
  same_statics s (snd r)
  ∧ same_but_stop (current s) (current (snd r))
  ∧ (backup = false → current (snd r) = current s)
  ∧ (fst r = Ok tt →
       connected (snd r) = false
       ∧ (∃ d tr, pgdata w = Some d ∧
            trace (snd r) =
            trace s ++ tr ++ [Ext (X_stat (ready_marker pf d tl lsn));
                              Leave (F_wait_for_archive sql)])
       ∧ (backup = true →
            tli (current (snd r)) = tl ∧
            stop_lsn (current (snd r)) = lsn ∧
            sscanf_u pf (from_option value00 EmptyString
                           (w_result w (now s + 4)))
            = Some (recovery_xid (current (snd r))) ∧
            recovery_time (current (snd r))
            = tv_sec (w_clock w (now s + 5)))).
Proof.
  cbv zeta.
  pose proof (wp_wait_for_archive_request backup sql
                (entered (F_wait_for_archive sql) s)) as Hreq.
  unfold wp in Hreq.
  rewrite (wait_for_archive_unfold pf w).
  destruct (wait_for_archive_request pf w backup sql
              (entered (F_wait_for_archive sql) s)) as [[p|msg| |] s1];
    cbn [fst snd] in Hreq;
    destruct Hreq as (Hst & Hrec & Hnull & [tr1 Htr1] & Hok);
    unfold entered, with_trace in Hst, Hrec, Hnull, Htr1, Hok;
    unfold same_statics, same_but_stop in *;
    cbn [current in_backup server_version backup_files_list
         atexit_stack now trace] in Hst, Hrec, Hnull, Htr1, Hok;
    try (cbn [fst snd]; (split; [exact Hst|]); (split; [exact Hrec|]);
         (split; [exact Hnull|]); intros [=]; fail).
  pose proof (wp_wait_for_archive_loop_last 12 p 0 s1) as Hloop.
  unfold wp in Hloop.
  destruct (wait_for_archive_loop w 12 p 0 s1) as [[c|msg| |] s2];
    cbn [fst snd] in Hloop;
    destruct Hloop as (n' & tr2 & -> & Hlast);
    try (unfold jump;
         cbn [fst snd current in_backup server_version
              backup_files_list atexit_stack];
         (split; [exact Hst|]); (split; [exact Hrec|]);
         (split; [exact Hnull|]); intros [=]; fail).
  destruct (Hlast c eq_refl) as [tr' ->].
  destruct (Hok p eq_refl) as (Hconn & (d & Hd & ->) & Hfields).
  unfold jump, advance.
  cbn [fst snd current in_backup server_version connected
       backup_files_list atexit_stack trace].
  (split; [exact Hst|]); (split; [exact Hrec|]); (split; [exact Hnull|]).
  intros _. split; [exact Hconn|]. split; [|exact Hfields].
  exists d, (Enter (F_wait_for_archive sql) :: tr1 ++ tr').
  split; [exact Hd|]. rewrite Htr1.
  rewrite <- !app_assoc. cbn [app]. rewrite <- !app_assoc. reflexivity.
Qed.

End ArchiveRecord.

(** ** The copier, continued *)

Ltac box_next_second :=
  lazymatch goal with
  | |- wp (wait_next_second _ _ _ _) _ _ =>
      eapply wp_conseq;
      [ apply wp_wait_next_second
      | cbv beta; intros ? ? (? & ? & -> & ? & ?) ];
      match goal with
      | H : match ?r with _ => _ end |- _ => destruct r; try contradiction
      end;
      cbv beta iota; norm_state
  end.

Section CopierMore.
Variable pf : Platform.
Variable w : World.
Variable patience : nat.

Lemma backup_files_step_entry from_root to_root prev_files lsn prefix tv
  file s :
  wp (backup_files_step pf w patience from_root to_root prev_files lsn
        prefix tv file)
     (λ r _, ∀ x, r = Ok x → sizes_apart file (snd x)) s.
Proof.
  unfold backup_files_step, copy_routine.
  repeat (first [box_next_second | wp_step]).
  all: try (intros ? [=]; fail).
  all: intros ? [= <-]; cbn [snd]; unfold sizes_apart;
    try match goal with
        | H : match w_copy w ?n with _ => _ end = Some _ |- _ =>
            destruct (w_copy w n) as [[? ?]|]; [|discriminate H];
            injection H as <-
        end;
    repeat split.
Qed.

Lemma backup_files_loop_entries from_root to_root prev_files lsn prefix
  files :
  ∀ tv s r s',
    backup_files_loop pf w patience from_root to_root prev_files lsn prefix
      tv files s = (Ok r, s') →
    Forall2 sizes_apart files (snd r).
Proof.
  induction files as [|file rest IH]; intros tv s r s' Hrun.
  - cbn in Hrun. injection Hrun as <- _. constructor.
  - cbn [backup_files_loop] in Hrun. unfold bind at 1 in Hrun.
    pose proof (backup_files_step_entry from_root to_root prev_files lsn
                  prefix tv file s) as Hstep.
    unfold wp in Hstep.
    destruct (backup_files_step _ _ _ _ _ _ _ _ tv file s)
      as [[x|msg| |] s1]; try discriminate.
    cbn [fst snd] in Hstep. specialize (Hstep x eq_refl).
    unfold bind at 1 in Hrun.
    destruct (backup_files_loop _ _ _ _ _ _ _ _ (fst x) rest s1)
      as [[r1|msg| |] s2] eqn:Hrest; try discriminate.
    cbn in Hrun. injection Hrun as <- _. cbn [snd].
    constructor; [exact Hstep|]. exact (IH _ _ _ _ Hrest).
Qed.

(** X8: [backup_files] returns the entries it was given, in ascending order
    of path, none added and none dropped; of an entry it changes nothing
    but the two sizes. *)
Theorem backup_files_keeps_entries (from_root to_root : string)
  (files : list pgFile) (prev_files : option (list pgFile))
  (lsn : option Z) (prefix : option string) (s s' : State)
  (copied : list pgFile) :
  backup_files pf w patience from_root to_root files prev_files lsn prefix s
  = (Ok copied, s') →
  Forall2 sizes_apart (parray_qsort pgFileComparePath files) copied
  ∧ length copied = length files
  ∧ map path copied ≡ₚ map path files.
Proof.
  intros Hrun. rewrite (backup_files_unfold pf w) in Hrun.
  destruct (backup_files_loop _ _ _ _ _ _ _ _ _ _ _)
    as [[r|msg| |] s2] eqn:Hloop; try discriminate.
  injection Hrun as <- _.
  pose proof (backup_files_loop_entries _ _ _ _ _ _ _ _ _ _ Hloop) as Hall.
  split; [exact Hall|].
  assert (Hsort : parray_qsort pgFileComparePath files ≡ₚ files)
    by apply merge_sort_Permutation.
  assert (Hpaths : map path (snd r)
                   = map path (parray_qsort pgFileComparePath files)).
  { clear -Hall. induction Hall as [|f f' l l' Hf _ IH]; [reflexivity|].
    cbn [map]. f_equal; [apply Hf | exact IH]. }
  split.
  - rewrite <- (Forall2_length _ _ _ Hall). now rewrite Hsort.
  - rewrite Hpaths. now rewrite Hsort.
Qed.

(** One round of the loop on a file that an interrupt finds waiting. *)
Lemma backup_files_loop_interrupted from_root to_root prev_files lsn prefix
  tv file rest s :
  mtime file ≤ tv_sec tv →
  w_interrupted w (now s) = true →
  backup_files_loop pf w patience from_root to_root prev_files lsn prefix
    tv (file :: rest) s = (Fatal backup_interrupted, advance s [] 1).
Proof.
  intros Hle Hintr. cbn [backup_files_loop]. unfold bind at 1.
  assert (wp (backup_files_step pf w patience from_root to_root prev_files
                lsn prefix tv file)
             (λ r s', r = Fatal backup_interrupted ∧ s' = advance s [] 1) s)
    as Hwp.
  { unfold backup_files_step.
    repeat (first [rewrite Hintr | wp_step]); bool_facts; try lia.
    split; [reflexivity|]. unfold advance. f_equal. lia. }
  unfold wp in Hwp.
  destruct (backup_files_step _ _ _ _ _ _ _ _ tv file s) as [r s1].
  cbn [fst snd] in Hwp. destruct Hwp as [-> ->]. reflexivity.
Qed.

(** X9: when the interrupt flag is up as the loop of [backup_files] comes to a
    file, the run ends with the interrupt error before the file is looked
    at: nothing is added to the history, so the file is neither looked at
    nor copied. *)
Theorem backup_files_interrupted (from_root to_root : string)
  (files : list pgFile) (prev_files : option (list pgFile))
  (lsn : option Z) (prefix : option string) (file : pgFile) :
  file ∈ files →
  ∃ before after,
    parray_qsort pgFileComparePath files = before ++ file :: after ∧
    ∀ (s s1 : State) (tv1 : timeval) (done : list pgFile),
      backup_files_loop pf w patience from_root to_root prev_files lsn
        prefix (w_clock w (now s)) before
        (advance s [Enter F_backup_files; Ext X_gettimeofday] 1)
      = (Ok (tv1, done), s1) →
      mtime file ≤ tv_sec tv1 →
      w_interrupted w (now s1) = true →
      backup_files pf w patience from_root to_root files prev_files lsn
        prefix s = (Fatal backup_interrupted, advance s1 [] 1).
Proof.
  intros Hin.
  apply (qsort_elem_of pgFileComparePath) in Hin.
  apply list_elem_of_split in Hin as (before & after & Hsplit).
  exists before, after. split; [exact Hsplit|].
  intros s s1 tv1 done Hbefore Hle Hintr.
  rewrite (backup_files_unfold pf w), Hsplit,
    (backup_files_loop_app pf w), Hbefore.
  cbn [fst]. now rewrite backup_files_loop_interrupted.
Qed.

(** X10: a file that is gone when the loop of [backup_files] comes to it
    ([stat] fails with [ENOENT]) does not end the run: it is recorded as
    skipped, with [BYTES_INVALID] as write size, and the loop goes on with
    the next file.  Any other failure of [stat] ends the run, with an error
    that names the file. *)
Theorem backup_files_vanished (from_root to_root : string)
  (prev_files : option (list pgFile)) (lsn : option Z)
  (prefix : option string) (tv : timeval) (file : pgFile)
  (rest : list pgFile) (e : Z) (s : State) :
  mtime file ≤ tv_sec tv →
  w_interrupted w (now s) = false →
  w_stat w (now s + 1) (path file) = StatErr e →
  let s2 := advance s [Ext (X_stat (path file))] 2 in
  backup_files_loop pf w patience from_root to_root prev_files lsn prefix
    tv (file :: rest) s
  = if e =? ENOENT then
      match backup_files_loop pf w patience from_root to_root prev_files
              lsn prefix tv rest s2 with
      | (Ok r, s3) =>
          (Ok (fst r, set_write_size file BYTES_INVALID :: snd r), s3)
      | (Fatal msg, s3) => (Fatal msg, s3)
      | (Hang, s3) => (Hang, s3)
      | (Crash, s3) => (Crash, s3)
      end
    else
      (Fatal ("can't stat backup mode. " +:+ dquote +:+ path file +:+ dquote
              +:+ ": " +:+ strerror pf e), s2).
Proof.
  intros Hle Hintr Hstat s2.
  replace (now s + 1)%nat with (S (now s)) in Hstat by lia.
  assert (wp (backup_files_step pf w patience from_root to_root prev_files
                lsn prefix tv file)
             (λ r s',
                r = (if e =? ENOENT
                     then Ok (tv, set_write_size file BYTES_INVALID)
                     else Fatal ("can't stat backup mode. " +:+ dquote +:+
                                 path file +:+ dquote +:+ ": " +:+
                                 strerror pf e))
                ∧ s' = s2) s) as Hwp.
  { unfold backup_files_step.
    repeat (first [rewrite Hintr | rewrite Hstat | wp_step]);
      bool_facts; try lia.
    all: split; [reflexivity|]; unfold s2, advance; f_equal; lia. }
  unfold wp in Hwp. cbn [backup_files_loop]. unfold bind at 1.
  destruct (backup_files_step _ _ _ _ _ _ _ _ tv file s) as [r s1].
  cbn [fst snd] in Hwp. destruct Hwp as [-> ->].
  destruct (e =? ENOENT); [|reflexivity].
  unfold bind. cbn [fst snd].
  now destruct (backup_files_loop _ _ _ _ _ _ _ _ tv rest s2)
    as [[r|msg| |] s3].
Qed.

Lemma clock_wait_no_copies tr :
  Forall clock_wait_event tr → copied_paths tr = [].
Proof.
  induction 1 as [|e tr He _ IH]; [reflexivity|].
  unfold copied_paths in *. cbn [omap list_omap]. rewrite IH.
  destruct e as [| |[]|]; try contradiction; reflexivity.
Qed.

Lemma clock_wait_dispatch_ok files lsn e :
  clock_wait_event e → dispatch_ok files lsn e.
Proof. destruct e as [| |[]|]; cbn; try contradiction; trivial. Qed.

Lemma dispatch_ok_mono files files' lsn e :
  (∀ f, f ∈ files → f ∈ files') →
  dispatch_ok files lsn e → dispatch_ok files' lsn e.
Proof.
  intros Hsub. destruct e as [| |[]|]; cbn; try tauto.
  - intros [-> (f & Hf & Hd & Hp)]. split; [reflexivity|]. eauto.
  - intros (f & Hf & Hd & Hp). eauto.
Qed.

Ltac dispatch_events :=
  repeat first
    [ apply Forall_nil
    | apply Forall_app; split
    | (eapply Forall_impl; [eassumption|];
       intros; apply clock_wait_dispatch_ok; assumption)
    | apply List.Forall_cons ];
  cbn [dispatch_ok];
  try exact I;
  try (split; [reflexivity|]);
  try (eexists; split; [apply list_elem_of_here|];
       split; [assumption | reflexivity]).

Lemma wp_backup_files_step_copy from_root to_root prev_files lsn prefix tv
  file s :
  wp (backup_files_step pf w patience from_root to_root prev_files lsn
        prefix tv file)
     (λ r s', ∃ n' tr, s' = jump s tr n' ∧
        (copied_paths tr = [] ∨ copied_paths tr = [path file]) ∧
        Forall (dispatch_ok [file] lsn) tr) s.
Proof.
  unfold backup_files_step, copy_routine.
  repeat (first [box_next_second | wp_step]).
  all: first
         [ exists (now s), []; split; [now rewrite jump_same|]
         | exists (now s), []; split;
           [destruct s; cbn; rewrite app_nil_r; reflexivity|]
         | eexists _, _; split; [reflexivity|] ].
  all: split; [|dispatch_events].
  all: repeat match goal with
       | H : Forall clock_wait_event ?t |- _ =>
           apply clock_wait_no_copies in H; unfold copied_paths in H
       end;
    unfold copied_paths;
    repeat first
      [ progress cbn [omap list_omap app]
      | rewrite omap_app
      | match goal with
        | H : omap _ ?t = [] |- context [omap _ ?t] => rewrite H
        end ];
    auto.
Qed.

Lemma wp_backup_files_loop_copy from_root to_root prev_files lsn prefix
  files :
  ∀ tv s,
    wp (backup_files_loop pf w patience from_root to_root prev_files lsn
          prefix tv files)
       (λ r s', ∃ n' tr, s' = jump s tr n' ∧
          copied_paths tr `sublist_of` map path files ∧
          Forall (dispatch_ok files lsn) tr) s.
Proof.
  induction files as [|file rest IH]; intros tv s; cbn [backup_files_loop].
  - apply wp_ret. exists (now s), []. rewrite jump_same.
    split; [reflexivity|]. split; [reflexivity | constructor].
  - apply wp_bind.
    eapply wp_conseq; [apply wp_backup_files_step_copy|]. cbv beta.
    intros r s1 (n1 & tr1 & -> & Hc1 & Hd1).
    assert (Hsub1 : copied_paths tr1 `sublist_of` [path file]).
    { destruct Hc1 as [-> | ->]; [apply sublist_nil_l | reflexivity]. }
    assert (Hd1' : Forall (dispatch_ok (file :: rest) lsn) tr1).
    { eapply Forall_impl; [exact Hd1|].
      intros e. apply dispatch_ok_mono. set_solver. }
    destruct r as [[tv1 file1]| msg | |]; norm_state;
      try (eexists _, _; split; [reflexivity|]; split; [|exact Hd1'];
           cbn [map];
           change (path file :: map path rest)
             with ([path file] ++ map path rest);
           rewrite <- (app_nil_r (copied_paths tr1));
           apply sublist_app; [exact Hsub1 | apply sublist_nil_l]).
    apply wp_bind.
    eapply wp_conseq; [apply IH|]. cbv beta.
    intros r s2 (n2 & tr2 & -> & Hc2 & Hd2).
    assert (Hboth : copied_paths (tr1 ++ tr2)
                    `sublist_of` map path (file :: rest)).
    { unfold copied_paths in *. rewrite omap_app. cbn [map].
      change (path file :: map path rest)
        with ([path file] ++ map path rest).
      apply sublist_app; assumption. }
    assert (Hd : Forall (dispatch_ok (file :: rest) lsn) (tr1 ++ tr2)).
    { apply Forall_app. split; [exact Hd1'|].
      eapply Forall_impl; [exact Hd2|].
      intros e. apply dispatch_ok_mono. set_solver. }
    destruct r as [r'| msg | |]; norm_state;
      [apply wp_ret|..]; eexists _, _;
      (split; [reflexivity|]); (split; [exact Hboth | exact Hd]).
Qed.

(** X21: [backup_files] copies in ascending order of path and copies no file
    twice: the paths handed to the copy routines, in the order of the
    calls, are picked in order from the sorted paths of the list.  A copy
    by [backup_data_file] is of an entry tagged as data file and carries
    the lower bound given to [backup_files]; a copy by [copy_file] is of an
    entry that is not tagged. *)
Theorem backup_files_copies_in_order (from_root to_root : string)
  (files : list pgFile) (prev_files : option (list pgFile))
  (lsn : option Z) (prefix : option string) (s : State) :
  ∃ tr,
    trace (snd (backup_files pf w patience from_root to_root files
                  prev_files lsn prefix s)) = trace s ++ tr
    ∧ copied_paths tr
      `sublist_of` map path (parray_qsort pgFileComparePath files)
    ∧ Forall (dispatch_ok files lsn) tr.
Proof.
  rewrite (backup_files_unfold pf w).
  pose proof (wp_backup_files_loop_copy from_root to_root prev_files lsn
                prefix (parray_qsort pgFileComparePath files)
                (w_clock w (now s))
                (advance s [Enter F_backup_files; Ext X_gettimeofday] 1))
    as H.
  unfold wp in H.
  destruct (backup_files_loop _ _ _ _ _ _ _ _ _ _ _) as [[r|msg| |] s2];
    cbn [fst snd] in H; destruct H as (n' & tr & -> & Hsub & Hd).
  all: assert (Hd' : Forall (dispatch_ok files lsn) tr)
         by (eapply Forall_impl; [exact Hd|]; intros e;
             apply dispatch_ok_mono; intros f; apply qsort_elem_of).
  - exists ([Enter F_backup_files; Ext X_gettimeofday] ++ tr
            ++ [Leave F_backup_files]).
    unfold jump, advance. cbn [snd trace].
    split; [now rewrite <- !app_assoc|]. split.
    + unfold copied_paths in *. rewrite !omap_app.
      cbn [omap list_omap app]. now rewrite app_nil_r.
    + repeat first [apply Forall_app; split | apply List.Forall_cons
                   | apply Forall_nil]; try exact I. exact Hd'.
  - exists ([Enter F_backup_files; Ext X_gettimeofday] ++ tr).
    unfold jump, advance. cbn [snd trace].
    split; [now rewrite <- !app_assoc|]. split.
    + unfold copied_paths in *. rewrite !omap_app.
      cbn [omap list_omap app]. exact Hsub.
    + repeat first [apply Forall_app; split | apply List.Forall_cons
                   | apply Forall_nil]; try exact I. exact Hd'.
  - exists ([Enter F_backup_files; Ext X_gettimeofday] ++ tr).
    unfold jump, advance. cbn [snd trace].
    split; [now rewrite <- !app_assoc|]. split.
    + unfold copied_paths in *. rewrite !omap_app.
      cbn [omap list_omap app]. exact Hsub.
    + repeat first [apply Forall_app; split | apply List.Forall_cons
                   | apply Forall_nil]; try exact I. exact Hd'.
  - exists ([Enter F_backup_files; Ext X_gettimeofday] ++ tr).
    unfold jump, advance. cbn [snd trace].
    split; [now rewrite <- !app_assoc|]. split.
    + unfold copied_paths in *. rewrite !omap_app.
      cbn [omap list_omap app]. exact Hsub.
    + repeat first [apply Forall_app; split | apply List.Forall_cons
                   | apply Forall_nil]; try exact I. exact Hd'.
Qed.

End CopierMore.

(** ** The orchestrator, continued *)

Ltac decide_ctor :=
  repeat match goal with
  | |- context [bool_decide (?a = ?b)] =>
      is_constructor a; is_constructor b;
      let v := eval vm_compute in (bool_decide (a = b)) in
      change (bool_decide (a = b)) with v
  | |- context [negb true] => change (negb true) with false
  | |- context [negb false] => change (negb false) with true
  | |- context [?x =? ?x] => rewrite (Z.eqb_refl x)
  | |- context [true && ?b] => change (true && b) with b
  end;
  cbv beta iota.

Section OrchestrationMore.
Variable pf : Platform.
Variable w : World.
Variable patience : nat.

(** X13: [do_backup] refuses to start without a data directory or without a
    backup mode, in that order, before anything else is done: the state is
    as it was, nothing has been asked of the server or of the catalog. *)
Theorem do_backup_requires_parameters (smooth : bool) (gens days : Z)
  (s : State) :
  (pgdata w = None →
     do_backup pf w patience smooth gens days s
     = (Fatal "Required parameter not specified: PGDATA (-D, --pgdata)", s))
  ∧ (pgdata w ≠ None →
     backup_mode (current s) = BACKUP_MODE_INVALID →
     do_backup pf w patience smooth gens days s
     = (Fatal
          "Required parameter not specified: BACKUP_MODE (-b, --backup-mode)",
        s)).
Proof.
  split.
  - intros Hd. unfold do_backup. unfold bind at 1.
    now rewrite bool_decide_eq_true_2 by exact Hd.
  - intros Hd Hmode. unfold do_backup. unfold bind at 1.
    rewrite bool_decide_eq_false_2 by exact Hd.
    unfold ret at 1. cbv beta iota.
    unfold bind at 1. unfold get at 1. cbv beta iota.
    unfold bind at 1.
    now rewrite bool_decide_eq_true_2 by exact Hmode.
Qed.


(** X16: [backup_cleanup] does nothing at all when no backup is in progress.
    When one is, and the record is still RUNNING with no end time, and the
    data directory holds no backup label, it sends nothing to the server:
    it reads the clock, marks the record ERROR with that end time and
    writes the record it has just marked; its argument plays no part. *)
Theorem backup_cleanup_effect (fatal : bool) (d : string) (s : State) :
  (in_backup s = false →
     backup_cleanup pf w fatal s
     = (Ok tt, advance s [Enter F_backup_cleanup; Leave F_backup_cleanup] 0))
  ∧ (cleanup_armed s →
     pgdata w = Some d →
     marker_present w (now s) (d +:+ "/backup_label") = false →
     let cur := failed_at (tv_sec (w_clock w (now s + 1))) (current s) in
     w_fail w (now s + 2) (X_pgBackupWriteIni cur) = None →
     backup_cleanup pf w fatal s
     = (Ok tt,
        with_current
          (advance s [Enter F_backup_cleanup;
                      Ext (X_stat (d +:+ "/backup_label"));
                      Ext X_time; Assign_status BACKUP_STATUS_ERROR;
                      Ext (X_pgBackupWriteIni cur);
                      Leave F_backup_cleanup] 3)
          cur)).
Proof.
  split.
  - intros Hin.
    assert (wp (backup_cleanup pf w fatal)
               (λ r s',
                  r = Ok tt ∧
                  s' = advance s [Enter F_backup_cleanup;
                                  Leave F_backup_cleanup] 0) s) as Hwp.
    { unfold backup_cleanup, call.
      repeat (first [progress decide_ctor | rewrite Hin | wp_step]).
      split; [reflexivity|]. unfold advance. f_equal. lia. }
    unfold wp in Hwp.
    destruct (backup_cleanup pf w fatal s) as [r s'].
    cbn [fst snd] in Hwp. destruct Hwp as [-> ->]. reflexivity.
  - intros (Hin & Hst & Hend) Hd Hlabel cur Hwrite.
    assert (wp (backup_cleanup pf w fatal)
               (λ r s',
                  r = Ok tt ∧
                  s' = with_current
                         (advance s [Enter F_backup_cleanup;
                                     Ext (X_stat (d +:+ "/backup_label"));
                                     Ext X_time;
                                     Assign_status BACKUP_STATUS_ERROR;
                                     Ext (X_pgBackupWriteIni cur);
                                     Leave F_backup_cleanup] 3)
                         cur) s) as Hwp.
    { subst cur. revert Hwrite. unfold failed_at.
      replace (now s + 1)%nat with (S (now s)) by lia.
      replace (now s + 2)%nat with (S (S (now s))) by lia.
      destruct s as [[m st tl l0 l1 t0 t1 db bs wbs rx rt] ib sv cn fl ax n t].
      cbn [in_backup current status end_time now] in *. subst ib st t1.
      intros Hwrite. unfold upd_status, upd_end_time in Hwrite.
      cbn [backup_mode status tli start_lsn stop_lsn start_time end_time
           data_bytes block_size wal_block_size recovery_xid recovery_time]
        in Hwrite.
      unfold backup_cleanup, call, get_pgdata, when, assign_status,
        set_current.
      rewrite Hd.
      repeat (first [ progress decide_ctor | rewrite Hlabel | rewrite Hwrite
                    | wp_step ]).
      split; [reflexivity|]. unfold advance, with_current. cbn.
      f_equal. lia. }
    unfold wp in Hwp.
    destruct (backup_cleanup pf w fatal s) as [r s'].
    cbn [fst snd] in Hwp. destruct Hwp as [-> ->]. reflexivity.
Qed.

End OrchestrationMore.

(** ** What a run never does *)

Section Emits.
Context {P : event → Prop}.

Lemma emits_ret {A} (a : A) : emits P (ret a).
Proof. intros s. exists []. cbn. now rewrite app_nil_r. Qed.

Lemma emits_elog {A} msg : emits P (@elog_ERROR A msg).
Proof. intros s. exists []. cbn. now rewrite app_nil_r. Qed.

Lemma emits_hang {A} : emits P (@hang A).
Proof. intros s. exists []. cbn. now rewrite app_nil_r. Qed.

Lemma emits_crash {A} : emits P (@crash A).
Proof. intros s. exists []. cbn. now rewrite app_nil_r. Qed.

Lemma emits_get {A} (g : State → A) : emits P (get g).
Proof. intros s. exists []. cbn. now rewrite app_nil_r. Qed.

Lemma emits_modify (f : State → State) :
  (∀ s, trace (f s) = trace s) → emits P (modify f).
Proof. intros Hf s. exists []. cbn. now rewrite Hf, app_nil_r. Qed.

Lemma emits_emit e : P e → emits P (emit e).
Proof. intros He s. exists [e]. split; [reflexivity|]. now constructor. Qed.

Lemma emits_bind {A B} (m : M A) (f : A → M B) :
  emits P m → (∀ a, emits P (f a)) → emits P (bind m f).
Proof.
  intros Hm Hf s. unfold bind.
  destruct (Hm s) as (tr1 & H1 & HP1).
  destruct (m s) as [[a|msg| |] s1]; cbn [snd] in *; eauto.
  destruct (Hf a s1) as (tr2 & H2 & HP2).
  exists (tr1 ++ tr2). split; [now rewrite H2, H1, app_assoc|].
  apply Forall_app. auto.
Qed.

Lemma emits_of_wp {A} (m : M A) (Q : event → Prop) :
  (∀ e, Q e → P e) →
  (∀ s, wp m (λ _ s', ∃ n' tr, s' = jump s tr n' ∧ Forall Q tr) s) →
  emits P m.
Proof.
  intros HQ H s. destruct (H s) as (n' & tr & Hs & Htr).
  exists tr. rewrite Hs. split; [reflexivity|].
  eapply Forall_impl; [exact Htr | exact HQ].
Qed.

End Emits.

Ltac emits_tac pre :=
  repeat first
    [ pre
    | apply emits_bind; [|intros ?]
    | apply emits_ret
    | apply emits_get
    | apply emits_modify; reflexivity
    | apply emits_emit; reflexivity
    | apply emits_elog
    | apply emits_hang
    | apply emits_crash
    | lazymatch goal with
      | |- emits _ (if ?b then _ else _) => destruct b
      | |- emits _ (match ?x with _ => _ end) => destruct x
      | |- emits _ (let _ := _ in _) => cbv zeta
      | |- emits _ ?m => let h := head_of m in unfold h
      end ].

Section DryRun.
Variable pf : Platform.
Variable w : World.
Variable patience : nat.
Hypothesis check_on : check w = true.

Lemma emits_wait_for_archive_loop n p c :
  emits quiet (wait_for_archive_loop w n p c).
Proof.
  apply (emits_of_wp _ poll_event).
  - intros [| |[]|]; cbn; try contradiction; reflexivity.
  - intros s. apply wp_wait_for_archive_loop.
Qed.

Lemma emits_wait_next_second n m tv :
  emits quiet (wait_next_second w n m tv).
Proof.
  apply (emits_of_wp _ clock_wait_event).
  - intros [| |[]|]; cbn; try contradiction; reflexivity.
  - intros s. eapply wp_conseq; [apply wp_wait_next_second|].
    cbv beta. intros r s' (n' & tr & Hs & Htr & _). eauto.
Qed.

Ltac dry_pre :=
  first
    [ progress (rewrite check_on; change (negb true) with false;
                cbv beta iota)
    | apply emits_wait_for_archive_loop
    | apply emits_wait_next_second ].

Lemma emits_backup_files_loop from_root to_root prev_files lsn prefix files :
  ∀ tv,
    emits quiet (backup_files_loop pf w patience from_root to_root
                   prev_files lsn prefix tv files).
Proof.
  induction files as [|file rest IH]; intros tv; cbn [backup_files_loop].
  - apply emits_ret.
  - apply emits_bind; [|intros r; apply emits_bind;
                         [apply IH | intros ?; apply emits_ret]].
    unfold backup_files_step. emits_tac dry_pre.
Qed.

Lemma emits_do_backup_database backup_list smooth :
  emits quiet (do_backup_database pf w patience backup_list smooth).
Proof.
  unfold do_backup_database.
  emits_tac ltac:(first [dry_pre | apply emits_backup_files_loop]).
Qed.

(** X17: with [--check], [do_backup] and [do_backup_database] open and close no
    file, change no mode, make no directory, print no list, make no
    backup directory and write no manifest. *)
Theorem do_backup_dry_run (smooth : bool) (gens days : Z)
  (backup_list : list pgBackup) (s : State) :
  (∃ tr,
     trace (snd (do_backup pf w patience smooth gens days s)) = trace s ++ tr
     ∧ Forall (λ e, is_catalog_write e = false) tr)
  ∧ (∃ tr,
       trace (snd (do_backup_database pf w patience backup_list smooth s))
       = trace s ++ tr
       ∧ Forall (λ e, is_catalog_write e = false) tr).
Proof.
  split; [|apply emits_do_backup_database].
  assert (emits quiet (do_backup pf w patience smooth gens days)) as H;
    [|exact (H s)].
  unfold do_backup.
  emits_tac ltac:(first [dry_pre | apply emits_do_backup_database]).
Qed.

End DryRun.

(** ** A run that is not differential *)

Lemma run_no_wal lower :
  ∀ tr q q', run (delta false lower) q tr = Some q' → ph_wal q = false →
    Forall (λ e, is_wal_work e = false) tr.
Proof.
  induction tr as [|e tr IH]; intros q q' Hrun Hq; [constructor|].
  cbn [run] in Hrun.
  destruct (delta false lower q e) as [q1|] eqn:Hstep; [|discriminate].
  assert (ph_wal q1 = false ∧ is_wal_work e = false) as [Hq1 He].
  { clear -Hstep Hq. unfold is_wal_work.
    destruct q; try discriminate Hq; destruct e as [[]|[]|[]|];
      cbn in Hstep |- *; repeat case_match; simplify_eq; cbn; auto;
      repeat match goal with
      | H : String.eqb _ _ = true |- _ => apply String.eqb_eq in H; subst
      end; split; reflexivity. }
  constructor; [exact He | exact (IH _ _ Hrun Hq1)].
Qed.

(** X18: unless the mode is DIFF_PAGE, [do_backup_database] asks for no WAL
    switch and reads no WAL, and every data file it hands to
    [backup_data_file] goes without a lower bound, to be copied in
    full. *)
Theorem do_backup_database_full_no_wal (pf : Platform) (w : World)
  (patience : nat) (backup_list : list pgBackup) (smooth : bool)
  (s : State) :
  backup_mode (current s) ≠ BACKUP_MODE_DIFF_PAGE →
  ∃ tr,
    trace (snd (do_backup_database pf w patience backup_list smooth s))
    = trace s ++ tr ∧
    Forall (λ e, is_switch_call e = false ∧ is_wal_scan e = false ∧
                 lower_bound_is None e) tr.
Proof.
  intros Hmode.
  pose proof (do_backup_database_run pf w patience backup_list smooth s)
    as (_ & tr & q & Htr & Hrun & _).
  exists tr. split; [exact Htr|].
  unfold page_scan_lower in Hrun.
  rewrite bool_decide_eq_false_2 in Hrun by exact Hmode.
  pose proof (run_no_wal _ _ _ _ Hrun eq_refl) as Hwal.
  pose proof (run_lower _ _ _ _ _ Hrun) as Hlow.
  rewrite Forall_forall in Hwal, Hlow. apply Forall_forall. intros e He.
  specialize (Hwal e He). specialize (Hlow e He).
  unfold is_wal_work in Hwal. apply orb_false_iff in Hwal as [? ?]. auto.
Qed.

(** ** The record of a database backup *)

Ltac box_loop :=
  lazymatch goal with
  | |- wp (wait_for_archive_loop _ _ _ _) _ _ =>
      wp_box wp_wait_for_archive_loop;
      match goal with
      | |- match ?r with _ => _ end => destruct r
      end;
      cbv beta iota; norm_state
  | |- wp (backup_files_loop _ _ _ _ _ _ _ _ _ _) _ _ =>
      wp_box wp_backup_files_loop;
      match goal with
      | |- match ?r with _ => _ end => destruct r
      end;
      cbv beta iota; norm_state
  end.

Section DatabaseRecord.
Variable pf : Platform.
Variable w : World.
Variable patience : nat.

Lemma poll_scan_ends_at endpoint e : poll_event e → scan_ends_at endpoint e.
Proof. destruct e as [| |[]|]; cbn; try contradiction; trivial. Qed.

Lemma copy_scan_ends_at endpoint files lsn e :
  copy_event_ok files lsn e → scan_ends_at endpoint e.
Proof. destruct e as [| |[]|]; cbn; try contradiction; trivial. Qed.

Ltac scan_events :=
  repeat first
    [ apply Forall_nil
    | apply Forall_app; split
    | (eapply Forall_impl; [eassumption|];
       intros; first [ apply poll_scan_ends_at; assumption
                     | eapply copy_scan_ends_at; eassumption ])
    | apply List.Forall_cons ];
  try exact I; try reflexivity.

Lemma wp_do_backup_database_record backup_list smooth s :
  wp (do_backup_database pf w patience backup_list smooth)
     (λ r s',
        (∃ tr, trace s' = trace s ++ tr ∧
               Forall (scan_ends_at (lsn_of pf (w_result w (now s + 4)))) tr)
        ∧ ∀ files, r = Ok files →
            backup_files_list s' = Some files ∧
            connected s' = false ∧
            data_bytes (current s')
            = sum_data_bytes (backup_mode (current s)) files 0 ∧
            start_lsn (current s') = lsn_of pf (w_result w (now s + 4)) ∧
            start_time (current s') = start_time (current s)) s.
Proof.
  replace (now s + 4)%nat with (S (S (S (S (now s))))) by lia.
  destruct s as [[m st tl l0 l1 t0 t1 db bs wbs rx rt] ib sv cn fl ax n t].
  cbn [current now backup_mode start_time trace].
  unfold lsn_of.
  repeat (first [box_loop | wp_step]).
  all: repeat match goal with
       | H : XLogDataFromLSN _ _ = _ |- _ => rewrite H
       end.
  all: split;
    [ eexists; split; [reflexivity|]; scan_events
    | first [ solve [intros ? [=]]
            | intros ? [= <-]; repeat split; reflexivity ] ].
Qed.

(** X19: when [do_backup_database] returns, the list it returns is the list
    it has left in [backup_files_list], the connection is closed, the start
    position in the record is the one [pg_start_backup] got from the server
    and the size in the record is the sum, from zero, over the regular
    files of that list: of their read sizes in a differential backup, of
    their sizes as listed in a full one, copied or not. *)
Theorem do_backup_database_record (backup_list : list pgBackup)
  (smooth : bool) (s s' : State) (files : list pgFile) :
  do_backup_database pf w patience backup_list smooth s = (Ok files, s') →
  backup_files_list s' = Some files
  ∧ connected s' = false
  ∧ data_bytes (current s')
    = sum_data_bytes (backup_mode (current s)) files 0
  ∧ start_lsn (current s') = lsn_of pf (w_result w (now s + 4))
  ∧ start_time (current s') = start_time (current s).
Proof.
  intros Hrun.
  pose proof (wp_do_backup_database_record backup_list smooth s) as H.
  unfold wp in H. rewrite Hrun in H. exact (proj2 H files eq_refl).
Qed.

(** X22: in a differential run WAL is read up to the position at which this
    backup has started, the one [pg_start_backup] got from the server, not
    to the position of the WAL switch that precedes the read. *)
Theorem do_backup_database_scan_range (backup_list : list pgBackup)
  (smooth : bool) (s : State) :
  ∃ tr,
    trace (snd (do_backup_database pf w patience backup_list smooth s))
    = trace s ++ tr ∧
    Forall (scan_ends_at (lsn_of pf (w_result w (now s + 4)))) tr.
Proof.
  exact (proj1 (wp_do_backup_database_record backup_list smooth s)).
Qed.

Lemma wp_and {A} (m : M A) (K1 K2 : result A → State → Prop) s :
  wp m K1 s → wp m K2 s → wp m (λ r s', K1 r s' ∧ K2 r s') s.
Proof. unfold wp. auto. Qed.

Ltac drop_last2 l :=
  lazymatch l with
  | [_; _] => constr:(@nil event)
  | ?a :: ?r => let r' := drop_last2 r in constr:(a :: r')
  | ?x ++ ?r => let r' := drop_last2 r in constr:(x ++ r')
  end.

Ltac box_database :=
  lazymatch goal with
  | |- wp (do_backup_database _ _ _ _ _) _ _ =>
      eapply wp_conseq;
      [ apply wp_and;
        [apply do_backup_database_run | apply wp_do_backup_database_record]
      |];
      cbv beta;
      let r := fresh "r" in
      let s' := fresh "s" in
      let Hrec := fresh "Hrec" in
      let Htr := fresh "Htr" in
      let Hok := fresh "Hok" in
      intros r s' [(Hrec & ? & ? & Htr & _) [_ Hok]];
      destruct s' as [[? ? ? ? ? ? ? ? ? ? ? ?] ? ? ? ? ? ? ?];
      unfold same_record in Hrec;
      cbn [current in_backup atexit_stack trace status end_time backup_mode
           connected backup_files_list data_bytes start_lsn start_time]
        in Hrec, Htr, Hok;
      destruct Hrec as (? & ? & ? & ? & ?); subst;
      destruct r; cbv beta iota; norm_state;
      [ match goal with
        | H : ∀ files, Ok ?a = Ok files → _ |- _ =>
            destruct (H a eq_refl) as (_ & ? & _); subst; clear H
        end
      | clear Hok .. ]
  end.

(** X20: when [do_backup] returns, it returns 0; the record is DONE, with the
    end time read from the clock after the database backup; the exit
    handler it had registered is off the stack again; the connection is
    closed; the last two things done are the deletion of old backups, with
    the two retention options, and the release of the catalog lock; and,
    unless [--check] is given, what comes just before them is the writing
    of the manifest with the record as it now is. *)
Theorem do_backup_returns (smooth : bool) (gens days : Z) (v : Z)
  (s s' : State) :
  do_backup pf w patience smooth gens days s = (Ok v, s') →
  v = 0
  ∧ status (current s') = BACKUP_STATUS_DONE
  ∧ atexit_stack s' = atexit_stack s
  ∧ in_backup s' = true
  ∧ connected s' = false
  ∧ ∃ tr t,
      end_time (current s') = tv_sec (w_clock w t)
      ∧ trace s' = trace s ++ tr ++
                   [Ext (X_pgBackupDelete gens days); Ext X_catalog_unlock]
      ∧ (check w = false →
         ∃ tr', tr = tr' ++ [Assign_status BACKUP_STATUS_DONE;
                             Ext (X_pgBackupWriteIni (current s'))]).
Proof.
  intros Hrun.
  assert (wp (do_backup pf w patience smooth gens days)
             (λ r s', ∀ v, r = Ok v →
                v = 0
                ∧ status (current s') = BACKUP_STATUS_DONE
                ∧ atexit_stack s' = atexit_stack s
                ∧ in_backup s' = true
                ∧ connected s' = false
                ∧ ∃ tr t,
                    end_time (current s') = tv_sec (w_clock w t)
                    ∧ trace s' = trace s ++ tr ++
                        [Ext (X_pgBackupDelete gens days);
                         Ext X_catalog_unlock]
                    ∧ (check w = false →
                       ∃ tr', tr = tr' ++
                         [Assign_status BACKUP_STATUS_DONE;
                          Ext (X_pgBackupWriteIni (current s'))])) s) as H.
  { clear Hrun.
    destruct s as [[m st tl l0 l1 t0 t1 db bs wbs rx rt] ib sv cn fl ax n t].
    cbn [current atexit_stack trace].
    unfold do_backup.
    repeat (first [box_database | box_loop | wp_step]).
    all: try (intros ? [=]; fail).
    all: intros ? [= <-];
      (split; [reflexivity|]); (split; [reflexivity|]);
      (split; [reflexivity|]); (split; [reflexivity|]);
      (split; [reflexivity|]);
      match goal with
      | |- ∃ tr t, _ ∧ _ ++ ?l = _ ∧ _ =>
          let tr := drop_last2 l in exists tr
      end;
      eexists; (split; [reflexivity|]);
      (split; [f_equal; cbn [app]; rewrite <- ?app_assoc; reflexivity|]);
      intros Hc;
      first
        [ match goal with
          | H : negb (check w) = false |- _ =>
              rewrite Hc in H; discriminate H
          end
        | match goal with
          | |- ∃ tr', ?tr = _ =>
              let tr' := drop_last2 tr in exists tr';
              cbn [app]; rewrite <- ?app_assoc; reflexivity
          end ]. }
  unfold wp in H. rewrite Hrun in H. exact (H v eq_refl).
Qed.

End DatabaseRecord.

(** ** Starting the backup, listing the files *)

Section StartAndList.
Variable pf : Platform.
Variable w : World.
Variable patience : nat.

(** X6: [pg_start_backup] sends one statement, [pg_start_backup] with the
    label and with [fast] set exactly when no smooth checkpoint is asked
    for, on a connection it opens and, when it returns, has closed.  It
    leaves alone the statics of [backup.c] and the record but for the start
    position, which, called with a record, it sets to the position the
    statement returned. *)
Theorem pg_start_backup_effect (label : string) (smooth backup : bool)
  (s : State) :
  let r := pg_start_backup pf w label smooth backup s in
  same_statics s (snd r)
  ∧ same_but_start (current s) (current (snd r))
  ∧ (backup = false → current (snd r) = current s)
  ∧ (fst r = Ok tt →
       connected (snd r) = false
       ∧ trace (snd r)
         = trace s ++
           [Enter F_pg_start_backup; Ext X_reconnect;
            Ext (X_execute start_backup_sql
                   [label; if smooth then "false" else "true"]);
            Ext X_disconnect; Leave F_pg_start_backup]
       ∧ (backup = true →
            start_lsn (current (snd r))
            = lsn_of pf (w_result w (now s + 1)))).
Proof.
  cbv zeta.
  assert (wp (pg_start_backup pf w label smooth backup)
            (λ r s',
               same_statics s s'
               ∧ same_but_start (current s) (current s')
               ∧ (backup = false → current s' = current s)
               ∧ (r = Ok tt →
                    connected s' = false
                    ∧ trace s'
                      = trace s ++
                        [Enter F_pg_start_backup; Ext X_reconnect;
                         Ext (X_execute start_backup_sql
                                [label; if smooth then "false" else "true"]);
                         Ext X_disconnect; Leave F_pg_start_backup]
                    ∧ (backup = true →
                         start_lsn (current s')
                         = lsn_of pf (w_result w (now s + 1))))) s) as H;
    [|exact H].
  replace (now s + 1)%nat with (S (now s)) by lia.
  destruct s as [[m st tl l0 l1 t0 t1 db bs wbs rx rt] ib sv cn fl ax n t].
  unfold same_statics, same_but_start, lsn_of.
  cbn [current in_backup atexit_stack backup_files_list connected
       server_version now trace].
  unfold pg_start_backup, call, get_lsn, reconnect, disconnect, execute,
    PQerrorMessage, set_current.
  destruct backup; repeat wp_step.
  all: (split; [repeat split; reflexivity|]);
       (split; [reflexivity|]);
       (split; [first [solve [intros [=]] | intros _; reflexivity]|]);
       try (intros [=]; fail).
  all: intros _; (split; [reflexivity|]); (split; [reflexivity|]);
       first [solve [intros [=]] | intros _; reflexivity].
Qed.

(** X12: what [add_files] returns is the list it was given, entry for entry,
    followed by the entries listed under [root], in the order of the
    listing, each as listed or, if it is a regular file, tagged as a data
    file: it tags nothing but regular files and changes nothing else. *)
Theorem add_files_appends (files : list pgFile) (root : string)
  (add_root is_pgdata : bool) (s s' : State) (l : list pgFile) :
  add_files pf w files root add_root is_pgdata s = (Ok l, s') →
  ∃ listed,
    l = files ++ listed
    ∧ Forall2 tagged (w_dir_list w (now s)) listed
    ∧ s' = advance s [Enter F_add_files; Ext (X_dir_list_file root);
                      Leave F_add_files] 1.
Proof.
  intros Hrun.
  assert (wp (add_files pf w files root add_root is_pgdata)
            (λ r s', ∀ l, r = Ok l →
               l = files ++ map (tag_datafile pf root is_pgdata)
                             (w_dir_list w (now s))
               ∧ s' = advance s [Enter F_add_files;
                                 Ext (X_dir_list_file root);
                                 Leave F_add_files] 1) s) as H.
  { unfold add_files, call. repeat wp_step; try (intros ? [=]; fail).
    intros ? [= <-]. split; [reflexivity|].
    unfold advance. f_equal. lia. }
  unfold wp in H. rewrite Hrun in H. cbn [fst snd] in H.
  destruct (H l eq_refl) as [-> ->].
  eexists. split; [reflexivity|]. split; [|reflexivity].
  apply Forall2_fmap_r, Forall_Forall2_diag, Forall_forall.
  intros f _. unfold compose, tagged, tag_datafile. cbv beta.
  destruct (S_ISREG (mode f)) eqn:Hreg.
  - try rewrite Hreg. change (negb true) with false. cbv iota.
    repeat case_match; auto.
  - try rewrite Hreg. change (negb false) with true. cbv iota. now left.
Qed.

(** X14: a failure to lock the catalog ends [do_backup] before the record is
    touched: whether [catalog_lock] reports an error or another pg_arman at
    work, the run ends with the matching message, and all that has
    happened since the check of the server is the call of [catalog_lock]
    and the mark that a backup is in progress. *)
Theorem do_backup_lock_refused (smooth : bool) (gens days : Z)
  (s s1 : State) :
  pgdata w ≠ None →
  backup_mode (current s) ≠ BACKUP_MODE_INVALID →
  check_server_version pf w s = (Ok tt, s1) →
  w_fail w (now s1) X_catalog_lock = None →
  w_lock w (now s1) = -1 ∨ w_lock w (now s1) = 1 →
  do_backup pf w patience smooth gens days s
  = (Fatal (if w_lock w (now s1) =? -1
            then "cannot lock backup catalog"
            else "another pg_arman is running, skipping this backup"),
     advance (with_in_backup s1 true) [Ext X_catalog_lock] 1).
Proof.
  intros Hd Hmode Hcheck Hfail Hlock.
  assert (wp (do_backup pf w patience smooth gens days)
            (λ r s',
               r = Fatal (if w_lock w (now s1) =? -1
                          then "cannot lock backup catalog"
                          else "another pg_arman is running, " +:+
                               "skipping this backup")
               ∧ s' = advance (with_in_backup s1 true)
                        [Ext X_catalog_lock] 1) s) as H.
  { unfold do_backup.
    rewrite (bool_decide_eq_false_2 _ Hd).
    do 4 wp_step.
    rewrite (bool_decide_eq_false_2 _ Hmode).
    do 3 wp_step.
    unfold wp at 1. rewrite Hcheck. cbn [fst snd].
    destruct s1 as [cur ib sv cn fl ax n t]. cbn [now] in *.
    do 7 (first [rewrite Hfail | wp_step]).
    destruct Hlock as [Hl|Hl]; rewrite !Hl;
      [ change (-1 =? -1) with true
      | change (1 =? -1) with false; change (1 =? 1) with true ];
      cbv iota; do 3 (try wp_step).
    all: split; [reflexivity|]; unfold advance, with_in_backup; cbn;
      f_equal; lia. }
  unfold wp in H.
  destruct (do_backup pf w patience smooth gens days s) as [r s'].
  cbn [fst snd] in H. destruct H as [-> ->]. reflexivity.
Qed.

(** X11: an entry that [stat] shows to be no regular file is never copied: a
    directory is made in the backup, unless [--check] is given, anything
    else is passed over; the entry and the second held are left as they
    are. *)
Theorem backup_files_only_regular (from_root to_root : string)
  (prev_files : option (list pgFile)) (lsn : option Z)
  (prefix : option string) (tv : timeval) (file : pgFile)
  (buf : struct_stat) (s : State) :
  mtime file ≤ tv_sec tv →
  w_interrupted w (now s) = false →
  w_stat w (now s + 1) (path file) = StatOk buf →
  S_ISREG (st_mode buf) = false →
  let r := backup_files_step pf w patience from_root to_root prev_files lsn
             prefix tv file s in
  let dirpath := join_path_components pf to_root
                   (JoinPathEnd pf (path file) from_root) in
  (∀ x, fst r = Ok x → x = (tv, file))
  ∧ trace (snd r)
    = trace s ++
      Ext (X_stat (path file)) ::
      (if S_ISDIR (st_mode buf) && negb (check w)
       then [Ext (X_dir_create_dir dirpath)] else []).
Proof.
  intros Hle Hintr Hstat Hreg. cbv zeta.
  replace (now s + 1)%nat with (S (now s)) in Hstat by lia.
  assert (wp (backup_files_step pf w patience from_root to_root prev_files
                lsn prefix tv file)
            (λ r s',
               (∀ x, r = Ok x → x = (tv, file))
               ∧ trace s'
                 = trace s ++
                   Ext (X_stat (path file)) ::
                   (if S_ISDIR (st_mode buf) && negb (check w)
                    then [Ext (X_dir_create_dir
                                 (join_path_components pf to_root
                                    (JoinPathEnd pf (path file) from_root)))]
                    else [])) s) as H; [|exact H].
  unfold backup_files_step, when.
  repeat (first [rewrite Hintr | rewrite Hstat | rewrite Hreg | wp_step]);
    bool_facts; try lia.
  all: split; [first [intros ? [= <-]; reflexivity | intros ? [=]]|];
    reflexivity.
Qed.

End StartAndList.

(** * Runs on the sample installation, continued *)


(** X8 on the sample installation. *)
Lemma backup_files_keeps_entries_witness :
  let w := Sample.world true 0 None in
  let s := Sample.running BACKUP_MODE_FULL in
  let files := w_dir_list w 0%nat in
  let r := backup_files Sample.platform w 5 "/pgdata" "/backup/1000/database"
             files None None None s in
  ∃ copied,
    r = (Ok copied, snd r)
    ∧ length copied = 2%nat
    ∧ map path copied ≡ₚ ["/pgdata/base/16384/16385"; "/pgdata/PG_VERSION"].
Proof.
  intros w s files r.
  assert (Hrun : r = (Ok (match fst r with Ok l => l | _ => [] end), snd r))
    by (vm_compute; reflexivity).
  eexists. split; [exact Hrun|].
  destruct (backup_files_keeps_entries Sample.platform w 5 "/pgdata"
              "/backup/1000/database" files None None None s (snd r) _ Hrun)
    as (_ & Hlen & Hperm).
  split; [exact Hlen | exact Hperm].
Defined.

(** X9 on the sample installation. *)
Lemma backup_files_interrupted_witness :
  let w := Scenes.world false 0 Scenes.alarm Scenes.disk in
  let file := Sample.file "/pgdata/base/16384/16385" 990 in
  file ∈ [file]
  ∧ (∃ before after,
       parray_qsort pgFileComparePath [file] = before ++ file :: after ∧
       ∀ (s s1 : State) (tv1 : timeval) (done : list pgFile),
         backup_files_loop Sample.platform w 5 "/pgdata"
           "/backup/1000/database" None None None (w_clock w (now s)) before
           (advance s [Enter F_backup_files; Ext X_gettimeofday] 1)
         = (Ok (tv1, done), s1) →
         mtime file ≤ tv_sec tv1 →
         w_interrupted w (now s1) = true →
         backup_files Sample.platform w 5 "/pgdata" "/backup/1000/database"
           [file] None None None s
         = (Fatal backup_interrupted, advance s1 [] 1))
  ∧ fst (backup_files Sample.platform w 5 "/pgdata" "/backup/1000/database"
           [file] None None None (Sample.running BACKUP_MODE_FULL))
    = Fatal backup_interrupted.
Proof.
  intros w file.
  assert (Hin : file ∈ [file]) by apply list_elem_of_here.
  split; [exact Hin|]. split.
  - exact (backup_files_interrupted Sample.platform w 5 "/pgdata"
             "/backup/1000/database" [file] None None None file Hin).
  - vm_compute. reflexivity.
Defined.

(** X10 on the sample installation. *)
Lemma backup_files_vanished_witness :
  let w := Sample.world true 0 None in
  let s := Sample.running BACKUP_MODE_FULL in
  let file := Sample.file "/pgdata/PG_VERSION" 100 in
  let tv := mkTv 1000 0 in
  backup_files_loop Sample.platform w 5 "/pgdata" "/backup/1000/database"
    None None None tv [file] s
  = (Ok (tv, [set_write_size file BYTES_INVALID]),
     advance s [Ext (X_stat "/pgdata/PG_VERSION")] 2).
Proof.
  intros w s file tv.
  assert (Hle : mtime file ≤ tv_sec tv) by (vm_compute; discriminate).
  assert (Hintr : w_interrupted w (now s) = false) by reflexivity.
  assert (Hstat : w_stat w (now s + 1) (path file) = StatErr ENOENT)
    by (vm_compute; reflexivity).
  exact (backup_files_vanished Sample.platform w 5 "/pgdata"
           "/backup/1000/database" None None None tv file [] ENOENT s
           Hle Hintr Hstat).
Defined.

(** X11 on the sample installation. *)
Lemma backup_files_only_regular_witness :
  let w := Scenes.world false 0 Scenes.calm Scenes.dirs_only in
  let s := Sample.running BACKUP_MODE_FULL in
  let file := Sample.file "/pgdata/base/16384" 990 in
  let tv := mkTv 1000 0 in
  let r := backup_files_step Sample.platform w 5 "/pgdata"
             "/backup/1000/database" None None None tv file s in
  fst r = Ok (tv, file)
  ∧ trace (snd r)
    = [Ext (X_stat "/pgdata/base/16384");
       Ext (X_dir_create_dir "/backup/1000/database/base/16384")].
Proof.
  intros w s file tv r.
  assert (Hle : mtime file ≤ tv_sec tv) by (vm_compute; discriminate).
  assert (Hintr : w_interrupted w (now s) = false) by reflexivity.
  assert (Hstat : w_stat w (now s + 1) (path file) = StatOk (mkStat 16877))
    by (vm_compute; reflexivity).
  assert (Hreg : S_ISREG (st_mode (mkStat 16877)) = false)
    by (vm_compute; reflexivity).
  destruct (backup_files_only_regular Sample.platform w 5 "/pgdata"
              "/backup/1000/database" None None None tv file (mkStat 16877) s
              Hle Hintr Hstat Hreg) as [_ Htrace].
  split; [vm_compute; reflexivity | exact Htrace].
Defined.

(** X12 on the sample installation. *)
Lemma add_files_appends_witness :
  let w := Sample.world true 0 None in
  let s := Sample.running BACKUP_MODE_FULL in
  let r := add_files Sample.platform w [] "/pgdata" false true s in
  ∃ l, r = (Ok l, snd r)
       ∧ ∃ listed, l = [] ++ listed
                   ∧ Forall2 tagged (w_dir_list w (now s)) listed.
Proof.
  intros w s r.
  assert (Hrun : r = (Ok (match fst r with Ok l => l | _ => [] end), snd r))
    by (vm_compute; reflexivity).
  eexists. split; [exact Hrun|].
  destruct (add_files_appends Sample.platform w [] "/pgdata" false true s
              (snd r) _ Hrun) as (listed & Hl & Htag & _).
  exists listed. split; [exact Hl | exact Htag].
Defined.

(** X14 on the sample installation. *)
Lemma do_backup_lock_refused_witness :
  let w := Scenes.world false 1 Scenes.calm Scenes.disk in
  let s := start_state (Sample.record BACKUP_MODE_FULL) in
  let s1 := snd (check_server_version Sample.platform w s) in
  do_backup Sample.platform w 5 false 0 0 s
  = (Fatal "another pg_arman is running, skipping this backup",
     advance (with_in_backup s1 true) [Ext X_catalog_lock] 1)
  ∧ status (current (snd (do_backup Sample.platform w 5 false 0 0 s)))
    = BACKUP_STATUS_ERROR.
Proof.
  intros w s s1.
  assert (Hd : pgdata w ≠ None) by discriminate.
  assert (Hmode : backup_mode (current s) ≠ BACKUP_MODE_INVALID)
    by discriminate.
  assert (Hcheck : check_server_version Sample.platform w s = (Ok tt, s1))
    by (vm_compute; reflexivity).
  assert (Hfail : w_fail w (now s1) X_catalog_lock = None) by reflexivity.
  assert (Hlock : w_lock w (now s1) = -1 ∨ w_lock w (now s1) = 1)
    by (right; reflexivity).
  split.
  - exact (do_backup_lock_refused Sample.platform w 5 false 0 0 s s1
             Hd Hmode Hcheck Hfail Hlock).
  - vm_compute. reflexivity.
Defined.


(** X17 on the sample installation. *)
Lemma do_backup_dry_run_witness :
  let w := Scenes.world true 0 Scenes.calm Scenes.disk in
  let r := do_backup Sample.platform w 5 false 0 0
             (start_state (Sample.record BACKUP_MODE_FULL)) in
  check w = true
  ∧ fst r = Ok 0
  ∧ ∃ tr, trace (snd r) = [] ++ tr
          ∧ Forall (λ e, is_catalog_write e = false) tr.
Proof.
  intros w r.
  assert (Hcheck : check w = true) by reflexivity.
  split; [exact Hcheck|]. split; [vm_compute; reflexivity|].
  exact (proj1 (do_backup_dry_run Sample.platform w 5 Hcheck false 0 0 []
                  (start_state (Sample.record BACKUP_MODE_FULL)))).
Defined.

(** X18 on the sample installation. *)
Lemma do_backup_database_full_no_wal_witness :
  let w := Sample.world true 0 None in
  let s := Sample.running BACKUP_MODE_FULL in
  backup_mode (current s) ≠ BACKUP_MODE_DIFF_PAGE
  ∧ ∃ tr,
      trace (snd (do_backup_database Sample.platform w 5 [] false s))
      = trace s ++ tr ∧
      Forall (λ e, is_switch_call e = false ∧ is_wal_scan e = false ∧
                   lower_bound_is None e) tr.
Proof.
  intros w s.
  assert (Hmode : backup_mode (current s) ≠ BACKUP_MODE_DIFF_PAGE)
    by discriminate.
  split; [exact Hmode|].
  exact (do_backup_database_full_no_wal Sample.platform w 5 [] false s Hmode).
Defined.

(** X19 on the sample installation. *)
Lemma do_backup_database_record_witness :
  ∃ files s',
    do_backup_database Sample.platform (Sample.world true 0 None) 5 [] false
      (Sample.running BACKUP_MODE_FULL) = (Ok files, s')
    ∧ backup_files_list s' = Some files
    ∧ data_bytes (current s') = 16384
    ∧ start_lsn (current s') = 4345298984.
Proof.
  eexists _, _. split; [vm_compute; reflexivity|].
  match goal with
  | |- backup_files_list ?s' = Some ?files ∧ _ =>
      assert (Hrun :
        do_backup_database Sample.platform (Sample.world true 0 None) 5 []
          false (Sample.running BACKUP_MODE_FULL) = (Ok files, s'))
        by (vm_compute; reflexivity)
  end.
  destruct (do_backup_database_record _ _ _ _ _ _ _ _ Hrun)
    as (Hlist & _ & _ & _ & _).
  split; [exact Hlist|]. split; vm_compute; reflexivity.
Defined.

(** X20 on the sample installation. *)
Lemma do_backup_returns_witness :
  ∃ s',
    do_backup Sample.platform (Sample.world true 0 (Some [])) 5 false 7 30
      (start_state (Sample.record BACKUP_MODE_FULL)) = (Ok 0, s')
    ∧ status (current s') = BACKUP_STATUS_DONE
    ∧ atexit_stack s' = []
    ∧ ∃ tr,
        trace s' = [] ++ tr ++
                   [Ext (X_pgBackupDelete 7 30); Ext X_catalog_unlock].
Proof.
  eexists. split; [vm_compute; reflexivity|].
  match goal with
  | |- status (current ?s') = _ ∧ _ =>
      assert (Hrun :
        do_backup Sample.platform (Sample.world true 0 (Some [])) 5 false
          7 30 (start_state (Sample.record BACKUP_MODE_FULL)) = (Ok 0, s'))
        by (vm_compute; reflexivity)
  end.
  destruct (do_backup_returns _ _ _ _ _ _ _ _ _ Hrun)
    as (_ & Hst & Hax & _ & _ & tr & t & _ & Htr & _).
  split; [exact Hst|]. split; [exact Hax|].
  exists tr. exact Htr.
Defined.
